(** * limitedlet: the mutation-accounting engine of [LimitedVariable]

    A shallow embedding of the deep-tracking [LimitedVariable] class
    (the variant with [#deepProxies], [#createDeepProxy] and
    [#handleDeepMutation]) together with the part of the JavaScript object
    model its interception layer relies on: a heap of objects with identity,
    [Proxy] objects with the traps the class installs, and the [WeakMap] /
    [WeakSet] bookkeeping.

    Conventions.
    - Private fields keep their names without the [#].
    - JavaScript numbers used as counters are integers ([Z]).
    - Callbacks supplied in the options are host functions; an invocation is
      recorded in [calls] with the argument it received.  Callbacks are
      assumed not to call back into the same variable.
    - [Date.now()] reads the [clock] of the world.
    - A method either returns, throws (the state changes made before the
      [throw] stay in place, as in JavaScript) or aborts: [Abort] marks a run
      that left the model (recursion budget exhausted, dangling reference,
      an operation on arrays or built-in objects that is not modelled). *)

From stdpp Require Import base list gmap strings pretty.
From Stdlib Require Import ZArith Lia.

Set Warnings "-register-all".

(** ** Values and the heap *)

Definition loc := nat.

Inductive Val :=
| VUndefined
| VNull
| VBool (b : bool)
| VNum (z : Z)
| VStr (s : string)
| VRef (l : loc).

(** Property keys: [KIdx i] is the canonical array index [i] (the string
    that [String(i)] gives), [KName s] any other property name. *)
Inductive Key :=
| KIdx (i : nat)
| KName (s : string).

#[global] Instance Val_eq_dec : EqDecision Val.
Proof. solve_decision. Defined.
#[global] Instance Key_eq_dec : EqDecision Key.
Proof. solve_decision. Defined.

(** The built-in objects [#isSpecialObject] recognises. *)
Inductive SpecialKind := SDate | SRegExp | SError | SPromise | SBuffer.

Inductive ProxyKind := ObjectProxy | ArrayProxy.

(** A path is only ever extended ([[...path, x]]) and joined with ['.'];
    numeric segments are kept as their decimal rendering. *)
Definition Path := list string.

Inductive Obj :=
| OObject (props : list (Key * Val))
| OArray (elems : list Val)
| OSpecial (k : SpecialKind)
| OProxy (kind : ProxyKind) (target : loc) (path : Path).

Definition Heap := list Obj.

Definition key_string (k : Key) : string :=
  match k with
  | KIdx i => pretty i
  | KName s => s
  end.

(** [path.join('.')] *)
Definition join (path : Path) : string := String.concat "." path.

(** ** Records exchanged with the host *)

Inductive MutationType := MProperty | MDelete | MArrayMethod.

Inductive EntryType := TInitial | TMutation | TViolation | TReset | TDeepMutation.

Record HistoryEntry := {
  h_value : Val;
  h_previousValue : option Val;
  h_timestamp : Z;
  h_mutation : Z;
  h_mutationPath : option string;
  h_mutationType : option MutationType;
  h_type : EntryType
}.

(** A reference to an array of history entries: the internal [#history]
    array itself, or the [n]-th copy handed out by the [history] getter. *)
Inductive HistRef :=
| TheLog
| Copy (n : nat).

Record MutationContext := {
  c_maxMutations : Z;
  c_currentMutations : Z;
  c_attemptedValue : option Val;
  c_currentValue : option Val;
  c_frozen : option bool;
  c_mutationPath : option string;
  c_mutationType : option MutationType;
  c_history : option HistRef
}.

Inductive JsError :=
| MutationLimitExceeded (message : string) (context : MutationContext)
| Error (message : string).

Record MutationEvent := {
  e_newValue : Val;
  e_oldValue : Val;
  e_mutationCount : Z;
  e_remaining : Z;
  e_mutationPath : option string;
  e_mutationType : option MutationType
}.

Record LastMutationEvent := {
  l_value : Val;
  l_mutationPath : option string;
  l_mutationType : option MutationType;
  l_history : option HistRef
}.

Record ViolationAttempt := {
  a_attemptNumber : Z;
  a_attemptedValue : Val;
  a_currentValue : Val;
  a_mutationCount : Z;
  a_violationCount : Z;
  a_timestamp : Z;
  a_totalAttempts : Z;
  a_mutationPath : option string;
  a_mutationType : option MutationType
}.

(** One invocation of a callback of the options. *)
Inductive Call :=
| OnMutate (e : MutationEvent)
| OnViolation (error : JsError)
| OnLastMutation (e : LastMutationEvent)
| OnLimitExceeded (attempt : ViolationAttempt).

(** The options after the defaults are merged in; a callback slot is [true]
    when the host supplied a function. *)
Record Options := {
  trackHistory : bool;
  strictMode : bool;
  allowReset : bool;
  autoFreeze : bool;
  trackDeepMutations : bool;
  onMutate : bool;
  onViolation : bool;
  onLastMutation : bool;
  onLimitExceeded : bool;
  errorMessage : option string
}.

Definition default_options : Options := {|
  trackHistory := true;
  strictMode := true;
  allowReset := false;
  autoFreeze := true;
  trackDeepMutations := true;
  onMutate := false;
  onViolation := false;
  onLastMutation := false;
  onLimitExceeded := false;
  errorMessage := None
|}.

(** ** The instance and the world around it *)

Record LimitedVariable := {
  value : Val;
  maxMutations : Z;
  mutationCount : Z;
  violationCount : Z;
  history : list HistoryEntry;
  options : Options;
  frozen : bool;
  violated : bool;
  onViolationCalled : bool;
  deepProxies : gmap loc loc;
  mutationPath : Path
}.

Record World := {
  this : LimitedVariable;
  heap : Heap;
  copies : list (list HistoryEntry);
  calls : list Call;
  clock : Z
}.

Definition set_value_field (v : Val) (t : LimitedVariable) : LimitedVariable :=
  {| value := v; maxMutations := maxMutations t; mutationCount := mutationCount t;
     violationCount := violationCount t; history := history t; options := options t;
     frozen := frozen t; violated := violated t;
     onViolationCalled := onViolationCalled t; deepProxies := deepProxies t;
     mutationPath := mutationPath t |}.

Definition set_mutationCount (n : Z) (t : LimitedVariable) : LimitedVariable :=
  {| value := value t; maxMutations := maxMutations t; mutationCount := n;
     violationCount := violationCount t; history := history t; options := options t;
     frozen := frozen t; violated := violated t;
     onViolationCalled := onViolationCalled t; deepProxies := deepProxies t;
     mutationPath := mutationPath t |}.

Definition set_violationCount (n : Z) (t : LimitedVariable) : LimitedVariable :=
  {| value := value t; maxMutations := maxMutations t; mutationCount := mutationCount t;
     violationCount := n; history := history t; options := options t;
     frozen := frozen t; violated := violated t;
     onViolationCalled := onViolationCalled t; deepProxies := deepProxies t;
     mutationPath := mutationPath t |}.

Definition set_history (h : list HistoryEntry) (t : LimitedVariable) : LimitedVariable :=
  {| value := value t; maxMutations := maxMutations t; mutationCount := mutationCount t;
     violationCount := violationCount t; history := h; options := options t;
     frozen := frozen t; violated := violated t;
     onViolationCalled := onViolationCalled t; deepProxies := deepProxies t;
     mutationPath := mutationPath t |}.

Definition set_frozen (b : bool) (t : LimitedVariable) : LimitedVariable :=
  {| value := value t; maxMutations := maxMutations t; mutationCount := mutationCount t;
     violationCount := violationCount t; history := history t; options := options t;
     frozen := b; violated := violated t;
     onViolationCalled := onViolationCalled t; deepProxies := deepProxies t;
     mutationPath := mutationPath t |}.

Definition set_violated (b : bool) (t : LimitedVariable) : LimitedVariable :=
  {| value := value t; maxMutations := maxMutations t; mutationCount := mutationCount t;
     violationCount := violationCount t; history := history t; options := options t;
     frozen := frozen t; violated := b;
     onViolationCalled := onViolationCalled t; deepProxies := deepProxies t;
     mutationPath := mutationPath t |}.

Definition set_onViolationCalled (b : bool) (t : LimitedVariable) : LimitedVariable :=
  {| value := value t; maxMutations := maxMutations t; mutationCount := mutationCount t;
     violationCount := violationCount t; history := history t; options := options t;
     frozen := frozen t; violated := violated t;
     onViolationCalled := b; deepProxies := deepProxies t;
     mutationPath := mutationPath t |}.

Definition set_deepProxies (m : gmap loc loc) (t : LimitedVariable) : LimitedVariable :=
  {| value := value t; maxMutations := maxMutations t; mutationCount := mutationCount t;
     violationCount := violationCount t; history := history t; options := options t;
     frozen := frozen t; violated := violated t;
     onViolationCalled := onViolationCalled t; deepProxies := m;
     mutationPath := mutationPath t |}.

Definition set_mutationPath (p : Path) (t : LimitedVariable) : LimitedVariable :=
  {| value := value t; maxMutations := maxMutations t; mutationCount := mutationCount t;
     violationCount := violationCount t; history := history t; options := options t;
     frozen := frozen t; violated := violated t;
     onViolationCalled := onViolationCalled t; deepProxies := deepProxies t;
     mutationPath := p |}.

Definition with_this (t : LimitedVariable) (w : World) : World :=
  {| this := t; heap := heap w; copies := copies w; calls := calls w; clock := clock w |}.

Definition with_heap (h : Heap) (w : World) : World :=
  {| this := this w; heap := h; copies := copies w; calls := calls w; clock := clock w |}.

Definition with_copies (c : list (list HistoryEntry)) (w : World) : World :=
  {| this := this w; heap := heap w; copies := c; calls := calls w; clock := clock w |}.

Definition with_calls (c : list Call) (w : World) : World :=
  {| this := this w; heap := heap w; copies := copies w; calls := c; clock := clock w |}.

(** ** Completions and the monad of methods *)

Inductive Completion (A : Type) :=
| Normal (a : A)
| Throw (e : JsError)
| Abort.
Arguments Normal {A} a.
Arguments Throw {A} e.
Arguments Abort {A}.

Definition Js (A : Type) : Type := World -> Completion A * World.

Definition ret {A} (a : A) : Js A := fun w => (Normal a, w).

Definition bind {A B} (m : Js A) (f : A -> Js B) : Js B :=
  fun w =>
    match m w with
    | (Normal a, w') => f a w'
    | (Throw e, w') => (Throw e, w')
    | (Abort, w') => (Abort, w')
    end.

Definition throw {A} (e : JsError) : Js A := fun w => (Throw e, w).
Definition abort {A} : Js A := fun w => (Abort, w).

Declare Scope js_scope.
Delimit Scope js_scope with js.
Notation "x <- m ;; k" := (bind m (fun x => k))
  (at level 100, m at next level, right associativity) : js_scope.
Notation "m ;; k" := (bind m (fun _ => k))
  (at level 100, right associativity) : js_scope.
Local Open Scope js_scope.

Definition getThis : Js LimitedVariable := fun w => (Normal (this w), w).
Definition getHeap : Js Heap := fun w => (Normal (heap w), w).
Definition update (f : LimitedVariable -> LimitedVariable) : Js unit :=
  fun w => (Normal tt, with_this (f (this w)) w).
Definition invoke (c : Call) : Js unit :=
  fun w => (Normal tt, with_calls (calls w ++ [c]) w).
Definition Date_now : Js Z := fun w => (Normal (clock w), w).
Definition when (b : bool) (m : Js unit) : Js unit := if b then m else ret tt.

(** [this.#history.push(entry)] *)
Definition history_push (e : HistoryEntry) : Js unit :=
  update (fun t => set_history (history t ++ [e]) t).

(** [this.#options.errorMessage || fallback]: the empty string is falsy. *)
Definition message_or (o : Options) (fallback : string) : string :=
  match errorMessage o with
  | Some s => if decide (s = "") then fallback else s
  | None => fallback
  end.

(** ** The guard: reads, queries and control operations *)

(** [get remaining()] *)
Definition remaining (t : LimitedVariable) : Z :=
  Z.max 0 (maxMutations t - mutationCount t).

(** [get value()] *)
Definition get_value : Js Val :=
  t <- getThis ;;
  if strictMode (options t) && violated t then
    throw (MutationLimitExceeded
      "Cannot read value after mutation limit violation in strict mode"
      {| c_maxMutations := maxMutations t;
         c_currentMutations := mutationCount t;
         c_attemptedValue := None;
         c_currentValue := None;
         c_frozen := Some (frozen t);
         c_mutationPath := None;
         c_mutationType := None;
         c_history := None |})
  else ret (value t).

(** [get history()]: [[...this.#history]] allocates a new array holding the
    entries of the log; the getter returns a reference to that new array.
    The copy is shallow: the entry objects are the log's own, and editing
    one of them is not an edit of the array. *)
Definition get_history : Js HistRef :=
  t <- getThis ;;
  if negb (trackHistory (options t)) then
    throw (Error "History tracking is disabled. Enable it in options.")
  else
    fun w => (Normal (Copy (length (copies w))),
              with_copies (copies w ++ [history t]) w).

Definition get_mutationCount : Js Z := t <- getThis ;; ret (mutationCount t).
Definition get_maxMutations : Js Z := t <- getThis ;; ret (maxMutations t).
Definition get_violationCount : Js Z := t <- getThis ;; ret (violationCount t).

Definition isDepleted : Js bool :=
  t <- getThis ;; ret (bool_decide (maxMutations t <= mutationCount t)%Z).

Definition isFrozen : Js bool := t <- getThis ;; ret (frozen t).

Definition freeze : Js unit := update (set_frozen true).

(** [reset()] *)
Definition reset : Js unit :=
  t <- getThis ;;
  if negb (allowReset (options t)) then
    throw (Error "Reset is disabled. Enable it with { allowReset: true } in options.")
  else
    update (set_mutationCount 0) ;;
    update (set_violationCount 0) ;;
    update (set_frozen false) ;;
    update (set_violated false) ;;
    update (set_onViolationCalled false) ;;
    update (set_deepProxies ∅) ;;
    update (set_mutationPath []) ;;
    t <- getThis ;;
    now <- Date_now ;;
    when (trackHistory (options t))
      (history_push {| h_value := value t; h_previousValue := None;
                       h_timestamp := now; h_mutation := 0;
                       h_mutationPath := None; h_mutationType := None;
                       h_type := TReset |}).

(** The object [toJSON()] returns; [history] is the internal array itself,
    not a copy. *)
Record LimitedVariableJSON := {
  j_value : Val;
  j_maxMutations : Z;
  j_mutationCount : Z;
  j_violationCount : Z;
  j_remaining : Z;
  j_frozen : bool;
  j_history : option HistRef
}.

Definition toJSON : Js LimitedVariableJSON :=
  t <- getThis ;;
  ret {| j_value := value t;
         j_maxMutations := maxMutations t;
         j_mutationCount := mutationCount t;
         j_violationCount := violationCount t;
         j_remaining := remaining t;
         j_frozen := frozen t;
         j_history := if trackHistory (options t) then Some TheLog else None |}.

(** The contents of the array a history reference points to. *)
Definition deref (w : World) (r : HistRef) : option (list HistoryEntry) :=
  match r with
  | TheLog => Some (history (this w))
  | Copy n => copies w !! n
  end.

(** The host mutates the array behind a reference in place: [f] is the
    effect of the edit (a [push], a [pop], an index assignment, setting
    [length], ...) on the sequence of elements. *)
Definition host_edit_array (r : HistRef) (f : list HistoryEntry -> list HistoryEntry)
  : Js unit :=
  fun w =>
    match r with
    | TheLog => (Normal tt, with_this (set_history (f (history (this w))) (this w)) w)
    | Copy n =>
        match copies w !! n with
        | Some l => (Normal tt, with_copies (<[n := f l]> (copies w)) w)
        | None => (Abort, w)
        end
    end.

(** ** The guard: admission of deep mutations *)

(** The one-shot [onViolation] dispatch shared by every rejection path:
    [if (this.#options.onViolation && !this.#onViolationCalled) { ... }] *)
Definition fire_onViolation (error : JsError) : Js unit :=
  t <- getThis ;;
  if onViolation (options t) && negb (onViolationCalled t) then
    update (set_onViolationCalled true) ;;
    invoke (OnViolation error)
  else ret tt.

(** [#handleDeepMutation(path, newValue, oldValue, mutationType = 'property')] *)
Definition handleDeepMutation (path : Path) (newValue oldValue : Val)
    (mutationType : MutationType) : Js unit :=
  update (set_mutationPath path) ;;
  t <- getThis ;;
  let o := options t in
  let pathStr := join path in
  if frozen t then
    update (set_violated true) ;;
    let message := message_or o
      ("Variable is frozen. Deep mutation attempted at path: " +:+ pathStr) in
    let error := MutationLimitExceeded message
      {| c_maxMutations := maxMutations t;
         c_currentMutations := mutationCount t;
         c_attemptedValue := Some newValue;
         c_currentValue := Some oldValue;
         c_frozen := Some true;
         c_mutationPath := Some pathStr;
         c_mutationType := Some mutationType;
         c_history := None |} in
    fire_onViolation error ;;
    if strictMode o then throw error else ret tt
  else if bool_decide (maxMutations t <= mutationCount t)%Z then
    update (set_violated true) ;;
    update (fun t => set_violationCount (violationCount t + 1) t) ;;
    t <- getThis ;;
    now <- Date_now ;;
    let violationAttempt :=
      {| a_attemptNumber := violationCount t;
         a_attemptedValue := newValue;
         a_currentValue := oldValue;
         a_mutationCount := mutationCount t;
         a_violationCount := violationCount t;
         a_timestamp := now;
         a_totalAttempts := mutationCount t + violationCount t;
         a_mutationPath := Some pathStr;
         a_mutationType := Some mutationType |} in
    when (onLimitExceeded o) (invoke (OnLimitExceeded violationAttempt)) ;;
    if strictMode o then
      let message := message_or o
        ("Mutation limit exceeded at path: " +:+ pathStr +:+ ". Maximum "
         +:+ pretty (maxMutations t) +:+ " mutation(s) allowed, attempted mutation #"
         +:+ pretty (mutationCount t + violationCount t)%Z) in
      let error := MutationLimitExceeded message
        {| c_maxMutations := maxMutations t;
           c_currentMutations := mutationCount t;
           c_attemptedValue := Some newValue;
           c_currentValue := Some oldValue;
           c_frozen := None;
           c_mutationPath := Some pathStr;
           c_mutationType := Some mutationType;
           c_history := if trackHistory o then Some TheLog else None |} in
      fire_onViolation error ;;
      throw error
    else
      now <- Date_now ;;
      when (trackHistory o)
        (history_push {| h_value := newValue; h_previousValue := Some oldValue;
                         h_timestamp := now; h_mutation := mutationCount t;
                         h_mutationPath := Some pathStr;
                         h_mutationType := Some mutationType;
                         h_type := TViolation |})
  else
    update (fun t => set_mutationCount (mutationCount t + 1) t) ;;
    t <- getThis ;;
    now <- Date_now ;;
    when (trackHistory o)
      (history_push {| h_value := newValue; h_previousValue := Some oldValue;
                       h_timestamp := now; h_mutation := mutationCount t;
                       h_mutationPath := Some pathStr;
                       h_mutationType := Some mutationType;
                       h_type := TDeepMutation |}) ;;
    when (onMutate o)
      (invoke (OnMutate {| e_newValue := newValue; e_oldValue := oldValue;
                           e_mutationCount := mutationCount t;
                           e_remaining := remaining t;
                           e_mutationPath := Some pathStr;
                           e_mutationType := Some mutationType |})) ;;
    if bool_decide (mutationCount t = maxMutations t) then
      when (onLastMutation o)
        (invoke (OnLastMutation {| l_value := newValue;
                                   l_mutationPath := Some pathStr;
                                   l_mutationType := Some mutationType;
                                   l_history := if trackHistory o then Some TheLog
                                                else None |})) ;;
      when (autoFreeze o) (update (set_frozen true))
    else ret tt.

(** ** The object model the interception layer runs on *)

Definition alloc (o : Obj) : Js loc :=
  fun w => (Normal (length (heap w)), with_heap (heap w ++ [o]) w).

Definition load (l : loc) : Js Obj :=
  fun w => match heap w !! l with
           | Some o => (Normal o, w)
           | None => (Abort, w)
           end.

Definition store (l : loc) (o : Obj) : Js unit :=
  fun w => (Normal tt, with_heap (<[l := o]> (heap w)) w).

Fixpoint assoc_get (k : Key) (props : list (Key * Val)) : option Val :=
  match props with
  | [] => None
  | (k', v) :: rest => if decide (k = k') then Some v else assoc_get k rest
  end.

(** Assignment keeps the position of an existing property and appends a
    new one (insertion order). *)
Fixpoint assoc_set (k : Key) (v : Val) (props : list (Key * Val)) : list (Key * Val) :=
  match props with
  | [] => [(k, v)]
  | (k', v') :: rest =>
      if decide (k = k') then (k, v) :: rest else (k', v') :: assoc_set k v rest
  end.

Fixpoint assoc_del (k : Key) (props : list (Key * Val)) : list (Key * Val) :=
  match props with
  | [] => []
  | (k', v') :: rest =>
      if decide (k = k') then rest else (k', v') :: assoc_del k rest
  end.

(** Follows [Proxy] targets down to the object that is not a proxy.  The
    traps installed by the class forward every operation they do not
    intercept, so reads see the underlying object. *)
Fixpoint resolve (fuel : nat) (h : Heap) (l : loc) : option (loc * Obj) :=
  match fuel with
  | O => None
  | S n =>
      match h !! l with
      | Some (OProxy _ target _) => resolve n h target
      | Some o => Some (l, o)
      | None => None
      end
  end.

Definition raw_of (h : Heap) (l : loc) : option (loc * Obj) :=
  resolve (S (length h)) h l.

Definition get_own (o : Obj) (k : Key) : Val :=
  match o with
  | OObject props => default VUndefined (assoc_get k props)
  | OArray elems =>
      match k with
      | KIdx i => default VUndefined (elems !! i)
      | KName s => if decide (s = "length") then VNum (Z.of_nat (length elems))
                   else VUndefined
      end
  | _ => VUndefined
  end.

(** [target[prop]] / [Reflect.get(target, prop, receiver)] for a data
    property: both [get] traps of the class only forward. *)
Definition js_get (h : Heap) (l : loc) (k : Key) : Val :=
  match raw_of h l with
  | Some (_, o) => get_own o k
  | None => VUndefined
  end.

(** The keys [for (const key in target)] visits and [hasOwnProperty]
    accepts. *)
Definition own_keys (h : Heap) (l : loc) : list Key :=
  match raw_of h l with
  | Some (_, OObject props) => props.*1
  | _ => []
  end.

(** Ordinary assignment on an object that is not a proxy.  An index past
    the end of an array extends it (the holes read as [undefined]). *)
Definition set_own (o : Obj) (k : Key) (v : Val) : option Obj :=
  match o with
  | OObject props => Some (OObject (assoc_set k v props))
  | OArray elems =>
      match k with
      | KIdx i =>
          if decide (i < length elems) then Some (OArray (<[i := v]> elems))
          else Some (OArray (elems ++ replicate (i - length elems) VUndefined ++ [v]))
      | KName s =>
          if decide (s = "length") then
            match v with
            | VNum z => if decide (0 <= z)%Z
                        then Some (OArray (resize (Z.to_nat z) VUndefined elems))
                        else None
            | _ => None
            end
          else None
      end
  | _ => None
  end.

(** Ordinary [delete]; deleting an array element leaves a hole. *)
Definition delete_own (o : Obj) (k : Key) : option Obj :=
  match o with
  | OObject props => Some (OObject (assoc_del k props))
  | OArray elems =>
      match k with
      | KIdx i => Some (OArray (<[i := VUndefined]> elems))
      | KName _ => None
      end
  | _ => None
  end.

(** [#isSpecialObject(value)] *)
Definition isSpecialObject (h : Heap) (v : Val) : bool :=
  match v with
  | VRef l => match h !! l with
              | Some (OSpecial _) => true
              | _ => false
              end
  | _ => false
  end.

(** [#isObjectOrArray(value)]: [typeof] of a proxy is ['object'] too. *)
Definition isObjectOrArray (h : Heap) (v : Val) : bool :=
  match v with
  | VRef l => bool_decide (is_Some (h !! l)) && negb (isSpecialObject h v)
  | _ => false
  end.

Arguments isObjectOrArray : simpl never.

(** [Array.isArray] looks through proxies. *)
Definition Array_isArray (h : Heap) (l : loc) : bool :=
  match raw_of h l with
  | Some (_, OArray _) => true
  | _ => false
  end.

Definition is_digit (a : Ascii.ascii) : bool :=
  let n := Ascii.nat_of_ascii a in
  bool_decide (48 <= n) && bool_decide (n <= 57).

Fixpoint digits_only (s : string) : bool :=
  match s with
  | EmptyString => true
  | String a s' => is_digit a && digits_only s'
  end.

(** [/^\d+$/.test(prop)] *)
Definition is_index_like (k : Key) : bool :=
  match k with
  | KIdx _ => true
  | KName s => negb (bool_decide (s = "")) && digits_only s
  end.

Inductive ArrayMethod := Push | Pop | Shift | Unshift | Splice | Sort | Reverse | Fill.

(** [mutatingMethods] lists exactly these eight names. *)
Definition method_name (m : ArrayMethod) : string :=
  match m with
  | Push => "push" | Pop => "pop" | Shift => "shift" | Unshift => "unshift"
  | Splice => "splice" | Sort => "sort" | Reverse => "reverse" | Fill => "fill"
  end.

(** What a built-in array method hands back: a value, a newly created
    array (as [splice] does), or the array it was called on (as [sort],
    [reverse] and [fill] do). *)
Inductive BuiltinResult :=
| BVal (v : Val)
| BArray (elems : list Val)
| BThis.

(** The array methods of the runtime ([Array.prototype]) are not code of
    this repository: [Array_prototype m args elems] gives the new elements
    of the array and the result of the call. *)
Class ArrayBuiltins :=
  Array_prototype : ArrayMethod -> list Val -> list Val -> list Val * BuiltinResult.

Fixpoint foldM {A S} (f : A -> S -> Js S) (l : list A) (s : S) : Js S :=
  match l with
  | [] => ret s
  | a :: l' => s' <- f a s ;; foldM f l' s'
  end.

Definition forM_ {A} (l : list A) (f : A -> Js unit) : Js unit :=
  foldM (fun a _ => f a) l tt.

Definition has (m : gmap loc loc) (l : loc) : bool := bool_decide (is_Some (m !! l)).

(** *** The traps, with the operations on the target left open *)

Section Traps.
(** [Reflect.set] and [Reflect.deleteProperty] on the target (which may
    itself be a proxy) and [this.#createDeepProxy]. *)
Variable Reflect_set : loc -> Key -> Val -> Js unit.
Variable Reflect_deleteProperty : loc -> Key -> Js unit.
Variable createDeepProxy : loc -> Path -> Js loc.

(** [if (this.#isObjectOrArray(value)) value = this.#createDeepProxy(value, newPath)] *)
Definition wrap_value (value : Val) (newPath : Path) : Js Val :=
  h <- getHeap ;;
  if isObjectOrArray h value then
    match value with
    | VRef l => p <- createDeepProxy l newPath ;; ret (VRef p)
    | _ => ret value
    end
  else ret value.

(** The [set] trap of [#createObjectProxy]. *)
Definition objectProxy_set (target : loc) (path : Path) (prop : Key) (value : Val)
  : Js unit :=
  let newPath := path ++ [key_string prop] in
  h <- getHeap ;;
  handleDeepMutation newPath value (js_get h target prop) MProperty ;;
  value <- wrap_value value newPath ;;
  Reflect_set target prop value.

(** The [deleteProperty] trap of [#createObjectProxy]. *)
Definition objectProxy_deleteProperty (target : loc) (path : Path) (prop : Key)
  : Js unit :=
  let newPath := path ++ [key_string prop] in
  h <- getHeap ;;
  handleDeepMutation newPath VUndefined (js_get h target prop) MDelete ;;
  Reflect_deleteProperty target prop.

(** The [set] trap of [#createArrayProxy]. *)
Definition arrayProxy_set (target : loc) (path : Path) (prop : Key) (value : Val)
  : Js unit :=
  if negb (bool_decide (prop = KName "length")) && is_index_like prop then
    let newPath := path ++ [key_string prop] in
    h <- getHeap ;;
    handleDeepMutation newPath value (js_get h target prop) MProperty ;;
    value <- wrap_value value newPath ;;
    Reflect_set target prop value
  else Reflect_set target prop value.

(** [#rewrapArrayElements(arr, path)].  The loop bound [arr.length] is
    read once: the body only assigns to indices below it. *)
Definition rewrapArrayElements (arr : loc) (path : Path) : Js unit :=
  h <- getHeap ;;
  match js_get h arr (KName "length") with
  | VNum len =>
      forM_ (seq 0 (Z.to_nat len)) (fun i =>
        h <- getHeap ;;
        t <- getThis ;;
        match js_get h arr (KIdx i) with
        | VRef c =>
            if isObjectOrArray h (VRef c) && negb (has (deepProxies t) c) then
              p <- createDeepProxy c (path ++ [pretty i]) ;;
              Reflect_set arr (KIdx i) (VRef p)
            else ret tt
        | _ => ret tt
        end)
  | _ => ret tt
  end.
End Traps.

(** *** Tying the knot

    [Reflect_set fuel l k v] is the assignment [l[k] = v]: the trap when [l]
    is a proxy, the ordinary assignment otherwise.  [createProxy] is the
    closure inside [#createDeepProxy]; the [WeakSet] it closes over is
    threaded through.  An [OObject] stands for an ordinary object: the
    [target.hasOwnProperty(key)] of the loop is the built-in of
    [Object.prototype] and answers [true] for every key the loop visits.
    An object that shadows [hasOwnProperty] with a property of its own, or
    that has no prototype, is outside the model: on it the real call
    throws a [TypeError]. *)
Fixpoint Reflect_set (fuel : nat) (l : loc) (k : Key) (v : Val) {struct fuel} : Js unit :=
  match fuel with
  | O => abort
  | S n =>
      o <- load l ;;
      match o with
      | OProxy ObjectProxy target path =>
          objectProxy_set (Reflect_set n) (createDeepProxy n) target path k v
      | OProxy ArrayProxy target path =>
          arrayProxy_set (Reflect_set n) (createDeepProxy n) target path k v
      | _ =>
          match set_own o k v with
          | Some o' => store l o'
          | None => abort
          end
      end
  end
with createDeepProxy (fuel : nat) (obj : loc) (path : Path) {struct fuel} : Js loc :=
  match fuel with
  | O => abort
  | S n =>
      t <- getThis ;;
      match deepProxies t !! obj with
      | Some p => ret p
      | None =>
          r <- createProxy n obj path ∅ ;;
          update (fun t => set_deepProxies (<[obj := r.1]> (deepProxies t)) t) ;;
          ret r.1
      end
  end
with createProxy (fuel : nat) (target : loc) (currentPath : Path)
    (processedObjects : gset loc) {struct fuel} : Js (loc * gset loc) :=
  match fuel with
  | O => abort
  | S n =>
      if bool_decide (target ∈ processedObjects) then ret (target, processedObjects)
      else
        let processedObjects := {[target]} ∪ processedObjects in
        let visit (k : Key) (processedObjects : gset loc) : Js (gset loc) :=
          h <- getHeap ;;
          t <- getThis ;;
          match js_get h target k with
          | VRef c =>
              if isObjectOrArray h (VRef c) && negb (has (deepProxies t) c) then
                r <- createProxy n c (currentPath ++ [key_string k]) processedObjects ;;
                Reflect_set n target k (VRef r.1) ;;
                ret r.2
              else ret processedObjects
          | _ => ret processedObjects
          end in
        h <- getHeap ;;
        if Array_isArray h target then
          match js_get h target (KName "length") with
          | VNum len =>
              processedObjects <-
                foldM visit (KIdx <$> seq 0 (Z.to_nat len)) processedObjects ;;
              p <- alloc (OProxy ArrayProxy target currentPath) ;;
              ret (p, processedObjects)
          | _ => abort
          end
        else if isObjectOrArray h (VRef target) then
          processedObjects <- foldM visit (own_keys h target) processedObjects ;;
          p <- alloc (OProxy ObjectProxy target currentPath) ;;
          ret (p, processedObjects)
        else ret (target, processedObjects)
  end.

(** [delete l[k]]: only object proxies have a [deleteProperty] trap; an
    array proxy forwards to its target. *)
Fixpoint Reflect_deleteProperty (fuel : nat) (l : loc) (k : Key) {struct fuel} : Js unit :=
  match fuel with
  | O => abort
  | S n =>
      o <- load l ;;
      match o with
      | OProxy ObjectProxy target path =>
          objectProxy_deleteProperty (Reflect_deleteProperty n) target path k
      | OProxy ArrayProxy target _ => Reflect_deleteProperty n target k
      | _ =>
          match delete_own o k with
          | Some o' => store l o'
          | None => abort
          end
      end
  end.

(** [l.m(...args)] for a mutating method [m].  On an array proxy the [get]
    trap returns the wrapper
    [(...args) => { handleDeepMutation; value.apply(target, args); rewrap }],
    where [value] is what the target answers for [m]: the built-in on an
    array, the target's own wrapper when the target is again a proxy. *)
Fixpoint call_method `{ArrayBuiltins} (fuel : nat) (l : loc) (m : ArrayMethod)
    (args : list Val) {struct fuel} : Js Val :=
  match fuel with
  | O => abort
  | S n =>
      o <- load l ;;
      match o with
      | OProxy ArrayProxy target path =>
          a <- alloc (OArray args) ;;
          handleDeepMutation (path ++ [method_name m +:+ "()"]) (VRef a) VUndefined
            MArrayMethod ;;
          result <- call_method n target m args ;;
          rewrapArrayElements (Reflect_set n) (createDeepProxy n) target path ;;
          ret result
      | OArray elems =>
          let '(elems', result) := Array_prototype m args elems in
          store l (OArray elems') ;;
          match result with
          | BVal v => ret v
          | BArray xs => a <- alloc (OArray xs) ;; ret (VRef a)
          | BThis => ret (VRef l)
          end
      | _ => abort
      end
  end.

(** ** The guard: top-level assignment and construction *)

(** [set value(newValue)] *)
Definition set_value (fuel : nat) (newValue : Val) : Js unit :=
  t <- getThis ;;
  let o := options t in
  if frozen t then
    update (set_violated true) ;;
    let message := message_or o "Variable is frozen. No more mutations allowed." in
    let error := MutationLimitExceeded message
      {| c_maxMutations := maxMutations t;
         c_currentMutations := mutationCount t;
         c_attemptedValue := Some newValue;
         c_currentValue := Some (value t);
         c_frozen := Some true;
         c_mutationPath := None;
         c_mutationType := None;
         c_history := None |} in
    fire_onViolation error ;;
    if strictMode o then throw error else ret tt
  else if bool_decide (maxMutations t <= mutationCount t)%Z then
    update (set_violated true) ;;
    update (fun t => set_violationCount (violationCount t + 1) t) ;;
    t <- getThis ;;
    now <- Date_now ;;
    let violationAttempt :=
      {| a_attemptNumber := violationCount t;
         a_attemptedValue := newValue;
         a_currentValue := value t;
         a_mutationCount := mutationCount t;
         a_violationCount := violationCount t;
         a_timestamp := now;
         a_totalAttempts := mutationCount t + violationCount t;
         a_mutationPath := None;
         a_mutationType := None |} in
    when (onLimitExceeded o) (invoke (OnLimitExceeded violationAttempt)) ;;
    if strictMode o then
      let message := message_or o
        ("Mutation limit exceeded. Maximum " +:+ pretty (maxMutations t)
         +:+ " mutation(s) allowed, attempted mutation #"
         +:+ pretty (mutationCount t + violationCount t)%Z) in
      let error := MutationLimitExceeded message
        {| c_maxMutations := maxMutations t;
           c_currentMutations := mutationCount t;
           c_attemptedValue := Some newValue;
           c_currentValue := Some (value t);
           c_frozen := None;
           c_mutationPath := None;
           c_mutationType := None;
           c_history := if trackHistory o then Some TheLog else None |} in
      fire_onViolation error ;;
      throw error
    else
      let oldValue := value t in
      update (set_value_field newValue) ;;
      now <- Date_now ;;
      when (trackHistory o)
        (history_push {| h_value := newValue; h_previousValue := Some oldValue;
                         h_timestamp := now; h_mutation := mutationCount t;
                         h_mutationPath := None; h_mutationType := None;
                         h_type := TViolation |})
  else
    let oldValue := value t in
    h <- getHeap ;;
    (if trackDeepMutations o && isObjectOrArray h newValue then
       match newValue with
       | VRef l => p <- createDeepProxy fuel l [] ;; update (set_value_field (VRef p))
       | _ => update (set_value_field newValue)
       end
     else update (set_value_field newValue)) ;;
    update (fun t => set_mutationCount (mutationCount t + 1) t) ;;
    t <- getThis ;;
    now <- Date_now ;;
    when (trackHistory o)
      (history_push {| h_value := newValue; h_previousValue := Some oldValue;
                       h_timestamp := now; h_mutation := mutationCount t;
                       h_mutationPath := None; h_mutationType := None;
                       h_type := TMutation |}) ;;
    when (onMutate o)
      (invoke (OnMutate {| e_newValue := newValue; e_oldValue := oldValue;
                           e_mutationCount := mutationCount t;
                           e_remaining := remaining t;
                           e_mutationPath := None;
                           e_mutationType := None |})) ;;
    if bool_decide (mutationCount t = maxMutations t) then
      when (onLastMutation o)
        (invoke (OnLastMutation {| l_value := newValue;
                                   l_mutationPath := None;
                                   l_mutationType := None;
                                   l_history := if trackHistory o then Some TheLog
                                                else None |})) ;;
      when (autoFreeze o) (update (set_frozen true))
    else ret tt.

(** Semantic coupling of the constructor: non-strict mode disables
    auto-freeze. *)
Definition couple (o : Options) : Options :=
  if strictMode o then o
  else {| trackHistory := trackHistory o; strictMode := strictMode o;
          allowReset := allowReset o; autoFreeze := false;
          trackDeepMutations := trackDeepMutations o; onMutate := onMutate o;
          onViolation := onViolation o; onLastMutation := onLastMutation o;
          onLimitExceeded := onLimitExceeded o; errorMessage := errorMessage o |}.

(** The instance as the field initialisers leave it, before the body of
    the constructor runs, in a world with heap [h]. *)
Definition blank (maxMutations : Z) (o : Options) (h : Heap) (now : Z) : World :=
  {| this := {| value := VUndefined; maxMutations := maxMutations;
                mutationCount := 0; violationCount := 0; history := [];
                options := couple o; frozen := false; violated := false;
                onViolationCalled := false; deepProxies := ∅; mutationPath := [] |};
     heap := h; copies := []; calls := []; clock := now |}.

(** The body of [constructor(initialValue, maxMutations, options)]. *)
Definition constructor_body (fuel : nat) (initialValue : Val) : Js unit :=
  t <- getThis ;;
  h <- getHeap ;;
  (if trackDeepMutations (options t) && isObjectOrArray h initialValue then
     match initialValue with
     | VRef l => p <- createDeepProxy fuel l [] ;; update (set_value_field (VRef p))
     | _ => update (set_value_field initialValue)
     end
   else update (set_value_field initialValue)) ;;
  now <- Date_now ;;
  when (trackHistory (options t))
    (history_push {| h_value := initialValue; h_previousValue := None;
                     h_timestamp := now; h_mutation := 0;
                     h_mutationPath := None; h_mutationType := None;
                     h_type := TInitial |}).

(** ** The host *)

(** A value the host writes down: an existing value, or a literal that
    creates new objects. *)
Inductive Data :=
| DVal (v : Val)
| DObject (props : list (Key * Data))
| DArray (elems : list Data)
| DSpecial (k : SpecialKind).

Fixpoint alloc_data (d : Data) (h : Heap) : Val * Heap :=
  match d with
  | DVal v => (v, h)
  | DSpecial k => (VRef (length h), h ++ [OSpecial k])
  | DObject props =>
      let '(ps, h') :=
        (fix go (props : list (Key * Data)) (h : Heap) : list (Key * Val) * Heap :=
           match props with
           | [] => ([], h)
           | (k, d) :: rest =>
               let '(v, h1) := alloc_data d h in
               let '(vs, h2) := go rest h1 in
               ((k, v) :: vs, h2)
           end) props h in
      (VRef (length h'), h' ++ [OObject ps])
  | DArray elems =>
      let '(vs, h') :=
        (fix go (elems : list Data) (h : Heap) : list Val * Heap :=
           match elems with
           | [] => ([], h)
           | d :: rest =>
               let '(v, h1) := alloc_data d h in
               let '(vs, h2) := go rest h1 in
               (v :: vs, h2)
           end) elems h in
      (VRef (length h'), h' ++ [OArray vs])
  end.

Definition eval_data (d : Data) : Js Val :=
  fun w => let '(v, h) := alloc_data d (heap w) in (Normal v, with_heap h w).

Definition eval_args (ds : list Data) : Js (list Val) :=
  foldM (fun d acc => v <- eval_data d ;; ret (acc ++ [v])) ds [].

(** [new LimitedVariable(initialValue, maxMutations, options)] at time
    [now], in a world whose heap [h] holds the objects the host has built so
    far. *)
Definition construct (fuel : nat) (h : Heap) (now : Z) (initialValue : Val)
    (maxMutations : Z) (o : Options) : Completion unit * World :=
  constructor_body fuel initialValue (blank maxMutations o h now).

(** [limitedLet(initialValue, maxMutations, options)] with a literal initial
    value, in an otherwise empty heap at time [0].  The proxy [limitedLet]
    puts around the instance only forwards: its [set] handler runs the
    [value] setter, its [get] handler the getters and methods. *)
Definition limitedLet (fuel : nat) (initialValue : Data) (maxMutations : Z)
    (o : Options) : Completion unit * World :=
  construct fuel (alloc_data initialValue []).2 0 (alloc_data initialValue []).1
    maxMutations o.

(** Reading along a chain of properties, as in [x.a.b]. *)
Fixpoint navigate (h : Heap) (v : Val) (nav : list Key) : Val :=
  match nav with
  | [] => v
  | k :: rest =>
      match v with
      | VRef l => navigate h (js_get h l k) rest
      | _ => VUndefined
      end
  end.

(** The object an edit is aimed at: a reference the host holds, or the
    object found by reading [.value] and then the given properties. *)
Inductive Target :=
| AtRef (l : loc)
| ViaValue (nav : list Key).

Definition locate (tg : Target) : Js loc :=
  match tg with
  | AtRef l => ret l
  | ViaValue nav =>
      v <- get_value ;;
      h <- getHeap ;;
      match navigate h v nav with
      | VRef l => ret l
      | _ => abort
      end
  end.

Inductive HostOp :=
| Read
| Write (d : Data)
| SetProp (tg : Target) (k : Key) (d : Data)
| DeleteProp (tg : Target) (k : Key)
| CallMethod (tg : Target) (m : ArrayMethod) (args : list Data)
| Freeze
| Reset
| GetHistory
| EditHistory (r : HistRef) (f : list HistoryEntry -> list HistoryEntry).

Definition discard {A} (m : Js A) : Js unit := _ <- m ;; ret tt.

Definition host_step `{ArrayBuiltins} (fuel : nat) (op : HostOp) : Js unit :=
  match op with
  | Read => discard get_value
  | Write d => v <- eval_data d ;; set_value fuel v
  | SetProp tg k d =>
      l <- locate tg ;; v <- eval_data d ;; Reflect_set fuel l k v
  | DeleteProp tg k =>
      l <- locate tg ;; Reflect_deleteProperty fuel l k
  | CallMethod tg m args =>
      l <- locate tg ;; vs <- eval_args args ;; discard (call_method fuel l m vs)
  | Freeze => freeze
  | Reset => reset
  | GetHistory => discard get_history
  | EditHistory r f => host_edit_array r f
  end.

(** The host runs the operations one after the other and catches what they
    throw; the outcomes are collected in order. *)
Fixpoint run `{ArrayBuiltins} (fuel : nat) (ops : list HostOp) (w : World)
  : list (Completion unit) * World :=
  match ops with
  | [] => ([], w)
  | op :: rest =>
      let '(c, w1) := host_step fuel op w in
      let '(cs, w2) := run fuel rest w1 in
      (c :: cs, w2)
  end.

(** Which operations are write attempts. *)
Definition is_write (op : HostOp) : bool :=
  match op with
  | Write _ | SetProp _ _ _ | DeleteProp _ _ | CallMethod _ _ _ => true
  | _ => false
  end.

Definition is_OnViolation (c : Call) : bool :=
  match c with OnViolation _ => true | _ => false end.
Definition is_OnLastMutation (c : Call) : bool :=
  match c with OnLastMutation _ => true | _ => false end.
Definition is_OnLimitExceeded (c : Call) : bool :=
  match c with OnLimitExceeded _ => true | _ => false end.

Definition count_calls (p : Call -> bool) (w : World) : nat :=
  length (filter (fun c => p c = true) (calls w)).

(** ** A reference runtime for concrete runs

    The usual behaviour of the eight methods on integer arguments.  [sort]
    is the comparator-less sort: [undefined] last, the rest by string
    conversion (every object converts alike here). *)

Definition to_integer (v : option Val) (dflt : Z) : Z :=
  match v with
  | Some (VNum z) => z
  | Some VUndefined | None => dflt
  | _ => 0%Z
  end.

(** A relative index clamped into [0 .. len]. *)
Definition clamp_index (z : Z) (len : nat) : nat :=
  if decide (z < 0)%Z then Z.to_nat (Z.max 0 (Z.of_nat len + z))
  else Nat.min (Z.to_nat z) len.

Definition to_sort_string (v : Val) : string :=
  match v with
  | VUndefined => "undefined"
  | VNull => "null"
  | VBool b => if b then "true" else "false"
  | VNum z => pretty z
  | VStr s => s
  | VRef _ => "[object Object]"
  end.

Definition sort_le (a b : Val) : bool :=
  match a, b with
  | _, VUndefined => true
  | VUndefined, _ => false
  | _, _ => String.leb (to_sort_string a) (to_sort_string b)
  end.

Fixpoint sort_insert (a : Val) (l : list Val) : list Val :=
  match l with
  | [] => [a]
  | b :: l' => if sort_le a b then a :: l else b :: sort_insert a l'
  end.

Definition sort_default (l : list Val) : list Val := foldr sort_insert [] l.

Definition reference_builtins : ArrayBuiltins :=
  fun m args elems =>
    let len := length elems in
    match m with
    | Push => (elems ++ args, BVal (VNum (Z.of_nat (len + length args))))
    | Pop => (take (len - 1) elems, BVal (default VUndefined (last elems)))
    | Shift => (drop 1 elems, BVal (default VUndefined (head elems)))
    | Unshift => (args ++ elems, BVal (VNum (Z.of_nat (len + length args))))
    | Reverse => (reverse elems, BThis)
    | Sort => (sort_default elems, BThis)
    | Fill =>
        let v := default VUndefined (args !! 0) in
        let s := clamp_index (to_integer (args !! 1) 0) len in
        let e := clamp_index (to_integer (args !! 2) (Z.of_nat len)) len in
        (take s elems ++ replicate (e - s) v ++ drop (Nat.max s e) elems, BThis)
    | Splice =>
        match args with
        | [] => (elems, BArray [])
        | start :: rest =>
            let s := clamp_index (to_integer (Some start) 0) len in
            let dc :=
              match rest with
              | [] => len - s
              | d :: _ => Nat.min (Z.to_nat (Z.max 0 (to_integer (Some d) 0))) (len - s)
              end in
            (take s elems ++ drop 1 rest ++ drop (s + dc) elems,
             BArray (take dc (drop s elems)))
        end
    end.

(** The world right after construction. *)
Definition fresh (fuel : nat) (initialValue : Data) (maxMutations : Z) (o : Options)
  : World := (limitedLet fuel initialValue maxMutations o).2.

Definition is_reset (op : HostOp) : bool :=
  match op with Reset => true | _ => false end.

(** ** Vocabulary of the properties *)

(** [Pres R m]: whatever [m] does and however it completes, the world it
    leaves is [R]-related to the one it started in. *)
Definition Pres (R : World -> World -> Prop) {A} (m : Js A) : Prop :=
  forall w, R w (m w).2.

(** [1] while the one-shot [onViolation] dispatch is still armed. *)
Definition armed (w : World) : nat :=
  if onViolationCalled (this w) then 0 else 1.

(** The counter has been driven up to a limit of at least one. *)
Definition limit_reached (t : LimitedVariable) : bool :=
  bool_decide (1 <= maxMutations t)%Z &&
  bool_decide (maxMutations t <= mutationCount t)%Z.

(** [onLastMutation] has been invoked once if it is supplied and the limit
    has been reached, and not at all otherwise. *)
Definition last_fired_ok (w : World) : Prop :=
  count_calls is_OnLastMutation w =
  if onLastMutation (options (this w)) && limit_reached (this w) then 1 else 0.

(** What every operation other than [reset] guarantees about the
    accounting state. *)
Record account_step (w w' : World) : Prop := {
  as_max : maxMutations (this w') = maxMutations (this w);
  as_options : options (this w') = options (this w);
  as_count : (mutationCount (this w) <= mutationCount (this w'))%Z;
  as_viol : (violationCount (this w) <= violationCount (this w'))%Z;
  as_armed : count_calls is_OnViolation w' + armed w'
             <= count_calls is_OnViolation w + armed w;
  as_last : (0 <= mutationCount (this w))%Z -> last_fired_ok w -> last_fired_ok w'
}.

(** What a write attempt on a frozen variable leaves alone. *)
Definition frozen_frame (w w' : World) : Prop :=
  frozen (this w) = true ->
  frozen (this w') = true /\
  mutationCount (this w') = mutationCount (this w) /\
  violationCount (this w') = violationCount (this w) /\
  history (this w') = history (this w) /\
  count_calls is_OnLimitExceeded w' = count_calls is_OnLimitExceeded w.

(** The number of [Reset] operations that go through. *)
Definition resets_done (o : Options) (ops : list HostOp) : nat :=
  if allowReset o then length (filter (fun op => is_reset op = true) ops) else 0.

Definition is_primitive (v : Val) : bool :=
  match v with VRef _ => false | _ => true end.

Definition is_Normal {A} (c : Completion A) : bool :=
  match c with Normal _ => true | _ => false end.

(** One run of the admission policy: the top-level setter on a value that
    is not a container, or [#handleDeepMutation]. *)
Inductive Check :=
| ShallowCheck (v : Val)
| DeepCheck (path : Path) (newValue oldValue : Val) (ty : MutationType).

Definition check_ok (c : Check) : bool :=
  match c with
  | ShallowCheck v => is_primitive v
  | DeepCheck _ _ _ _ => true
  end.

Definition check_step (c : Check) : Js unit :=
  match c with
  | ShallowCheck v => set_value 0 v
  | DeepCheck path nv ov ty => handleDeepMutation path nv ov ty
  end.

Fixpoint run_checks (cs : list Check) (w : World) : list (Completion unit) * World :=
  match cs with
  | [] => ([], w)
  | c :: rest =>
      let '(out, w1) := check_step c w in
      let '(outs, w2) := run_checks rest w1 in
      (out :: outs, w2)
  end.

(** The policy turns the attempt down. *)
Definition rejects (t : LimitedVariable) : bool :=
  frozen t || bool_decide (maxMutations t <= mutationCount t)%Z.

Definition check_effect (w : World) (r : Completion unit * World) : Prop :=
  let t := this w in
  mutationCount (this r.2) =
    (if rejects t then mutationCount t else mutationCount t + 1)%Z /\
  violated (this r.2) = violated t || rejects t /\
  frozen (this r.2) =
    frozen t || (negb (rejects t) && autoFreeze (options t) &&
                 bool_decide (mutationCount t + 1 = maxMutations t)%Z) /\
  maxMutations (this r.2) = maxMutations t /\
  options (this r.2) = options t /\
  is_Normal r.1 = negb (rejects t) || negb (strictMode (options t)).

(** The state after [k] runs of the policy on a new variable. *)
Definition depleted_to (k : Z) (w : World) : Prop :=
  mutationCount (this w) = Z.min k (maxMutations (this w)) /\
  violated (this w) = bool_decide (maxMutations (this w) < k)%Z /\
  (frozen (this w) = true -> (maxMutations (this w) <= k)%Z).

(** [Sat I T m]: started in a world where [I] holds, [m] leaves a world
    where [I] holds, and if it throws [e] then [T e] holds of that world. *)
Definition Sat (I : World -> Prop) (T : JsError -> World -> Prop) {A} (m : Js A)
  : Prop :=
  forall w, I w -> I (m w).2 /\ forall e, (m w).1 = Throw e -> T e (m w).2.

Definition is_OnMutate (c : Call) : bool :=
  match c with OnMutate _ => true | _ => false end.

(** What every operation other than [reset] and an edit of the log by the
    host guarantees about the counters, the callbacks and the log. *)
Record ledger_step (w w' : World) : Prop := {
  ls_max : maxMutations (this w') = maxMutations (this w);
  ls_options : options (this w') = options (this w);
  ls_count : (mutationCount (this w) <= mutationCount (this w'))%Z;
  ls_viol : (violationCount (this w) <= violationCount (this w'))%Z;
  ls_mutate :
    Z.of_nat (count_calls is_OnMutate w') =
    (Z.of_nat (count_calls is_OnMutate w) +
     if onMutate (options (this w))
     then mutationCount (this w') - mutationCount (this w) else 0)%Z;
  ls_limit :
    Z.of_nat (count_calls is_OnLimitExceeded w') =
    (Z.of_nat (count_calls is_OnLimitExceeded w) +
     if onLimitExceeded (options (this w))
     then violationCount (this w') - violationCount (this w) else 0)%Z;
  ls_prefix : history (this w) `prefix_of` history (this w');
  ls_length :
    Z.of_nat (length (history (this w'))) =
    (Z.of_nat (length (history (this w))) +
     if trackHistory (options (this w)) then
       (mutationCount (this w') - mutationCount (this w)) +
       (if strictMode (options (this w)) then 0
        else violationCount (this w') - violationCount (this w))
     else 0)%Z
}.

(** What every operation other than [freeze] guarantees about the freeze
    flag: without auto-freeze it is not raised, and it is only raised on a
    depleted variable. *)
Record freeze_step (w w' : World) : Prop := {
  fs_max : maxMutations (this w') = maxMutations (this w);
  fs_options : options (this w') = options (this w);
  fs_unfrozen :
    autoFreeze (options (this w)) = false ->
    frozen (this w) = false -> frozen (this w') = false;
  fs_depleted :
    (frozen (this w) = true -> (maxMutations (this w) <= mutationCount (this w))%Z) ->
    frozen (this w') = true -> (maxMutations (this w') <= mutationCount (this w'))%Z
}.

Definition is_Throw {A} (c : Completion A) : bool :=
  match c with Throw _ => true | _ => false end.


(** Operations of the host other than [reset] and an edit of the log. *)
Definition quiet (op : HostOp) : bool :=
  match op with
  | Reset | EditHistory TheLog _ => false
  | _ => true
  end.

Definition edits_log (op : HostOp) : bool :=
  match op with EditHistory TheLog _ => true | _ => false end.

Definition is_freeze (op : HostOp) : bool :=
  match op with Freeze => true | _ => false end.

(** The operations that do not reach into the stored value. *)
Definition top_level (op : HostOp) : bool :=
  match op with
  | SetProp _ _ _ | DeleteProp _ _ | CallMethod _ _ _ => false
  | _ => true
  end.

(** The entries of the log that stand for an admitted mutation, and the
    numbers they carry in their [mutation] field. *)
Definition is_admitted (e : HistoryEntry) : bool :=
  match h_type e with
  | TMutation | TDeepMutation => true
  | _ => false
  end.

Definition admitted_numbers (l : list HistoryEntry) : list Z :=
  h_mutation <$> filter (fun e => is_admitted e = true) l.

(** What an operation other than [reset] and an edit of the log does to
    the numbering: the admitted entries it appends carry the next numbers,
    one for each unit the counter went up. *)
Record numbered_step (w w' : World) : Prop := {
  ns_options : options (this w') = options (this w);
  ns_count : (mutationCount (this w) <= mutationCount (this w'))%Z;
  ns_numbers :
    trackHistory (options (this w)) = true ->
    admitted_numbers (history (this w')) =
    admitted_numbers (history (this w)) ++
    seqZ (mutationCount (this w) + 1)
         (mutationCount (this w') - mutationCount (this w))
}.

(** Top-level operations that only ever assign values that are not
    containers. *)
Definition plain (op : HostOp) : bool :=
  match op with
  | Write (DVal v) => is_primitive v
  | Write _ => false
  | SetProp _ _ _ | DeleteProp _ _ | CallMethod _ _ _ => false
  | _ => true
  end.

(** A [MutationLimitExceeded] whose context reports the limit and the count
    of the world. *)
Definition reports_counts (e : JsError) (w : World) : Prop :=
  exists msg ctx,
    e = MutationLimitExceeded msg ctx /\
    c_maxMutations ctx = maxMutations (this w) /\
    c_currentMutations ctx = mutationCount (this w).

(** What an error thrown by a write says about the variable it leaves. *)
Definition says (e : JsError) (w : World) : Prop :=
  reports_counts e w /\
  strictMode (options (this w)) = true /\ violated (this w) = true.

(** The flag [violated] is up only on a variable that turns writes down. *)
Definition coherent (w : World) : Prop :=
  violated (this w) = true ->
  frozen (this w) = true \/ (maxMutations (this w) <= mutationCount (this w))%Z.

(** A strict variable after a violation: reads throw, and so do writes. *)
Definition locked (w : World) : Prop :=
  strictMode (options (this w)) = true /\
  violated (this w) = true /\
  (frozen (this w) = true \/ (maxMutations (this w) <= mutationCount (this w))%Z).

(** Operations that go through the variable: reads, assignments to
    [value], and edits of what [value] returns. *)
Definition through_guard (op : HostOp) : bool :=
  match op with
  | Read | Write _ => true
  | SetProp (ViaValue _) _ _ | DeleteProp (ViaValue _) _
  | CallMethod (ViaValue _) _ _ => true
  | _ => false
  end.

(** ** The shallow-only class

    The second [LimitedVariable] of the repository: the same class without
    the deep tracking.  It has no [#deepProxies] and no [#mutationPath]; on
    the state of the deep class these two fields are left alone. *)
Module Shallow.

(** [constructor(initialValue, maxMutations, options)], the body. *)
Definition constructor_body (initialValue : Val) : Js unit :=
  update (set_value_field initialValue) ;;
  t <- getThis ;;
  now <- Date_now ;;
  when (trackHistory (options t))
    (history_push {| h_value := initialValue; h_previousValue := None;
                     h_timestamp := now; h_mutation := 0;
                     h_mutationPath := None; h_mutationType := None;
                     h_type := TInitial |}).

Definition construct (h : Heap) (now : Z) (initialValue : Val)
    (maxMutations : Z) (o : Options) : Completion unit * World :=
  constructor_body initialValue (blank maxMutations o h now).

(** [set value(newValue)] *)
Definition set_value (newValue : Val) : Js unit :=
  t <- getThis ;;
  let o := options t in
  if frozen t then
    update (set_violated true) ;;
    let message := message_or o "Variable is frozen. No more mutations allowed." in
    let error := MutationLimitExceeded message
      {| c_maxMutations := maxMutations t;
         c_currentMutations := mutationCount t;
         c_attemptedValue := Some newValue;
         c_currentValue := Some (value t);
         c_frozen := Some true;
         c_mutationPath := None;
         c_mutationType := None;
         c_history := None |} in
    fire_onViolation error ;;
    if strictMode o then throw error else ret tt
  else if bool_decide (maxMutations t <= mutationCount t)%Z then
    update (set_violated true) ;;
    update (fun t => set_violationCount (violationCount t + 1) t) ;;
    t <- getThis ;;
    now <- Date_now ;;
    let violationAttempt :=
      {| a_attemptNumber := violationCount t;
         a_attemptedValue := newValue;
         a_currentValue := value t;
         a_mutationCount := mutationCount t;
         a_violationCount := violationCount t;
         a_timestamp := now;
         a_totalAttempts := mutationCount t + violationCount t;
         a_mutationPath := None;
         a_mutationType := None |} in
    when (onLimitExceeded o) (invoke (OnLimitExceeded violationAttempt)) ;;
    if strictMode o then
      let message := message_or o
        ("Mutation limit exceeded. Maximum " +:+ pretty (maxMutations t)
         +:+ " mutation(s) allowed, attempted mutation #"
         +:+ pretty (mutationCount t + violationCount t)%Z) in
      let error := MutationLimitExceeded message
        {| c_maxMutations := maxMutations t;
           c_currentMutations := mutationCount t;
           c_attemptedValue := Some newValue;
           c_currentValue := Some (value t);
           c_frozen := None;
           c_mutationPath := None;
           c_mutationType := None;
           c_history := if trackHistory o then Some TheLog else None |} in
      fire_onViolation error ;;
      throw error
    else
      let oldValue := value t in
      update (set_value_field newValue) ;;
      now <- Date_now ;;
      when (trackHistory o)
        (history_push {| h_value := newValue; h_previousValue := Some oldValue;
                         h_timestamp := now; h_mutation := mutationCount t;
                         h_mutationPath := None; h_mutationType := None;
                         h_type := TViolation |})
  else
    let oldValue := value t in
    update (set_value_field newValue) ;;
    update (fun t => set_mutationCount (mutationCount t + 1) t) ;;
    t <- getThis ;;
    now <- Date_now ;;
    when (trackHistory o)
      (history_push {| h_value := newValue; h_previousValue := Some oldValue;
                       h_timestamp := now; h_mutation := mutationCount t;
                       h_mutationPath := None; h_mutationType := None;
                       h_type := TMutation |}) ;;
    when (onMutate o)
      (invoke (OnMutate {| e_newValue := newValue; e_oldValue := oldValue;
                           e_mutationCount := mutationCount t;
                           e_remaining := remaining t;
                           e_mutationPath := None;
                           e_mutationType := None |})) ;;
    if bool_decide (mutationCount t = maxMutations t) then
      when (onLastMutation o)
        (invoke (OnLastMutation {| l_value := newValue;
                                   l_mutationPath := None;
                                   l_mutationType := None;
                                   l_history := if trackHistory o then Some TheLog
                                                else None |})) ;;
      when (autoFreeze o) (update (set_frozen true))
    else ret tt.

(** [reset()] *)
Definition reset : Js unit :=
  t <- getThis ;;
  if negb (allowReset (options t)) then
    throw (Error "Reset is disabled. Enable it with { allowReset: true } in options.")
  else
    update (set_mutationCount 0) ;;
    update (set_violationCount 0) ;;
    update (set_frozen false) ;;
    update (set_violated false) ;;
    update (set_onViolationCalled false) ;;
    t <- getThis ;;
    now <- Date_now ;;
    when (trackHistory (options t))
      (history_push {| h_value := value t; h_previousValue := None;
                       h_timestamp := now; h_mutation := 0;
                       h_mutationPath := None; h_mutationType := None;
                       h_type := TReset |}).

(** The top-level operations of the host on the shallow class; its
    getters, [freeze] and [toJSON] are the code of the deep class word for
    word. *)
Definition host_step (op : HostOp) : Js unit :=
  match op with
  | Read => discard get_value
  | Write d => v <- eval_data d ;; set_value v
  | Freeze => freeze
  | Reset => reset
  | GetHistory => discard get_history
  | EditHistory r f => host_edit_array r f
  | _ => abort
  end.

Fixpoint run (ops : list HostOp) (w : World) : list (Completion unit) * World :=
  match ops with
  | [] => ([], w)
  | op :: rest =>
      let '(c, w1) := host_step op w in
      let '(cs, w2) := run rest w1 in
      (c :: cs, w2)
  end.

End Shallow.

(** Option sets used in the concrete runs below. *)

(** The defaults with every callback supplied. *)
Definition observed : Options := {|
  trackHistory := true; strictMode := true; allowReset := false;
  autoFreeze := true; trackDeepMutations := true; onMutate := true;
  onViolation := true; onLastMutation := true; onLimitExceeded := true;
  errorMessage := None |}.

(** [{ strictMode: false }] with every callback supplied. *)
Definition non_strict : Options := {|
  trackHistory := true; strictMode := false; allowReset := false;
  autoFreeze := true; trackDeepMutations := true; onMutate := true;
  onViolation := true; onLastMutation := true; onLimitExceeded := true;
  errorMessage := None |}.

(** [{ allowReset: true, trackHistory: false }] *)
Definition resettable_untracked : Options := {|
  trackHistory := false; strictMode := true; allowReset := true;
  autoFreeze := true; trackDeepMutations := true; onMutate := false;
  onViolation := false; onLastMutation := false; onLimitExceeded := false;
  errorMessage := None |}.

(** [{ allowReset: true }] with every callback supplied. *)
Definition resettable : Options := {|
  trackHistory := true; strictMode := true; allowReset := true;
  autoFreeze := true; trackDeepMutations := true; onMutate := true;
  onViolation := true; onLastMutation := true; onLimitExceeded := true;
  errorMessage := None |}.

(** * Properties *)

(** ** Relations every step of a method preserves *)

Section Preservation.
Context (R : World -> World -> Prop) `{!PreOrder R}.

Lemma Pres_ret {A} (a : A) : Pres R (ret a).
Proof. intros w. reflexivity. Qed.

Lemma Pres_throw {A} e : Pres R (@throw A e).
Proof. intros w. reflexivity. Qed.

Lemma Pres_abort {A} : Pres R (@abort A).
Proof. intros w. reflexivity. Qed.

Lemma Pres_bind {A B} (m : Js A) (f : A -> Js B) :
  Pres R m -> (forall a, Pres R (f a)) -> Pres R (bind m f).
Proof.
  intros Hm Hf w. unfold bind. specialize (Hm w).
  destruct (m w) as [[a|e|] w1]; simpl in *; trivial.
  etransitivity; [exact Hm | apply Hf].
Qed.

Lemma Pres_getThis : Pres R getThis.
Proof. intros w. reflexivity. Qed.

Lemma Pres_getHeap : Pres R getHeap.
Proof. intros w. reflexivity. Qed.

Lemma Pres_Date_now : Pres R Date_now.
Proof. intros w. reflexivity. Qed.

Lemma Pres_load l : Pres R (load l).
Proof. intros w. unfold load. destruct (heap w !! l); reflexivity. Qed.

Lemma Pres_when b m : Pres R m -> Pres R (when b m).
Proof. intros Hm. destruct b; simpl; [exact Hm | apply Pres_ret]. Qed.

Lemma Pres_foldM {A S} (f : A -> S -> Js S) l :
  (forall a s, Pres R (f a s)) -> forall s, Pres R (foldM f l s).
Proof.
  intros Hf. induction l as [|a l IH]; intros s; simpl.
  - apply Pres_ret.
  - apply Pres_bind; [apply Hf | intros s'; apply IH].
Qed.

Lemma Pres_forM_ {A} (l : list A) (f : A -> Js unit) :
  (forall a, Pres R (f a)) -> Pres R (forM_ l f).
Proof. intros Hf. apply Pres_foldM. intros a _. apply Hf. Qed.

Lemma Pres_discard {A} (m : Js A) : Pres R m -> Pres R (discard m).
Proof. intros Hm. apply Pres_bind; [exact Hm | intros; apply Pres_ret]. Qed.

Lemma Pres_get_value : Pres R get_value.
Proof.
  intros w. unfold get_value, bind, getThis. simpl.
  destruct (strictMode _ && violated _); reflexivity.
Qed.

(** *** Steps that only touch the heap or the wrapper bookkeeping *)
Hypothesis R_heap : forall w h, R w (with_heap h w).
Hypothesis R_deepProxies :
  forall w m, R w (with_this (set_deepProxies m (this w)) w).

Lemma Pres_alloc o : Pres R (alloc o).
Proof. intros w. apply R_heap. Qed.

Lemma Pres_store l o : Pres R (store l o).
Proof. intros w. apply R_heap. Qed.

Lemma Pres_eval_data d : Pres R (eval_data d).
Proof.
  intros w. unfold eval_data.
  destruct (alloc_data d (heap w)) as [v h]. apply R_heap.
Qed.

Lemma Pres_eval_args ds : Pres R (eval_args ds).
Proof.
  apply Pres_foldM. intros d acc.
  apply Pres_bind; [apply Pres_eval_data | intros; apply Pres_ret].
Qed.

Lemma Pres_locate tg : Pres R (locate tg).
Proof.
  destruct tg as [l|nav]; simpl; [apply Pres_ret|].
  apply Pres_bind; [apply Pres_get_value | intros v].
  apply Pres_bind; [apply Pres_getHeap | intros h].
  destruct (navigate h v nav); first [apply Pres_ret | apply Pres_abort].
Qed.

(** *** The interception layer *)
Hypothesis R_handleDeepMutation :
  forall path nv ov ty, Pres R (handleDeepMutation path nv ov ty).

Section OpenTraps.
Variable rs : loc -> Key -> Val -> Js unit.
Variable rd : loc -> Key -> Js unit.
Variable cdp : loc -> Path -> Js loc.
Hypothesis H_rs : forall l k v, Pres R (rs l k v).
Hypothesis H_rd : forall l k, Pres R (rd l k).
Hypothesis H_cdp : forall l p, Pres R (cdp l p).

Lemma Pres_wrap_value v p : Pres R (wrap_value cdp v p).
Proof.
  unfold wrap_value. apply Pres_bind; [apply Pres_getHeap | intros h].
  destruct (isObjectOrArray h v); [|apply Pres_ret].
  destruct v; try apply Pres_ret.
  apply Pres_bind; [apply H_cdp | intros; apply Pres_ret].
Qed.

Lemma Pres_objectProxy_set target path prop v :
  Pres R (objectProxy_set rs cdp target path prop v).
Proof.
  unfold objectProxy_set.
  apply Pres_bind; [apply Pres_getHeap | intros h].
  apply Pres_bind; [apply R_handleDeepMutation | intros _].
  apply Pres_bind; [apply Pres_wrap_value | intros v'; apply H_rs].
Qed.

Lemma Pres_objectProxy_deleteProperty target path prop :
  Pres R (objectProxy_deleteProperty rd target path prop).
Proof.
  unfold objectProxy_deleteProperty.
  apply Pres_bind; [apply Pres_getHeap | intros h].
  apply Pres_bind; [apply R_handleDeepMutation | intros _; apply H_rd].
Qed.

Lemma Pres_arrayProxy_set target path prop v :
  Pres R (arrayProxy_set rs cdp target path prop v).
Proof.
  unfold arrayProxy_set.
  destruct (negb _ && is_index_like prop); [|apply H_rs].
  apply Pres_bind; [apply Pres_getHeap | intros h].
  apply Pres_bind; [apply R_handleDeepMutation | intros _].
  apply Pres_bind; [apply Pres_wrap_value | intros v'; apply H_rs].
Qed.

Lemma Pres_rewrapArrayElements arr path :
  Pres R (rewrapArrayElements rs cdp arr path).
Proof.
  unfold rewrapArrayElements.
  apply Pres_bind; [apply Pres_getHeap | intros h].
  destruct (js_get h arr (KName "length")); try apply Pres_ret.
  apply Pres_forM_. intros i.
  apply Pres_bind; [apply Pres_getHeap | intros h'].
  apply Pres_bind; [apply Pres_getThis | intros t].
  destruct (js_get h' arr (KIdx i)); try apply Pres_ret.
  destruct (isObjectOrArray _ _ && negb _); [|apply Pres_ret].
  apply Pres_bind; [apply H_cdp | intros p; apply H_rs].
Qed.
End OpenTraps.

Lemma Pres_layer fuel :
  (forall l k v, Pres R (Reflect_set fuel l k v)) /\
  (forall obj path, Pres R (createDeepProxy fuel obj path)) /\
  (forall target path ps, Pres R (createProxy fuel target path ps)).
Proof.
  induction fuel as [|n (IHs & IHd & IHp)].
  - repeat split; intros; apply Pres_abort.
  - repeat split.
    + intros l k v. simpl.
      apply Pres_bind; [apply Pres_load | intros o].
      destruct o as [props|elems|sk|[] target path].
      * destruct (set_own _ k v); [apply Pres_store | apply Pres_abort].
      * destruct (set_own _ k v); [apply Pres_store | apply Pres_abort].
      * destruct (set_own _ k v); [apply Pres_store | apply Pres_abort].
      * apply Pres_objectProxy_set; assumption.
      * apply Pres_arrayProxy_set; assumption.
    + intros obj path. simpl.
      apply Pres_bind; [apply Pres_getThis | intros t].
      destruct (deepProxies t !! obj); [apply Pres_ret|].
      apply Pres_bind; [apply IHp | intros r].
      apply Pres_bind; [|intros; apply Pres_ret].
      intros w. apply R_deepProxies.
    + intros target path ps. simpl.
      destruct (bool_decide (target ∈ ps)); [apply Pres_ret|].
      assert (Hvisit : forall k s, Pres R
        (h <- getHeap ;; t <- getThis ;;
         match js_get h target k with
         | VRef c =>
             if isObjectOrArray h (VRef c) && negb (has (deepProxies t) c) then
               r <- createProxy n c (path ++ [key_string k]) s ;;
               Reflect_set n target k (VRef r.1) ;; ret r.2
             else ret s
         | _ => ret s
         end)).
      { intros k s.
        apply Pres_bind; [apply Pres_getHeap | intros h].
        apply Pres_bind; [apply Pres_getThis | intros t].
        destruct (js_get h target k); try apply Pres_ret.
        destruct (isObjectOrArray _ _ && negb _); [|apply Pres_ret].
        apply Pres_bind; [apply IHp | intros r].
        apply Pres_bind; [apply IHs | intros; apply Pres_ret]. }
      apply Pres_bind; [apply Pres_getHeap | intros h].
      destruct (Array_isArray h target).
      * destruct (js_get h target (KName "length")); try apply Pres_abort.
        apply Pres_bind; [apply Pres_foldM; exact Hvisit | intros s].
        apply Pres_bind; [apply Pres_alloc | intros; apply Pres_ret].
      * match goal with |- Pres R (if ?b then _ else _) => destruct b end;
          [|apply Pres_ret].
        apply Pres_bind; [apply Pres_foldM; exact Hvisit | intros s].
        apply Pres_bind; [apply Pres_alloc | intros; apply Pres_ret].
Qed.

Lemma Pres_Reflect_set fuel l k v : Pres R (Reflect_set fuel l k v).
Proof. apply Pres_layer. Qed.

Lemma Pres_createDeepProxy fuel obj path : Pres R (createDeepProxy fuel obj path).
Proof. apply Pres_layer. Qed.

Lemma Pres_Reflect_deleteProperty fuel l k : Pres R (Reflect_deleteProperty fuel l k).
Proof.
  revert l k. induction fuel as [|n IH]; intros l k; simpl; [apply Pres_abort|].
  apply Pres_bind; [apply Pres_load | intros o].
  destruct o as [props|elems|sk|[] target path].
  - destruct (delete_own _ k); [apply Pres_store | apply Pres_abort].
  - destruct (delete_own _ k); [apply Pres_store | apply Pres_abort].
  - destruct (delete_own _ k); [apply Pres_store | apply Pres_abort].
  - apply Pres_objectProxy_deleteProperty. intros; apply IH.
  - apply IH.
Qed.

Lemma Pres_call_method `{ArrayBuiltins} fuel l m args :
  Pres R (call_method fuel l m args).
Proof.
  revert l. induction fuel as [|n IH]; intros l; simpl; [apply Pres_abort|].
  apply Pres_bind; [apply Pres_load | intros o].
  destruct o as [props|elems|sk|[] target path]; try apply Pres_abort.
  - destruct (Array_prototype m args elems) as [elems' result].
    apply Pres_bind; [apply Pres_store | intros _].
    destruct result; try apply Pres_ret.
    apply Pres_bind; [apply Pres_alloc | intros; apply Pres_ret].
  - apply Pres_bind; [apply Pres_alloc | intros a].
    apply Pres_bind; [apply R_handleDeepMutation | intros _].
    apply Pres_bind; [apply IH | intros result].
    apply Pres_bind; [|intros; apply Pres_ret].
    apply Pres_rewrapArrayElements;
      [apply Pres_Reflect_set | apply Pres_createDeepProxy].
Qed.

(** Every deep write attempt of the host, given the same for the
    top-level assignment. *)
Hypothesis R_set_value : forall fuel v, Pres R (set_value fuel v).

Lemma Pres_write `{ArrayBuiltins} fuel op :
  is_write op = true -> Pres R (host_step fuel op).
Proof.
  destruct op; simpl; try discriminate; intros _.
  - apply Pres_bind; [apply Pres_eval_data | intros v; apply R_set_value].
  - apply Pres_bind; [apply Pres_locate | intros l].
    apply Pres_bind; [apply Pres_eval_data | intros v; apply Pres_Reflect_set].
  - apply Pres_bind; [apply Pres_locate | intros l].
    apply Pres_Reflect_deleteProperty.
  - apply Pres_bind; [apply Pres_locate | intros l].
    apply Pres_bind; [apply Pres_eval_args | intros vs].
    apply Pres_discard, Pres_call_method.
Qed.
End Preservation.

(** ** Symbolic execution of the guard's straight-line code *)

Ltac run_js :=
  unfold handleDeepMutation, set_value, get_value, reset, freeze, get_history,
    toJSON, host_edit_array, fire_onViolation, history_push, when, discard, bind,
    update, getThis, getHeap, invoke, Date_now, throw, ret, with_this, with_calls,
    with_heap, with_copies;
  simpl.

Ltac case_step :=
  match goal with
  | |- context [if ?b then _ else _] => is_var b; destruct b
  | |- context [?a && _] => is_var a; destruct a
  | |- context [negb ?a] => is_var a; destruct a
  | |- context [if ?b then _ else _] => destruct b eqn:?
  end; simpl.

Ltac leaf :=
  unfold last_fired_ok, armed, limit_reached, count_calls in *; simpl in *;
  rewrite ?filter_app, ?length_app; simpl;
  repeat case_bool_decide; simpl in *; try done; try lia; try (intuition lia).

#[global] Instance account_step_preorder : PreOrder account_step.
Proof.
  split.
  - intros w. split; auto; lia.
  - intros w1 w2 w3 [m1 o1 c1 v1 a1 l1] [m2 o2 c2 v2 a2 l2].
    split; try congruence; try lia.
    intros H0 H. apply l2; [lia | auto].
Qed.

#[global] Instance frozen_frame_preorder : PreOrder frozen_frame.
Proof.
  split.
  - intros w Hf. auto.
  - intros w1 w2 w3 H12 H23 Hf.
    destruct (H12 Hf) as (Hf2 & ? & ? & ? & ?).
    destruct (H23 Hf2) as (Hf3 & ? & ? & ? & ?).
    repeat split; congruence.
Qed.

Lemma account_heap w h : account_step w (with_heap h w).
Proof. split; simpl; auto; lia. Qed.

Lemma account_deepProxies w m :
  account_step w (with_this (set_deepProxies m (this w)) w).
Proof. split; simpl; auto; lia. Qed.

Lemma account_handleDeepMutation path nv ov ty :
  Pres account_step (handleDeepMutation path nv ov ty).
Proof.
  intros [[v mx mc vc hist o fr vi ovc dp mp] hp cp cs ck].
  destruct o as [th sm ar af td om ov' ol ox em].
  run_js. repeat case_step; split; leaf.
Qed.

Lemma frozen_heap w h : frozen_frame w (with_heap h w).
Proof. intros Hf. simpl. auto. Qed.

Lemma frozen_deepProxies w m :
  frozen_frame w (with_this (set_deepProxies m (this w)) w).
Proof. intros Hf. simpl. auto. Qed.

Lemma frozen_handleDeepMutation path nv ov ty :
  Pres frozen_frame (handleDeepMutation path nv ov ty).
Proof.
  intros [[v mx mc vc hist o fr vi ovc dp mp] hp cp cs ck].
  destruct o as [th sm ar af td om ov' ol ox em].
  intros Hf. simpl in Hf. subst fr.
  run_js. repeat case_step; repeat split; leaf.
Qed.

Lemma account_set_value fuel v : Pres account_step (set_value fuel v).
Proof.
  intros w.
  pose proof (Pres_createDeepProxy account_step account_heap account_deepProxies
                account_handleDeepMutation fuel) as Hc.
  destruct w as [[v0 mx mc vc hist o fr vi ovc dp mp] hp cp cs ck].
  destruct o as [th sm ar af td om ov' ol ox em].
  run_js.
  destruct fr; simpl; [repeat case_step; split; leaf|].
  case_bool_decide; simpl; [repeat case_step; split; leaf|].
  match goal with |- context [td && isObjectOrArray ?h v] =>
    destruct (td && isObjectOrArray h v) eqn:Hb end; simpl;
    [|solve [repeat case_step; split; leaf]].
  destruct v; try (rewrite andb_false_r in Hb; discriminate Hb). simpl.
  match goal with |- context [createDeepProxy fuel l [] ?w0] =>
    specialize (Hc l [] w0); destruct (createDeepProxy fuel l [] w0) as [[p|e|] w1] end;
    simpl in *; try exact Hc.
  destruct w1 as [[v1 mx1 mc1 vc1 hist1 o1 fr1 vi1 ovc1 dp1 mp1] hp1 cp1 cs1 ck1].
  destruct Hc as [Hm Ho Hcnt Hv Ha Hl]; simpl in *. subst mx1 o1.
  repeat case_step; split; leaf.
Qed.

Lemma frozen_set_value fuel v : Pres frozen_frame (set_value fuel v).
Proof.
  intros [[v0 mx mc vc hist o fr vi ovc dp mp] hp cp cs ck].
  destruct o as [th sm ar af td om ov' ol ox em].
  intros Hf. simpl in Hf. subst fr.
  run_js. repeat case_step; repeat split; leaf.
Qed.

Lemma account_constructor_body fuel v : Pres account_step (constructor_body fuel v).
Proof.
  intros w.
  pose proof (Pres_createDeepProxy account_step account_heap account_deepProxies
                account_handleDeepMutation fuel) as Hc.
  destruct w as [[v0 mx mc vc hist o fr vi ovc dp mp] hp cp cs ck].
  destruct o as [th sm ar af td om ov' ol ox em].
  unfold constructor_body. run_js.
  match goal with |- context [td && isObjectOrArray ?h v] =>
    destruct (td && isObjectOrArray h v) eqn:Hb end; simpl;
    [|solve [repeat case_step; split; leaf]].
  destruct v; try (rewrite andb_false_r in Hb; discriminate Hb). simpl.
  match goal with |- context [createDeepProxy fuel l [] ?w0] =>
    specialize (Hc l [] w0); destruct (createDeepProxy fuel l [] w0) as [[p|e|] w1] end;
    simpl in *; try exact Hc.
  destruct w1 as [[v1 mx1 mc1 vc1 hist1 o1 fr1 vi1 ovc1 dp1 mp1] hp1 cp1 cs1 ck1].
  destruct Hc as [Hm Ho Hcnt Hv Ha Hl]; simpl in *. subst mx1 o1.
  repeat case_step; split; leaf.
Qed.

Lemma account_host_step `{ArrayBuiltins} fuel op :
  is_reset op = false -> Pres account_step (host_step fuel op).
Proof.
  intros Hr. destruct (is_write op) eqn:Hw.
  - apply Pres_write; auto using account_heap, account_deepProxies,
      account_handleDeepMutation, account_set_value. apply _.
  - destruct op; try discriminate; simpl.
    + apply Pres_discard; [apply _ | apply Pres_get_value; apply _].
    + intros w. split; simpl; auto; lia.
    + intros [[v0 mx mc vc hist o fr vi ovc dp mp] hp cp cs ck].
      destruct o as [th sm ar af td om ov' ol ox em].
      run_js. repeat case_step; split; leaf.
    + intros [[v0 mx mc vc hist o fr vi ovc dp mp] hp cp cs ck].
      destruct o as [th sm ar af td om ov' ol ox em].
      run_js. destruct r; simpl; [split; leaf|].
      destruct (cp !! n); simpl; split; leaf.
Qed.

Lemma frozen_host_step `{ArrayBuiltins} fuel op :
  is_write op = true -> Pres frozen_frame (host_step fuel op).
Proof.
  intros Hw.
  apply Pres_write; auto using frozen_heap, frozen_deepProxies,
    frozen_handleDeepMutation, frozen_set_value. apply _.
Qed.

(** ** The repository's own tests, replayed on the model *)

(** [inventory.push() should count against mutation limit] *)
Example test_push_counts_against_limit :
  let r := @run reference_builtins 9
    [CallMethod (ViaValue []) Push [DVal (VStr "shield")];
     CallMethod (ViaValue []) Push [DVal (VStr "potion")]]
    (fresh 9 (DArray [DVal (VStr "sword")]) 1 default_options) in
  map is_Normal r.1 = [true; false] /\
  mutationCount (this r.2) = 1%Z /\ remaining (this r.2) = 0%Z.
Proof. vm_compute. repeat split. Qed.

(** [Multiple array methods should each count as mutations] *)
Example test_array_methods_each_count :
  let via := ViaValue [] in
  let r := @run reference_builtins 9
    [CallMethod via Push [DVal (VStr "shield")]; CallMethod via Push [DVal (VStr "potion")];
     CallMethod via Pop []; CallMethod via Unshift [DVal (VStr "bow")];
     CallMethod via Splice [DVal (VNum 1); DVal (VNum 1)]]
    (fresh 9 (DArray [DVal (VStr "sword")]) 5 default_options) in
  map is_Normal r.1 = [true; true; true; true; true] /\
  mutationCount (this r.2) = 5%Z /\
  navigate (heap r.2) (value (this r.2)) [KIdx 0] = VStr "bow" /\
  navigate (heap r.2) (value (this r.2)) [KIdx 1] = VStr "shield" /\
  navigate (heap r.2) (value (this r.2)) [KName "length"] = VNum 2.
Proof. vm_compute. repeat split. Qed.

(** [Nested object modifications should count as mutations] and
    [Error messages should include mutation path] *)
Example test_nested_paths :
  let game := DObject
    [(KName "player", DObject [(KName "name", DVal (VStr "Hero"));
                               (KName "stats", DObject [(KName "hp", DVal (VNum 100))])]);
     (KName "world", DObject [(KName "level", DVal (VNum 1));
                              (KName "enemies", DArray [DVal (VStr "goblin")])])] in
  let r := @run reference_builtins 9
    [SetProp (ViaValue [KName "player"]) (KName "name") (DVal (VStr "Super Hero"));
     SetProp (ViaValue [KName "player"; KName "stats"]) (KName "hp") (DVal (VNum 200));
     CallMethod (ViaValue [KName "world"; KName "enemies"]) Push [DVal (VStr "orc")];
     SetProp (ViaValue [KName "world"]) (KName "level") (DVal (VNum 2))]
    (fresh 9 game 5 default_options) in
  mutationCount (this r.2) = 4%Z /\
  map h_mutationPath (drop 1 (history (this r.2))) =
    [Some "player.name"; Some "player.stats.hp"; Some "world.enemies.push()";
     Some "world.level"].
Proof. vm_compute. repeat split. Qed.

(** [Deleting object properties should count as mutations] *)
Example test_delete_counts :
  let r := @run reference_builtins 9 [DeleteProp (ViaValue []) (KName "temp")]
    (fresh 9 (DObject [(KName "name", DVal (VStr "Hero")); (KName "temp", DVal (VStr "x"))])
       2 default_options) in
  mutationCount (this r.2) = 1%Z /\
  own_keys (heap r.2) 0 = [KName "name"] /\
  map h_mutationType (drop 1 (history (this r.2))) = [Some MDelete].
Proof. vm_compute. repeat split. Qed.

(** [trackDeepMutations: false should restore old behavior] *)
Example test_opt_out :
  let o := {| trackHistory := true; strictMode := true; allowReset := false;
              autoFreeze := true; trackDeepMutations := false; onMutate := false;
              onViolation := false; onLastMutation := false; onLimitExceeded := false;
              errorMessage := None |} in
  let r := @run reference_builtins 9
    [CallMethod (ViaValue []) Push [DVal (VStr "shield")];
     SetProp (ViaValue []) (KIdx 0) (DVal (VStr "magic sword"));
     Write (DArray [DVal (VStr "new")])]
    (fresh 9 (DArray [DVal (VStr "sword")]) 3 o) in
  map is_Normal r.1 = [true; true; true] /\ mutationCount (this r.2) = 1%Z.
Proof. vm_compute. repeat split. Qed.

(** [Circular references should be handled safely]: [obj1.ref = obj2],
    [obj2.ref = obj1], wrapped as [{data: obj1}]. *)
Example test_circular_references :
  let h := [OObject [(KName "name", VStr "obj1"); (KName "ref", VRef 1)];
            OObject [(KName "name", VStr "obj2"); (KName "ref", VRef 0)];
            OObject [(KName "data", VRef 0)]] in
  let w0 := (construct 9 h 0 (VRef 2) 3 default_options).2 in
  let r := @run reference_builtins 9
    [SetProp (ViaValue [KName "data"]) (KName "name") (DVal (VStr "modified"));
     SetProp (ViaValue [KName "data"; KName "ref"]) (KName "name") (DVal (VStr "modified2"))]
    w0 in
  map is_Normal r.1 = [true; true] /\ mutationCount (this r.2) = 2%Z.
Proof. vm_compute. repeat split. Qed.

(** [Should support zero mutations], [Should allow violations in non-strict
    mode] and [Should track total attempts in violation callback] *)
Example test_shallow_violations :
  let r0 := @run reference_builtins 0 [Read; Write (DVal (VStr "change")); Read]
    (fresh 0 (DVal (VStr "constant")) 0 default_options) in
  let r1 := @run reference_builtins 0
    [Write (DVal (VStr "first")); Write (DVal (VStr "second")); Write (DVal (VStr "third"))]
    (fresh 0 (DVal (VStr "start")) 2 non_strict) in
  map is_Normal r0.1 = [true; false; false] /\
  map is_Normal r1.1 = [true; true; true] /\
  value (this r1.2) = VStr "third" /\
  mutationCount (this r1.2) = 2%Z /\ violationCount (this r1.2) = 1%Z /\
  map a_totalAttempts
    (omap (fun c => match c with OnLimitExceeded a => Some a | _ => None end) (calls r1.2))
    = [3%Z].
Proof. vm_compute. repeat split. Qed.

(** ** Reading *)

(** C5: the read operation throws [MutationLimitExceeded] exactly when
    [strictMode] is on and a violation has been recorded; in every other case
    it returns the stored value; in all cases the state is left as it was. *)
Theorem C5_read_throws_iff_strict_and_violated (w : World) :
  (get_value w).2 = w /\
  (get_value w).1 =
    if strictMode (options (this w)) && violated (this w) then
      Throw (MutationLimitExceeded
        "Cannot read value after mutation limit violation in strict mode"
        {| c_maxMutations := maxMutations (this w);
           c_currentMutations := mutationCount (this w);
           c_attemptedValue := None; c_currentValue := None;
           c_frozen := Some (frozen (this w));
           c_mutationPath := None; c_mutationType := None; c_history := None |})
    else Normal (value (this w)).
Proof.
  unfold get_value, bind, getThis, throw, ret. simpl.
  destruct (strictMode (options (this w)) && violated (this w)); auto.
Qed.

(** ** The history accessor *)

(** C10: with history tracking on, a read of [history] returns a reference
    to a new array holding the entries of the log; whatever edit [f] the host
    then makes to that array, the instance (its log included) is unchanged,
    a later read of [history] yields the log's entries again, and [toJSON]
    reports the same snapshot. *)
Theorem C10_history_read_is_a_fresh_copy (w : World)
    (f : list HistoryEntry -> list HistoryEntry) :
  trackHistory (options (this w)) = true ->
  exists n w1 w2,
    get_history w = (Normal (Copy n), w1) /\
    copies w !! n = None /\
    this w1 = this w /\
    deref w1 (Copy n) = Some (history (this w)) /\
    host_edit_array (Copy n) f w1 = (Normal tt, w2) /\
    this w2 = this w /\
    deref w2 TheLog = Some (history (this w)) /\
    deref w2 (Copy n) = Some (f (history (this w))) /\
    (exists n' w3, get_history w2 = (Normal (Copy n'), w3) /\ n' <> n /\
                   deref w3 (Copy n') = Some (history (this w))) /\
    (toJSON w2).1 = (toJSON w).1.
Proof.
  intros Ht.
  exists (length (copies w)), (with_copies (copies w ++ [history (this w)]) w),
    (with_copies (<[length (copies w) := f (history (this w))]>
                    (copies w ++ [history (this w)])) w).
  assert (Hl : (copies w ++ [history (this w)]) !! length (copies w)
               = Some (history (this w))).
  { rewrite lookup_app_r by lia. by rewrite Nat.sub_diag. }
  repeat split.
  - unfold get_history, bind, getThis. simpl. by rewrite Ht.
  - apply lookup_ge_None. lia.
  - exact Hl.
  - unfold host_edit_array. simpl. by rewrite Hl.
  - simpl. apply list_lookup_insert_eq. rewrite length_app. simpl. lia.
  - eexists _, _. repeat split.
    + unfold get_history, bind, getThis. simpl. rewrite Ht. simpl. reflexivity.
    + rewrite length_insert, length_app. simpl. lia.
    + simpl. rewrite lookup_app_r by lia. by rewrite Nat.sub_diag.
Qed.

(** The snapshot of [toJSON], by contrast, carries the log itself: an edit
    through that reference does change the log. *)
Lemma toJSON_history_is_the_log (w : World) (f : list HistoryEntry -> list HistoryEntry) :
  trackHistory (options (this w)) = true ->
  (exists j, (toJSON w).1 = Normal j /\ j_history j = Some TheLog) /\
  history (this (host_edit_array TheLog f w).2) = f (history (this w)).
Proof.
  intros Ht. split; [|reflexivity].
  eexists. split; [reflexivity|]. simpl. by rewrite Ht.
Qed.

(** ** Runs of host operations *)

Lemma blank_construct fuel h now v n o :
  account_step (blank n o h now) (construct fuel h now v n o).2.
Proof. apply account_constructor_body. Qed.

Lemma reset_effect (w : World) :
  let w' := (reset w).2 in
  maxMutations (this w') = maxMutations (this w) /\
  options (this w') = options (this w) /\
  calls w' = calls w /\
  (0 <= violationCount (this w) -> 0 <= violationCount (this w'))%Z /\
  armed w' <= armed w + (if allowReset (options (this w)) then 1 else 0).
Proof.
  destruct w as [[v0 mx mc vc hist o fr vi ovc dp mp] hp cp cs ck].
  destruct o as [th sm ar af td om ov' ol ox em].
  run_js. repeat case_step; repeat split; leaf.
Qed.

Section Runs.
Context `{ArrayBuiltins}.

Lemma run_cons fuel op ops w :
  run fuel (op :: ops) w =
  ((host_step fuel op w).1 :: (run fuel ops (host_step fuel op w).2).1,
   (run fuel ops (host_step fuel op w).2).2).
Proof.
  simpl. destruct (host_step fuel op w) as [c w1]. simpl.
  destruct (run fuel ops w1) as [cs w2]. reflexivity.
Qed.

Lemma run_account fuel ops w :
  Forall (fun op => is_reset op = false) ops ->
  account_step w (run fuel ops w).2.
Proof.
  intros Hops. revert w. induction Hops as [|op ops Hop _ IH]; intros w.
  - reflexivity.
  - rewrite run_cons. simpl. etransitivity; [|apply IH].
    apply account_host_step, Hop.
Qed.

Lemma run_violationCount_nonneg fuel ops w :
  (0 <= violationCount (this w))%Z ->
  (0 <= violationCount (this (run fuel ops w).2))%Z.
Proof.
  revert w. induction ops as [|op ops IH]; intros w Hw; [exact Hw|].
  rewrite run_cons. simpl. apply IH.
  destruct (is_reset op) eqn:Hr.
  - destruct op; try discriminate. simpl. by apply reset_effect.
  - pose proof (as_viol _ _ (account_host_step fuel op Hr w)). lia.
Qed.

Lemma run_armed fuel ops w :
  options (this (run fuel ops w).2) = options (this w) /\
  count_calls is_OnViolation (run fuel ops w).2 + armed (run fuel ops w).2
  <= count_calls is_OnViolation w + armed w + resets_done (options (this w)) ops.
Proof.
  revert w. induction ops as [|op ops IH]; intros w.
  - simpl. split; [reflexivity | lia].
  - rewrite run_cons. simpl.
    destruct (IH (host_step fuel op w).2) as [IHo IHa].
    destruct (is_reset op) eqn:Hr.
    + destruct op; try discriminate. simpl in *.
      destruct (reset_effect w) as (_ & Ho & Hc & _ & Ha).
      simpl in Ho, Hc, Ha. rewrite Ho in IHo, IHa.
      split; [exact IHo|].
      revert IHa. unfold resets_done, count_calls. rewrite Hc.
      rewrite filter_cons_True by done. simpl.
      destruct (allowReset (options (this w))); lia.
    + pose proof (account_host_step fuel op Hr w) as [_ Ho _ _ Ha _].
      rewrite Ho in IHo, IHa. split; [exact IHo|].
      revert IHa. unfold resets_done.
      rewrite filter_cons_False by (rewrite Hr; done).
      destruct (allowReset (options (this w))); lia.
Qed.
End Runs.

(** ** The violation counter *)

(** C3 (as stated) fails: a strict-mode variable with limit 0 rejects the
    first write by throwing, and [violationCount] has gone from 0 to 1. *)
Lemma C3_strict_rejection_counts_a_violation :
  let w0 := fresh 5 (DVal (VStr "x")) 0 default_options in
  let r := @host_step reference_builtins 5 (Write (DVal (VStr "y"))) w0 in
  strictMode (options (this w0)) = true /\
  is_Normal r.1 = false /\
  violationCount (this w0) = 0%Z /\
  violationCount (this r.2) = 1%Z /\
  ~ (violationCount (this r.2) = violationCount (this w0)).
Proof. vm_compute. repeat split; congruence. Qed.

(** C3 (amended): [violationCount] is never negative; a run of the
    admission policy (by the [value] setter or by [#handleDeepMutation]) that
    finds the variable not frozen and the limit exhausted adds exactly one to
    it, in strict mode as in non-strict mode; one that rejects because the
    variable is frozen leaves it alone, and so does one that admits the
    attempt: an admitted deep attempt leaves the counter as it was, and so
    does an admitted assignment of a value that is not wrapped (a value that
    is not a container, or any value when [trackDeepMutations] is off).  When
    the new value is wrapped, the setter adds nothing of its own either: the
    counter ends where the call of [#createDeepProxy] left it.  [reset] sets
    it to zero. *)
Theorem C3_violationCount_counts_limit_exceeded_attempts `{ArrayBuiltins}
    (fuel0 fuel : nat) (h : Heap) (now : Z) (v0 : Val) (n : Z) (o : Options)
    (ops : list HostOp)
    (path : Path) (nv ov : Val) (ty : MutationType) (v : Val) (w : World) :
  (0 <= violationCount
          (this (run fuel ops (construct fuel0 h now v0 n o).2).2))%Z /\
  violationCount (this (handleDeepMutation path nv ov ty w).2) =
    (violationCount (this w) +
     if negb (frozen (this w)) &&
        bool_decide (maxMutations (this w) <= mutationCount (this w))%Z
     then 1 else 0)%Z /\
  (if frozen (this w) then
     violationCount (this (set_value fuel v w).2) = violationCount (this w)
   else if bool_decide (maxMutations (this w) <= mutationCount (this w))%Z then
     violationCount (this (set_value fuel v w).2) = (violationCount (this w) + 1)%Z
   else
     violationCount (this (set_value fuel v w).2) =
     if trackDeepMutations (options (this w)) && isObjectOrArray (heap w) v then
       match v with
       | VRef l => violationCount (this (createDeepProxy fuel l [] w).2)
       | _ => violationCount (this w)
       end
     else violationCount (this w)) /\
  violationCount (this (reset w).2) =
    if allowReset (options (this w)) then 0%Z else violationCount (this w).
Proof.
  repeat split.
  - apply run_violationCount_nonneg.
    pose proof (as_viol _ _ (blank_construct fuel0 h now v0 n o)) as Hv.
    simpl in Hv. exact Hv.
  - destruct w as [[v1 mx mc vc hist o' fr vi ovc dp mp] hp cp cs ck].
    destruct o' as [th sm ar af td om ov' ol ox em].
    run_js. repeat case_step; leaf.
  - destruct w as [[v1 mx mc vc hist o' fr vi ovc dp mp] hp cp cs ck].
    destruct o' as [th sm ar af td om ov' ol ox em].
    simpl. destruct fr; [|case_bool_decide as Hlim].
    + run_js. repeat case_step; leaf.
    + run_js. rewrite bool_decide_true by exact Hlim. simpl.
      repeat case_step; leaf.
    + run_js. rewrite bool_decide_false by exact Hlim. simpl.
      destruct (td && isObjectOrArray hp v) eqn:Hb; simpl;
        [|solve [repeat case_step; leaf]].
      destruct v; try (rewrite andb_false_r in Hb; discriminate Hb). simpl.
      match goal with |- context [createDeepProxy fuel l [] ?w0] =>
        destruct (createDeepProxy fuel l [] w0) as [[p|e|] w1] end;
        simpl; try reflexivity.
      destruct w1 as [[v2 mx2 mc2 vc2 hist2 o2 fr2 vi2 ovc2 dp2 mp2] hp2 cp2 cs2 ck2].
      simpl. repeat case_step; reflexivity.
  - destruct w as [[v1 mx mc vc hist o' fr vi ovc dp mp] hp cp cs ck].
    destruct o' as [th sm ar af td om ov' ol ox em].
    run_js. repeat case_step; leaf.
Qed.

(** ** Callback cardinality *)

Lemma frozen_set_value_fires fuel v w :
  frozen (this w) = true ->
  count_calls is_OnViolation (set_value fuel v w).2 =
    count_calls is_OnViolation w +
    (if onViolation (options (this w)) && negb (onViolationCalled (this w))
     then 1 else 0).
Proof.
  intros Hf.
  destruct w as [[v0 mx mc vc hist o fr vi ovc dp mp] hp cp cs ck].
  destruct o as [th sm ar af td om ov' ol ox em].
  simpl in Hf. subst fr. run_js. repeat case_step; leaf.
Qed.

(** C6: over any run of host operations on a newly constructed variable,
    [onViolation] is invoked at most once plus once per [reset] that went
    through (so at most once when none did), whatever the mix of frozen and
    limit-exceeded rejections, shallow and deep.  A [reset] that goes through
    re-arms it: resetting, freezing and then writing invokes it once more if
    it is supplied, even if it had been invoked before. *)
Theorem C6_onViolation_at_most_once_until_reset `{ArrayBuiltins}
    (fuel0 fuel : nat) (h : Heap) (now : Z) (v0 : Val) (n : Z) (o : Options)
    (ops : list HostOp) (w : World) (v : Val) :
  count_calls is_OnViolation (run fuel ops (construct fuel0 h now v0 n o).2).2
    <= 1 + resets_done o ops /\
  count_calls is_OnViolation (set_value fuel v (freeze (reset w).2).2).2 =
    count_calls is_OnViolation w +
    (if onViolation (options (this w)) &&
        (allowReset (options (this w)) || negb (onViolationCalled (this w)))
     then 1 else 0).
Proof.
  split.
  - destruct (run_armed fuel ops (construct fuel0 h now v0 n o).2) as [_ Hrun].
    pose proof (blank_construct fuel0 h now v0 n o) as [_ Ho _ _ Ha _].
    simpl in Ho. rewrite Ho in Hrun.
    assert (Hr : resets_done (couple o) ops = resets_done o ops).
    { unfold resets_done, couple. by destruct (strictMode o). }
    rewrite Hr in Hrun. unfold count_calls at 2 in Ha. unfold armed at 2 in Ha.
    simpl in Ha. lia.
  - set (w2 := (freeze (reset w).2).2).
    assert (Hw2 : frozen (this w2) = true /\
                  options (this w2) = options (this w) /\
                  count_calls is_OnViolation w2 = count_calls is_OnViolation w /\
                  onViolationCalled (this w2) =
                    negb (allowReset (options (this w))) && onViolationCalled (this w)).
    { subst w2.
      destruct w as [[v1 mx mc vc hist o' fr vi ovc dp mp] hp cp cs ck].
      destruct o' as [th sm ar af td om ov' ol ox em].
      unfold freeze. run_js. repeat case_step; repeat split. }
    destruct Hw2 as (Hf & Ho & Hc & Hcalled).
    rewrite (frozen_set_value_fires fuel v w2 Hf), Ho, Hc, Hcalled.
    do 2 f_equal.
    destruct (allowReset (options (this w))), (onViolationCalled (this w)); reflexivity.
Qed.

(** C7 (as stated) fails for a limit of 0: [mutationCount] equals
    [maxMutations] from construction on, yet no run without [reset] ever
    invokes [onLastMutation]; here a read and two write attempts. *)
Lemma C7_limit_zero_never_fires :
  let w0 := fresh 5 (DVal (VStr "x")) 0 observed in
  let w1 := (@run reference_builtins 5
               [Read; Write (DVal (VStr "y")); Write (DVal (VStr "z"))] w0).2 in
  onLastMutation (options (this w0)) = true /\
  mutationCount (this w0) = maxMutations (this w0) /\
  mutationCount (this w1) = maxMutations (this w1) /\
  count_calls is_OnLastMutation w1 = 0 /\
  ~ (count_calls is_OnLastMutation w1 = 1).
Proof. vm_compute. repeat split; congruence. Qed.

(** C7 (amended): take any run without [reset] on a newly constructed
    variable, stopped at some point ([w1]) and then continued ([w2]).  The
    count never goes down, and at either point [onLastMutation] has been
    invoked exactly once if it is supplied, the limit is at least 1 and
    [mutationCount] has reached [maxMutations], and not at all otherwise.
    So with a limit of at least 1 the one invocation happens in the step
    whose admitted write, shallow or deep, brings the count up to the limit;
    with a limit of 0 the callback is never invoked. *)
Theorem C7_onLastMutation_once_on_reaching_limit `{ArrayBuiltins}
    (fuel0 fuel : nat) (h : Heap) (now : Z) (v0 : Val) (n : Z) (o : Options)
    (ops1 ops2 : list HostOp) :
  Forall (fun op => is_reset op = false) ops1 ->
  Forall (fun op => is_reset op = false) ops2 ->
  let w0 := (construct fuel0 h now v0 n o).2 in
  let w1 := (run fuel ops1 w0).2 in
  let w2 := (run fuel ops2 w1).2 in
  let expected w :=
    if onLastMutation o && bool_decide (1 <= n)%Z &&
       bool_decide (n <= mutationCount (this w))%Z
    then 1 else 0 in
  (mutationCount (this w1) <= mutationCount (this w2))%Z /\
  count_calls is_OnLastMutation w1 = expected w1 /\
  count_calls is_OnLastMutation w2 = expected w2.
Proof.
  intros Hops1 Hops2 w0 w1 w2 expected.
  pose proof (blank_construct fuel0 h now v0 n o) as S0.
  pose proof (run_account fuel ops1 w0 Hops1) as S1.
  pose proof (run_account fuel ops2 w1 Hops2) as S2.
  fold w0 in S0. fold w1 in S1. fold w2 in S2.
  assert (Hol : onLastMutation (couple o) = onLastMutation o).
  { unfold couple. by destruct (strictMode o). }
  assert (Hexp : forall w, account_step (blank n o h now) w ->
            count_calls is_OnLastMutation w = expected w).
  { intros w [Hm Ho _ _ _ Hl].
    unfold last_fired_ok, limit_reached, blank in Hm, Ho, Hl. simpl in Hm, Ho, Hl.
    rewrite Hl.
    - unfold expected. by rewrite Ho, Hm, Hol, andb_assoc.
    - lia.
    - unfold count_calls. simpl.
      destruct (onLastMutation (couple o)); simpl; [|reflexivity].
      repeat case_bool_decide; simpl; try reflexivity; lia. }
  split; [exact (as_count _ _ S2)|]. split; apply Hexp.
  - by etransitivity.
  - etransitivity; [exact S0|]. by etransitivity.
Qed.

(** A run in which the hypotheses of C7 hold and the limit is reached by a
    deep write. *)
Lemma C7_witness :
  let ops1 := [Read] in
  let ops2 := [SetProp (ViaValue []) (KName "x") (DVal (VNum 2)); Read] in
  let w0 := (construct 9 [OObject [(KName "x", VNum 1)]] 0 (VRef 0) 1 observed).2 in
  let w1 := (@run reference_builtins 9 ops1 w0).2 in
  let w2 := (@run reference_builtins 9 ops2 w1).2 in
  Forall (fun op => is_reset op = false) ops1 /\
  Forall (fun op => is_reset op = false) ops2 /\
  count_calls is_OnLastMutation w1 = 0 /\
  count_calls is_OnLastMutation w2 = 1.
Proof.
  intros ops1 ops2 w0 w1 w2.
  assert (H1 : Forall (fun op => is_reset op = false) ops1) by (repeat constructor).
  assert (H2 : Forall (fun op => is_reset op = false) ops2) by (repeat constructor).
  split; [exact H1|]. split; [exact H2|].
  destruct (@C7_onLastMutation_once_on_reaching_limit reference_builtins 9 9
              [OObject [(KName "x", VNum 1)]] 0%Z (VRef 0) 1%Z observed ops1 ops2 H1 H2)
    as (_ & E1 & E2).
  split; [exact E1 | exact E2].
Defined.

(** ** Exact depletion at the admission policy *)

Lemma isObjectOrArray_primitive h v :
  is_primitive v = true -> isObjectOrArray h v = false.
Proof. by destruct v. Qed.

(** In an empty heap every reference dangles. *)
Lemma isObjectOrArray_nil v : isObjectOrArray [] v = false.
Proof. by destruct v. Qed.

Lemma check_step_effect c w : check_ok c = true -> check_effect w (check_step c w).
Proof.
  intros Hok.
  destruct w as [[v0 mx mc vc hist o fr vi ovc dp mp] hp cp cs ck].
  destruct o as [th sm ar af td om ov' ol ox em].
  unfold check_effect, rejects.
  destruct c as [v|path nv ov ty]; simpl in Hok |- *.
  - run_js.
    destruct fr; simpl; [destruct vi; repeat case_step; repeat split; leaf|].
    case_bool_decide; simpl; [destruct vi; repeat case_step; repeat split; leaf|].
    cbn [heap]. rewrite (isObjectOrArray_primitive hp v Hok), andb_false_r. simpl.
    destruct vi; repeat case_step; repeat split; leaf.
  - run_js. destruct vi; repeat case_step; repeat split; leaf.
Qed.

Lemma check_step_depletes c k w :
  check_ok c = true ->
  depleted_to k w ->
  depleted_to (k + 1) (check_step c w).2 /\
  maxMutations (this (check_step c w).2) = maxMutations (this w) /\
  options (this (check_step c w).2) = options (this w) /\
  is_Normal (check_step c w).1 =
    bool_decide (k < maxMutations (this w))%Z || negb (strictMode (options (this w))).
Proof.
  intros Hok (Hc & Hv & Hf).
  destruct (check_step_effect c w Hok) as (Ec & Ev & Ef & Em & Eo & En).
  unfold depleted_to, rejects in *.
  rewrite Ec, Ev, Ef, Em, Eo, En, Hc, Hv. clear Ec Ev Ef Em Eo En.
  destruct (frozen (this w)).
  - specialize (Hf eq_refl). simpl.
    repeat case_bool_decide; repeat split; simpl; try done; lia.
  - clear Hf. simpl.
    destruct (autoFreeze (options (this w))); simpl;
      repeat case_bool_decide; repeat split; simpl; try done; lia.
Qed.

(** Any mix of top-level and deep runs of the policy on a new variable
    with limit [n >= 0]: the count after [k] runs is [min k n], the flag
    [violated] is up from run [n + 1] on, and run number [i + 1] returns
    normally when [i < n] or the mode is not strict, and throws otherwise.
    The interception layer departs from this only by running the policy
    more than once for one write of the host (C1, C4). *)
Lemma admission_policy_depletes_exactly cs : forall k w,
  Forall (fun c => check_ok c = true) cs ->
  depleted_to k w ->
  let r := run_checks cs w in
  depleted_to (k + Z.of_nat (length cs)) r.2 /\
  forall i out, r.1 !! i = Some out ->
    is_Normal out =
      bool_decide (k + Z.of_nat i < maxMutations (this w))%Z ||
      negb (strictMode (options (this w))).
Proof.
  induction cs as [|c cs IH]; intros k w Hok Hd.
  - simpl. rewrite Z.add_0_r. split; [exact Hd | intros i out Hi; discriminate].
  - inversion Hok as [|? ? Hc Hcs]; subst.
    destruct (check_step_depletes c k w Hc Hd) as (Hd1 & Hm & Ho & Hn).
    specialize (IH (k + 1)%Z (check_step c w).2 Hcs Hd1).
    cbn [run_checks]. destruct (check_step c w) as [out1 w1]. simpl in *.
    destruct (run_checks cs w1) as [outs w2]. simpl in *.
    destruct IH as [IHd IHo]. split.
    + replace (k + Z.of_nat (S (length cs)))%Z
        with (k + 1 + Z.of_nat (length cs))%Z by lia. exact IHd.
    + intros [|i] out Hi; simpl in Hi.
      * injection Hi as <-. rewrite Z.add_0_r. exact Hn.
      * rewrite (IHo i out Hi), Hm, Ho.
        replace (k + Z.of_nat (S i))%Z with (k + 1 + Z.of_nat i)%Z by lia.
        reflexivity.
Qed.

(** ** Reset *)

Lemma prim_write_step `{ArrayBuiltins} fuel v w :
  is_primitive v = true ->
  frozen (this w) = false ->
  (mutationCount (this w) < maxMutations (this w))%Z ->
  let r := host_step fuel (Write (DVal v)) w in
  r.1 = Normal tt /\
  mutationCount (this r.2) = (mutationCount (this w) + 1)%Z /\
  violationCount (this r.2) = violationCount (this w) /\
  maxMutations (this r.2) = maxMutations (this w) /\
  frozen (this r.2) =
    autoFreeze (options (this w)) &&
    bool_decide (mutationCount (this w) + 1 = maxMutations (this w))%Z.
Proof.
  intros Hv Hf Hlt.
  destruct w as [[v0 mx mc vc hist o fr vi ovc dp mp] hp cp cs ck].
  destruct o as [th sm ar af td om ov' ol ox em].
  simpl in Hf, Hlt. subst fr.
  unfold host_step, eval_data. run_js.
  rewrite bool_decide_false by lia. cbn [heap].
  rewrite (isObjectOrArray_primitive hp v Hv), andb_false_r. simpl.
  repeat case_step; repeat split; leaf.
Qed.

Lemma prim_writes_admitted `{ArrayBuiltins} fuel vs : forall w,
  Forall (fun v => is_primitive v = true) vs ->
  frozen (this w) = false ->
  (mutationCount (this w) + Z.of_nat (length vs) <= maxMutations (this w))%Z ->
  let r := run fuel (map (fun v => Write (DVal v)) vs) w in
  r.1 = replicate (length vs) (Normal tt) /\
  mutationCount (this r.2) = (mutationCount (this w) + Z.of_nat (length vs))%Z /\
  violationCount (this r.2) = violationCount (this w).
Proof.
  induction vs as [|v vs IH]; intros w Hp Hf Hle.
  - simpl. repeat split; lia.
  - inversion Hp as [|? ? Hv Hp']; subst.
    simpl length in *.
    destruct (prim_write_step fuel v w Hv Hf ltac:(lia)) as (Hr & Hc & Hvc & Hm & Hfr).
    cbn [map]. rewrite run_cons. cbn [fst snd].
    destruct vs as [|v' vs'].
    + cbn [map run length replicate fst snd].
      rewrite Hr, Hc, Hvc. repeat split; lia.
    + destruct (IH (host_step fuel (Write (DVal v)) w).2 Hp') as (IH1 & IH2 & IH3).
      * rewrite Hfr. rewrite bool_decide_false; [apply andb_false_r|].
        simpl length in Hle. lia.
      * rewrite Hc, Hm. simpl length in *. lia.
      * rewrite Hr, IH1, IH2, IH3, Hc, Hvc. repeat split. lia.
Qed.

(** C8 (as stated) fails when history tracking is off: [reset] goes
    through and appends nothing to the log. *)
Lemma C8_reset_without_history_appends_nothing :
  let w0 := fresh 5 (DVal (VNum 0)) 2 resettable_untracked in
  (reset w0).1 = Normal tt /\
  history (this (reset w0).2) = history (this w0) /\
  ~ (exists e, history (this (reset w0).2) = history (this w0) ++ [e]).
Proof.
  vm_compute. repeat split. intros [e He]. discriminate He.
Qed.

(** C8 (amended): [reset] throws the configuration error and changes
    nothing when [allowReset] is off.  When it is on, [reset] zeroes
    [mutationCount] and [violationCount], clears [frozen], [violated] and the
    one-shot [onViolation] flag, leaves the stored value and the heap alone
    and, if history tracking is on, appends one [reset] record carrying the
    current value; afterwards a sequence of [maxMutations] top-level writes
    of non-container values is admitted in full, as it is on a newly
    constructed instance with the same limit and options. *)
Theorem C8_reset_restores_the_allowance `{ArrayBuiltins}
    (w : World) (fuel : nat) (vs : list Val) (v0 : Val) :
  Forall (fun v => is_primitive v = true) vs ->
  Z.of_nat (length vs) = maxMutations (this w) ->
  if allowReset (options (this w)) then
    let w' := (reset w).2 in
    let writes := map (fun v => Write (DVal v)) vs in
    let r := run fuel writes w' in
    let r0 := run fuel writes (fresh 0 (DVal v0) (maxMutations (this w))
                                 (options (this w))) in
    (reset w).1 = Normal tt /\
    mutationCount (this w') = 0%Z /\
    violationCount (this w') = 0%Z /\
    frozen (this w') = false /\
    violated (this w') = false /\
    onViolationCalled (this w') = false /\
    value (this w') = value (this w) /\
    heap w' = heap w /\
    maxMutations (this w') = maxMutations (this w) /\
    options (this w') = options (this w) /\
    history (this w') =
      history (this w) ++
      (if trackHistory (options (this w)) then
         [{| h_value := value (this w); h_previousValue := None;
             h_timestamp := clock w; h_mutation := 0;
             h_mutationPath := None; h_mutationType := None;
             h_type := TReset |}]
       else []) /\
    r.1 = replicate (length vs) (Normal tt) /\
    mutationCount (this r.2) = maxMutations (this w) /\
    violationCount (this r.2) = 0%Z /\
    r0.1 = r.1 /\
    mutationCount (this r0.2) = mutationCount (this r.2) /\
    violationCount (this r0.2) = violationCount (this r.2)
  else
    reset w =
      (Throw (Error "Reset is disabled. Enable it with { allowReset: true } in options."),
       w).
Proof.
  intros Hp Hlen.
  destruct (allowReset (options (this w))) eqn:Har.
  - assert (Hreset : (reset w).1 = Normal tt /\
      mutationCount (this (reset w).2) = 0%Z /\
      violationCount (this (reset w).2) = 0%Z /\
      frozen (this (reset w).2) = false /\
      violated (this (reset w).2) = false /\
      onViolationCalled (this (reset w).2) = false /\
      value (this (reset w).2) = value (this w) /\
      heap (reset w).2 = heap w /\
      maxMutations (this (reset w).2) = maxMutations (this w) /\
      options (this (reset w).2) = options (this w) /\
      history (this (reset w).2) =
        history (this w) ++
        (if trackHistory (options (this w)) then
           [{| h_value := value (this w); h_previousValue := None;
               h_timestamp := clock w; h_mutation := 0;
               h_mutationPath := None; h_mutationType := None;
               h_type := TReset |}]
         else [])).
    { destruct w as [[v1 mx mc vc hist o fr vi ovc dp mp] hp cp cs ck].
      destruct o as [th sm ar af td om ov' ol ox em].
      simpl in Har. subst ar. run_js.
      destruct th; simpl; repeat split; by rewrite ?app_nil_r. }
    destruct Hreset as (R1 & R2 & R3 & R4 & R5 & R6 & R7 & R8 & R9 & R10 & R11).
    destruct (prim_writes_admitted fuel vs (reset w).2 Hp R4) as (A1 & A2 & A3);
      [rewrite R2, R9; lia|].
    assert (Hfresh :
      let f := fresh 0 (DVal v0) (maxMutations (this w)) (options (this w)) in
      frozen (this f) = false /\ mutationCount (this f) = 0%Z /\
      violationCount (this f) = 0%Z /\ maxMutations (this f) = maxMutations (this w)).
    { unfold fresh, limitedLet, construct, constructor_body, blank. run_js.
      cbn [heap]. rewrite isObjectOrArray_nil, andb_false_r. simpl.
      repeat case_step; repeat split. }
    destruct Hfresh as (F1 & F2 & F3 & F4).
    destruct (prim_writes_admitted fuel vs
                (fresh 0 (DVal v0) (maxMutations (this w)) (options (this w))) Hp F1)
      as (B1 & B2 & B3); [rewrite F2, F4; lia|].
    cbv zeta. rewrite A1, A2, A3, B1, B2, B3, R2, R3, F2, F3.
    repeat split; try assumption; lia.
  - unfold reset, bind, getThis, throw. simpl. by rewrite Har.
Qed.

(** The hypotheses of C8 at a variable that has used up its limit of two
    and frozen itself. *)
Lemma C8_witness :
  let w := (@run reference_builtins 5
              [Write (DVal (VNum 1)); Write (DVal (VNum 2)); Write (DVal (VNum 3))]
              (fresh 5 (DVal (VNum 0)) 2 resettable)).2 in
  let vs := [VStr "a"; VStr "b"] in
  Forall (fun v => is_primitive v = true) vs /\
  Z.of_nat (length vs) = maxMutations (this w) /\
  frozen (this w) = true /\
  if allowReset (options (this w)) then
    mutationCount (this (reset w).2) = 0%Z /\
    frozen (this (reset w).2) = false /\
    (@run reference_builtins 5 (map (fun v => Write (DVal v)) vs) (reset w).2).1
      = replicate (length vs) (Normal tt)
  else False.
Proof.
  intros w vs.
  assert (Hp : Forall (fun v => is_primitive v = true) vs) by (repeat constructor).
  assert (Hlen : Z.of_nat (length vs) = maxMutations (this w)) by (vm_compute; reflexivity).
  split; [exact Hp|]. split; [exact Hlen|]. split; [vm_compute; reflexivity|].
  pose proof (@C8_reset_restores_the_allowance reference_builtins w 5 vs VNull Hp Hlen)
    as Hthm.
  assert (Har : allowReset (options (this w)) = true) by (vm_compute; reflexivity).
  rewrite Har in Hthm |- *.
  destruct Hthm as (_ & H2 & _ & H4 & _ & _ & _ & _ & _ & _ & _ & H12 & _).
  repeat split; assumption.
Defined.

(** ** Writes on a frozen variable *)

(** C9 (as stated) fails: a deep write rejected on a frozen variable does
    change state other than the two flags, namely the recorded
    [#mutationPath] (here in strict mode, where the write throws). *)
Lemma C9_deep_rejection_overwrites_mutationPath :
  let w0 := (freeze (fresh 9 (DObject [(KName "x", DVal (VNum 1))]) 5 default_options)).2 in
  let r := @host_step reference_builtins 9
             (SetProp (ViaValue []) (KName "x") (DVal (VNum 2))) w0 in
  frozen (this w0) = true /\
  is_Normal r.1 = false /\
  mutationPath (this w0) = [] /\
  mutationPath (this r.2) = ["x"] /\
  ~ (exists bv bo, this r.2 = set_onViolationCalled bo (set_violated bv (this w0))).
Proof.
  vm_compute. repeat split. intros (bv & bo & Heq). discriminate Heq.
Qed.

(** C9 (amended): a write attempted while [frozen] is true, shallow or
    deep, strict or not, leaves [mutationCount], [violationCount] and the
    history log unchanged, never invokes [onLimitExceeded] and leaves the
    variable frozen.  A rejected top-level assignment changes nothing but
    the [violated] flag and the one-shot [onViolation] flag; the admission
    check of a deep attempt changes these two and the recorded
    [#mutationPath]; neither invokes a callback other than [onViolation];
    both throw exactly in strict mode. *)
Theorem C9_frozen_write_frame `{ArrayBuiltins}
    (fuel : nat) (op : HostOp) (w : World)
    (path : Path) (nv ov v : Val) (ty : MutationType) :
  frozen (this w) = true ->
  is_write op = true ->
  let t' := set_onViolationCalled
              (onViolationCalled (this w) || onViolation (options (this w)))
              (set_violated true (this w)) in
  let others c := negb (is_OnViolation c) in
  let a := host_step fuel op w in
  let s := set_value fuel v w in
  let h := handleDeepMutation path nv ov ty w in
  (frozen (this a.2) = true /\
   mutationCount (this a.2) = mutationCount (this w) /\
   violationCount (this a.2) = violationCount (this w) /\
   history (this a.2) = history (this w) /\
   count_calls is_OnLimitExceeded a.2 = count_calls is_OnLimitExceeded w) /\
  (this s.2 = t' /\ heap s.2 = heap w /\ copies s.2 = copies w /\
   count_calls others s.2 = count_calls others w /\
   is_Normal s.1 = negb (strictMode (options (this w)))) /\
  (this h.2 = set_mutationPath path t' /\ heap h.2 = heap w /\ copies h.2 = copies w /\
   count_calls others h.2 = count_calls others w /\
   is_Normal h.1 = negb (strictMode (options (this w)))).
Proof.
  intros Hf Hw. cbv zeta. split; [|split].
  - exact (frozen_host_step fuel op Hw w Hf).
  - destruct w as [[v0 mx mc vc hist o fr vi ovc dp mp] hp cp cs ck].
    destruct o as [th sm ar af td om ov' ol ox em].
    simpl in Hf. subst fr. destruct ovc; run_js;
      repeat case_step; repeat split; leaf.
  - destruct w as [[v0 mx mc vc hist o fr vi ovc dp mp] hp cp cs ck].
    destruct o as [th sm ar af td om ov' ol ox em].
    simpl in Hf. subst fr. destruct ovc; run_js;
      repeat case_step; repeat split; leaf.
Qed.

(** The hypotheses of C9 at a variable frozen by hand, for a deep write. *)
Lemma C9_witness :
  let w := (freeze (fresh 9 (DObject [(KName "x", DVal (VNum 1))]) 5 non_strict)).2 in
  let op := SetProp (ViaValue []) (KName "x") (DVal (VNum 2)) in
  let a := @host_step reference_builtins 9 op w in
  frozen (this w) = true /\
  is_write op = true /\
  mutationCount (this a.2) = mutationCount (this w) /\
  violationCount (this a.2) = violationCount (this w) /\
  history (this a.2) = history (this w).
Proof.
  intros w op a.
  assert (Hf : frozen (this w) = true) by reflexivity.
  assert (Hw : is_write op = true) by reflexivity.
  destruct (@C9_frozen_write_frame reference_builtins 9 op w [] VNull VNull VNull
              MProperty Hf Hw) as ((_ & H1 & H2 & H3 & _) & _).
  repeat split; assumption.
Defined.

(** The hypothesis of C10 on a newly constructed variable; the host empties
    the array it was given. *)
Lemma C10_witness :
  let w := fresh 5 (DVal (VNum 0)) 2 default_options in
  let f := fun _ : list HistoryEntry => [] in
  trackHistory (options (this w)) = true /\
  exists n w1 w2,
    get_history w = (Normal (Copy n), w1) /\
    host_edit_array (Copy n) f w1 = (Normal tt, w2) /\
    this w2 = this w /\
    deref w2 (Copy n) = Some [].
Proof.
  intros w f.
  assert (Ht : trackHistory (options (this w)) = true) by reflexivity.
  split; [exact Ht|].
  destruct (C10_history_read_is_a_fresh_copy w f Ht)
    as (n & w1 & w2 & H1 & _ & _ & _ & H5 & H6 & _ & H8 & _).
  exists n, w1, w2. repeat split; assumption.
Defined.

(** ** Where the code leaves the specification *)

(** C1 fails on the code.  A variable with limit 2 holds [{a: {b: {c: 1}}}];
    the host assigns [{a: old.a}] (as [{...v.value}] does).  Wrapping the new
    value walks into the proxy already stored under [a], whose nested
    container is re-wrapped by an assignment through that proxy's own [set]
    trap, so the single write is counted twice: the limit is used up and the
    second write attempt is already rejected. *)
Theorem C1_one_write_uses_up_a_limit_of_two :
  let w0 := fresh 20
    (DObject [(KName "a", DObject [(KName "b", DObject [(KName "c", DVal (VNum 1))])])])
    2 default_options in
  let a := navigate (heap w0) (value (this w0)) [KName "a"] in
  let first := Write (DObject [(KName "a", DVal a)]) in
  let r := @run reference_builtins 20 [first; Write (DVal (VNum 5))] w0 in
  maxMutations (this w0) = 2%Z /\
  mutationCount (this w0) = 0%Z /\
  mutationCount (this (@host_step reference_builtins 20 first w0).2) = 2%Z /\
  map is_Normal r.1 = [true; false] /\
  map h_mutationPath (drop 1 (history (this r.2))) = [Some "a.b"; None].
Proof. vm_compute. repeat split. Qed.

(** C4 fails on the code.  The variable holds [[{tags: ['x']}]]; one call of
    [push] is routed through the admission check twice: once as the
    array-method attempt, and once more when [#rewrapArrayElements] re-wraps
    the element that was already proxied and thereby assigns through its
    [set] trap. *)
Theorem C4_one_push_is_two_attempts :
  let w0 := fresh 20
    (DArray [DObject [(KName "tags", DArray [DVal (VStr "x")])]]) 5 default_options in
  let r := @host_step reference_builtins 20
             (CallMethod (ViaValue []) Push [DVal (VNum 1)]) w0 in
  mutationCount (this w0) = 0%Z /\
  r.1 = Normal tt /\
  mutationCount (this r.2) = 2%Z /\
  map (fun e => (h_mutationPath e, h_mutationType e)) (drop 1 (history (this r.2))) =
    [(Some "push()", Some MArrayMethod); (Some "0.tags", Some MProperty)].
Proof. vm_compute. repeat split. Qed.

(** On an array of strings the same call is one attempt. *)
Lemma push_on_strings_is_one_attempt :
  let w0 := fresh 20 (DArray [DVal (VStr "sword")]) 5 default_options in
  let r := @host_step reference_builtins 20
             (CallMethod (ViaValue []) Push [DVal (VStr "shield"); DVal (VStr "bow")]) w0 in
  r.1 = Normal tt /\
  mutationCount (this r.2) = 1%Z /\
  navigate (heap r.2) (value (this r.2)) [KName "length"] = VNum 3.
Proof. vm_compute. repeat split. Qed.

(** C2 fails on the code.  In non-strict mode a deep write on a frozen
    variable passes the admission check without an exception, and the [set]
    trap then carries out the assignment: the stored object changes. *)
Theorem C2_frozen_deep_write_is_applied_when_not_strict :
  let w0 := fresh 9 (DObject [(KName "x", DVal (VNum 1))]) 5 non_strict in
  let r := @run reference_builtins 9
             [Freeze; SetProp (ViaValue []) (KName "x") (DVal (VNum 2))] w0 in
  navigate (heap w0) (value (this w0)) [KName "x"] = VNum 1 /\
  map is_Normal r.1 = [true; true] /\
  frozen (this r.2) = true /\
  mutationCount (this r.2) = 0%Z /\
  navigate (heap r.2) (value (this r.2)) [KName "x"] = VNum 2.
Proof. vm_compute. repeat split. Qed.

(** The other three combinations do block the write: a top-level
    assignment in either mode (see also C9), and a deep write in strict
    mode. *)
Lemma frozen_write_blocked_elsewhere :
  let strict0 := fresh 9 (DObject [(KName "x", DVal (VNum 1))]) 5 default_options in
  let loose0 := fresh 9 (DObject [(KName "x", DVal (VNum 1))]) 5 non_strict in
  let deep := SetProp (ViaValue []) (KName "x") (DVal (VNum 2)) in
  let top := Write (DVal (VNum 7)) in
  let x w := navigate (heap w) (value (this w)) [KName "x"] in
  let r1 := @run reference_builtins 9 [Freeze; deep] strict0 in
  let r2 := @run reference_builtins 9 [Freeze; top] strict0 in
  let r3 := @run reference_builtins 9 [Freeze; top] loose0 in
  (map is_Normal r1.1 = [true; false] /\ x r1.2 = VNum 1) /\
  (map is_Normal r2.1 = [true; false] /\ x r2.2 = VNum 1) /\
  (map is_Normal r3.1 = [true; true] /\ x r3.2 = VNum 1).
Proof. vm_compute. repeat split. Qed.

(** * Further properties of the code *)

(** ** The ledger: counters, callbacks and the log move together *)

Ltac ledger_leaf :=
  leaf;
  try solve [ reflexivity | assumption
            | apply prefix_app_r; first [reflexivity | assumption]
            | repeat (match goal with
                      | |- context [if ?b then _ else _] => destruct b
                      end);
              simpl in *; lia ].

#[global] Instance ledger_step_preorder : PreOrder ledger_step.
Proof.
  split.
  - intros w. split; auto; try lia; try reflexivity.
    + destruct (onMutate (options (this w))); lia.
    + destruct (onLimitExceeded (options (this w))); lia.
    + destruct (trackHistory (options (this w))), (strictMode (options (this w))); lia.
  - intros w1 w2 w3 [m1 o1 c1 v1 a1 l1 p1 n1] [m2 o2 c2 v2 a2 l2 p2 n2].
    rewrite o1 in a2, l2, n2.
    split; try congruence; try lia.
    + destruct (onMutate (options (this w1))); lia.
    + destruct (onLimitExceeded (options (this w1))); lia.
    + etransitivity; eassumption.
    + destruct (trackHistory (options (this w1))), (strictMode (options (this w1))); lia.
Qed.

Lemma ledger_heap w h : ledger_step w (with_heap h w).
Proof.
  destruct (@reflexivity _ ledger_step _ w) as [m o c v a l p n].
  split; unfold count_calls in *; simpl; assumption.
Qed.

Lemma ledger_deepProxies w m :
  ledger_step w (with_this (set_deepProxies m (this w)) w).
Proof.
  destruct (@reflexivity _ ledger_step _ w) as [m' o c v a l p n].
  split; unfold count_calls in *; simpl; assumption.
Qed.

Lemma ledger_handleDeepMutation path nv ov ty :
  Pres ledger_step (handleDeepMutation path nv ov ty).
Proof.
  intros [[v mx mc vc hist o fr vi ovc dp mp] hp cp cs ck].
  destruct o as [th sm ar af td om ov' ol ox em].
  run_js. repeat case_step; split; ledger_leaf.
Qed.

Lemma ledger_set_value fuel v : Pres ledger_step (set_value fuel v).
Proof.
  intros w.
  pose proof (Pres_createDeepProxy ledger_step ledger_heap ledger_deepProxies
                ledger_handleDeepMutation fuel) as Hc.
  destruct w as [[v0 mx mc vc hist o fr vi ovc dp mp] hp cp cs ck].
  destruct o as [th sm ar af td om ov' ol ox em].
  run_js.
  destruct fr; simpl; [repeat case_step; split; ledger_leaf|].
  case_bool_decide; simpl; [repeat case_step; split; ledger_leaf|].
  match goal with |- context [td && isObjectOrArray ?h v] =>
    destruct (td && isObjectOrArray h v) eqn:Hb end; simpl;
    [|solve [repeat case_step; split; ledger_leaf]].
  destruct v; try (rewrite andb_false_r in Hb; discriminate Hb). simpl.
  match goal with |- context [createDeepProxy fuel l [] ?w0] =>
    specialize (Hc l [] w0); destruct (createDeepProxy fuel l [] w0) as [[p|e|] w1] end;
    simpl in *; try exact Hc.
  destruct w1 as [[v1 mx1 mc1 vc1 hist1 o1 fr1 vi1 ovc1 dp1 mp1] hp1 cp1 cs1 ck1].
  destruct Hc as [Hm Ho Hcnt Hv Ha Hl Hp Hn]; simpl in *. subst mx1 o1.
  repeat case_step; split; ledger_leaf.
Qed.

Lemma ledger_host_step `{ArrayBuiltins} fuel op :
  quiet op = true -> Pres ledger_step (host_step fuel op).
Proof.
  intros Hq. destruct (is_write op) eqn:Hw.
  - apply Pres_write; auto using ledger_heap, ledger_deepProxies,
      ledger_handleDeepMutation, ledger_set_value. apply _.
  - destruct op; try discriminate; simpl.
    + apply Pres_discard; [apply _ | apply Pres_get_value; apply _].
    + intros w. destruct (@reflexivity _ ledger_step _ w) as [m o c v a l p n].
      split; unfold count_calls in *; simpl; assumption.
    + intros [[v0 mx mc vc hist o fr vi ovc dp mp] hp cp cs ck].
      destruct o as [th sm ar af td om ov' ol ox em].
      run_js. repeat case_step; split; ledger_leaf.
    + intros [[v0 mx mc vc hist o fr vi ovc dp mp] hp cp cs ck].
      destruct o as [th sm ar af td om ov' ol ox em].
      destruct r; [discriminate Hq|].
      run_js. destruct (cp !! n); simpl; split; ledger_leaf.
Qed.

Lemma ledger_run `{ArrayBuiltins} fuel ops w :
  Forall (fun op => quiet op = true) ops ->
  ledger_step w (run fuel ops w).2.
Proof.
  intros Hops. revert w. induction Hops as [|op ops Hop _ IH]; intros w.
  - reflexivity.
  - rewrite run_cons. simpl. etransitivity; [|apply IH].
    apply ledger_host_step, Hop.
Qed.

(** ** The freeze flag *)

#[global] Instance freeze_step_preorder : PreOrder freeze_step.
Proof.
  split.
  - intros w. split; auto.
  - intros w1 w2 w3 [m1 o1 u1 d1] [m2 o2 u2 d2]. split.
    + congruence.
    + congruence.
    + intros Ha Hfr. apply u2; [rewrite o1; exact Ha | apply u1; assumption].
    + intros Hd Hfr. apply d2; [apply d1; exact Hd | exact Hfr].
Qed.

Lemma freeze_heap w h : freeze_step w (with_heap h w).
Proof. split; simpl; auto. Qed.

Lemma freeze_deepProxies w m :
  freeze_step w (with_this (set_deepProxies m (this w)) w).
Proof. split; simpl; auto. Qed.

Lemma freeze_handleDeepMutation path nv ov ty :
  Pres freeze_step (handleDeepMutation path nv ov ty).
Proof.
  intros [[v mx mc vc hist o fr vi ovc dp mp] hp cp cs ck].
  destruct o as [th sm ar af td om ov' ol ox em].
  run_js. repeat case_step; split; leaf.
Qed.

Lemma freeze_set_value fuel v : Pres freeze_step (set_value fuel v).
Proof.
  intros w.
  pose proof (Pres_createDeepProxy freeze_step freeze_heap freeze_deepProxies
                freeze_handleDeepMutation fuel) as Hc.
  destruct w as [[v0 mx mc vc hist o fr vi ovc dp mp] hp cp cs ck].
  destruct o as [th sm ar af td om ov' ol ox em].
  run_js.
  destruct fr; simpl; [repeat case_step; split; leaf|].
  case_bool_decide; simpl; [repeat case_step; split; leaf|].
  match goal with |- context [td && isObjectOrArray ?h v] =>
    destruct (td && isObjectOrArray h v) eqn:Hb end; simpl;
    [|solve [repeat case_step; split; leaf]].
  destruct v; try (rewrite andb_false_r in Hb; discriminate Hb). simpl.
  match goal with |- context [createDeepProxy fuel l [] ?w0] =>
    specialize (Hc l [] w0); destruct (createDeepProxy fuel l [] w0) as [[p|e|] w1] end;
    simpl in *; try exact Hc.
  destruct w1 as [[v1 mx1 mc1 vc1 hist1 o1 fr1 vi1 ovc1 dp1 mp1] hp1 cp1 cs1 ck1].
  destruct Hc as [Hm Ho Hu Hd]; simpl in *. subst mx1 o1.
  repeat case_step; split; leaf.
Qed.

Lemma freeze_host_step `{ArrayBuiltins} fuel op :
  is_freeze op = false -> Pres freeze_step (host_step fuel op).
Proof.
  intros Hq. destruct (is_write op) eqn:Hw.
  - apply Pres_write; auto using freeze_heap, freeze_deepProxies,
      freeze_handleDeepMutation, freeze_set_value. apply _.
  - destruct op; try discriminate; simpl.
    + apply Pres_discard; [apply _ | apply Pres_get_value; apply _].
    + intros [[v0 mx mc vc hist o fr vi ovc dp mp] hp cp cs ck].
      destruct o as [th sm ar af td om ov' ol ox em].
      run_js. repeat case_step; split; leaf.
    + intros [[v0 mx mc vc hist o fr vi ovc dp mp] hp cp cs ck].
      destruct o as [th sm ar af td om ov' ol ox em].
      run_js. repeat case_step; split; leaf.
    + intros [[v0 mx mc vc hist o fr vi ovc dp mp] hp cp cs ck].
      destruct o as [th sm ar af td om ov' ol ox em].
      run_js. destruct r; simpl; [split; leaf|].
      destruct (cp !! n); simpl; split; leaf.
Qed.

Lemma freeze_run `{ArrayBuiltins} fuel ops w :
  Forall (fun op => is_freeze op = false) ops ->
  freeze_step w (run fuel ops w).2.
Proof.
  intros Hops. revert w. induction Hops as [|op ops Hop _ IH]; intros w.
  - reflexivity.
  - rewrite run_cons. simpl. etransitivity; [|apply IH].
    apply freeze_host_step, Hop.
Qed.

(** ** The instance right after construction *)

Lemma construct_facts fuel h now v n o :
  let r := construct fuel h now v n o in
  maxMutations (this r.2) = n /\
  options (this r.2) = couple o /\
  Z.of_nat (count_calls is_OnMutate r.2) =
    (if onMutate o then mutationCount (this r.2) else 0)%Z /\
  Z.of_nat (count_calls is_OnLimitExceeded r.2) =
    (if onLimitExceeded o then violationCount (this r.2) else 0)%Z /\
  (r.1 = Normal tt ->
   Z.of_nat (length (history (this r.2))) =
     (if trackHistory o then
        1 + mutationCount (this r.2) +
        (if strictMode o then 0 else violationCount (this r.2))
      else 0)%Z) /\
  (frozen (this r.2) = true -> (n <= mutationCount (this r.2))%Z) /\
  (strictMode o = false -> frozen (this r.2) = false).
Proof.
  pose proof (Pres_createDeepProxy ledger_step ledger_heap ledger_deepProxies
                ledger_handleDeepMutation fuel) as Hc.
  pose proof (Pres_createDeepProxy freeze_step freeze_heap freeze_deepProxies
                freeze_handleDeepMutation fuel) as Hf.
  destruct o as [th sm ar af td om ov' ol ox em].
  unfold construct, constructor_body, blank, couple.
  destruct sm; run_js;
  (match goal with |- context [td && isObjectOrArray ?h v] =>
     destruct (td && isObjectOrArray h v) eqn:Hb end; simpl;
     [|solve [repeat case_step; repeat split; ledger_leaf]]);
  (destruct v; try (rewrite andb_false_r in Hb; discriminate Hb); simpl);
  (match goal with |- context [createDeepProxy fuel ?l [] ?w0] =>
     specialize (Hc l [] w0); specialize (Hf l [] w0);
     destruct (createDeepProxy fuel l [] w0) as [[p|e|] w1] end; simpl in *);
  destruct w1 as [[v1 mx1 mc1 vc1 hist1 o1 fr1 vi1 ovc1 dp1 mp1] hp1 cp1 cs1 ck1];
  destruct Hc as [Hm Ho Hcnt Hv Ha Hl Hp Hn];
  destruct Hf as [_ _ Hu Hd]; simpl in *; subst mx1 o1; simpl in *;
  repeat case_step; repeat split; ledger_leaf.
Qed.

Lemma couple_callbacks o :
  onMutate (couple o) = onMutate o /\
  onLimitExceeded (couple o) = onLimitExceeded o /\
  trackHistory (couple o) = trackHistory o /\
  strictMode (couple o) = strictMode o /\
  (strictMode o = false -> autoFreeze (couple o) = false).
Proof. destruct o as [th [] ar af td om ov' ol ox em]; simpl; repeat split; congruence. Qed.

Lemma reset_prefix w : history (this w) `prefix_of` history (this (reset w).2).
Proof.
  destruct w as [[v0 mx mc vc hist o fr vi ovc dp mp] hp cp cs ck].
  destruct o as [th sm ar af td om ov' ol ox em].
  run_js. repeat case_step; ledger_leaf.
Qed.

(** ** Callbacks and counters *)

(** X1.  On a variable built by the constructor and used through any
    sequence of operations without [reset] (and without the host editing
    the log array it got from [toJSON]), [onMutate] has been called exactly
    [mutationCount] times when it is supplied: once per admitted mutation,
    top-level or deep, and never for a rejected or a merely recorded
    attempt. *)
Theorem X1_onMutate_called_once_per_counted_mutation `{ArrayBuiltins}
    (fuel fuel' : nat) (h : Heap) (now : Z) (v : Val) (n : Z) (o : Options)
    (ops : list HostOp) :
  Forall (fun op => quiet op = true) ops ->
  let w := (run fuel' ops (construct fuel h now v n o).2).2 in
  Z.of_nat (count_calls is_OnMutate w) =
    (if onMutate o then mutationCount (this w) else 0)%Z.
Proof.
  intros Hops w.
  destruct (construct_facts fuel h now v n o) as (_ & Ho & Hm & _).
  destruct (couple_callbacks o) as (Eo & _).
  destruct (ledger_run fuel' ops (construct fuel h now v n o).2 Hops)
    as [_ _ _ _ Ha _ _ _].
  fold w in Ha. simpl in Ho, Hm. rewrite Ho, Eo in Ha.
  destruct (onMutate o); lia.
Qed.

Lemma X1_witness :
  let ops := [Write (DVal (VNum 1));
              SetProp (ViaValue []) (KName "x") (DVal (VNum 2));
              Write (DVal (VNum 3))] in
  let w := (@run reference_builtins 9 ops
              (construct 9 [] 0 (VNum 0) 2 observed).2).2 in
  Forall (fun op => quiet op = true) ops /\
  Z.of_nat (count_calls is_OnMutate w) =
    (if onMutate observed then mutationCount (this w) else 0)%Z.
Proof.
  intros ops w.
  assert (Hq : Forall (fun op => quiet op = true) ops) by (repeat constructor).
  split; [exact Hq|].
  exact (@X1_onMutate_called_once_per_counted_mutation reference_builtins
           9 9 [] 0%Z (VNum 0) 2%Z observed ops Hq).
Defined.

(** X2.  Under the same conditions [onLimitExceeded] has been called
    exactly [violationCount] times when it is supplied: once for every
    attempt that found the limit used up, in strict and in non-strict mode
    alike, and never for an attempt turned down because the variable was
    frozen. *)
Theorem X2_onLimitExceeded_called_once_per_counted_violation `{ArrayBuiltins}
    (fuel fuel' : nat) (h : Heap) (now : Z) (v : Val) (n : Z) (o : Options)
    (ops : list HostOp) :
  Forall (fun op => quiet op = true) ops ->
  let w := (run fuel' ops (construct fuel h now v n o).2).2 in
  Z.of_nat (count_calls is_OnLimitExceeded w) =
    (if onLimitExceeded o then violationCount (this w) else 0)%Z.
Proof.
  intros Hops w.
  destruct (construct_facts fuel h now v n o) as (_ & Ho & _ & Hl & _).
  destruct (couple_callbacks o) as (_ & Eo & _).
  destruct (ledger_run fuel' ops (construct fuel h now v n o).2 Hops)
    as [_ _ _ _ _ Ha _ _].
  fold w in Ha. simpl in Ho, Hl. rewrite Ho, Eo in Ha.
  destruct (onLimitExceeded o); lia.
Qed.

Lemma X2_witness :
  let ops := [Write (DVal (VNum 1)); Write (DVal (VNum 2)); Freeze;
              Write (DVal (VNum 3))] in
  let w := (@run reference_builtins 9 ops
              (construct 9 [] 0 (VNum 0) 1 observed).2).2 in
  Forall (fun op => quiet op = true) ops /\
  Z.of_nat (count_calls is_OnLimitExceeded w) =
    (if onLimitExceeded observed then violationCount (this w) else 0)%Z.
Proof.
  intros ops w.
  assert (Hq : Forall (fun op => quiet op = true) ops) by (repeat constructor).
  split; [exact Hq|].
  exact (@X2_onLimitExceeded_called_once_per_counted_violation reference_builtins
           9 9 [] 0%Z (VNum 0) 1%Z observed ops Hq).
Defined.

(** ** The history log *)

(** X3.  The guard only ever appends to its log: whatever the host does
    (reads, top-level and deep writes, [freeze], [reset], reading the
    history and editing the copies it was given), the log before is a
    prefix of the log after, as long as the host does not edit the internal
    array itself, which only [toJSON] and the callback payloads hand out. *)
Theorem X3_history_is_append_only `{ArrayBuiltins}
    (fuel : nat) (ops : list HostOp) (w : World) :
  Forall (fun op => edits_log op = false) ops ->
  history (this w) `prefix_of` history (this (run fuel ops w).2).
Proof.
  intros Hops. revert w. induction Hops as [|op ops Hop _ IH]; intros w.
  - reflexivity.
  - rewrite run_cons. simpl. etransitivity; [|apply IH].
    destruct (quiet op) eqn:Hq.
    + apply (ledger_host_step fuel op Hq w).
    + destruct op; try discriminate Hq.
      * apply reset_prefix.
      * destruct r; discriminate.
Qed.

Lemma X3_witness :
  let ops := [Write (DVal (VNum 1)); Reset; GetHistory;
              EditHistory (Copy 0) (fun _ => []); Write (DVal (VNum 2))] in
  let w := fresh 9 (DVal (VNum 0)) 1 resettable in
  Forall (fun op => edits_log op = false) ops /\
  history (this w) `prefix_of` history (this (@run reference_builtins 9 ops w).2).
Proof.
  intros ops w.
  assert (Hq : Forall (fun op => edits_log op = false) ops) by (repeat constructor).
  split; [exact Hq|].
  exact (@X3_history_is_append_only reference_builtins 9 ops w Hq).
Defined.

(** X4.  When the constructor returned and no [reset] followed, the length
    of the log is determined by the counters: with [trackHistory] on it is
    one (the initial entry) plus [mutationCount], plus [violationCount] in
    non-strict mode, where over-limit attempts are recorded; with
    [trackHistory] off the log stays empty. *)
Theorem X4_history_length_follows_the_counters `{ArrayBuiltins}
    (fuel fuel' : nat) (h : Heap) (now : Z) (v : Val) (n : Z) (o : Options)
    (ops : list HostOp) :
  (construct fuel h now v n o).1 = Normal tt ->
  Forall (fun op => quiet op = true) ops ->
  let w := (run fuel' ops (construct fuel h now v n o).2).2 in
  Z.of_nat (length (history (this w))) =
    (if trackHistory o then
       1 + mutationCount (this w) +
       (if strictMode o then 0 else violationCount (this w))
     else 0)%Z.
Proof.
  intros Hn Hops w.
  destruct (construct_facts fuel h now v n o) as (_ & Ho & _ & _ & Hl & _).
  specialize (Hl Hn).
  destruct (couple_callbacks o) as (_ & _ & Et & Es & _).
  destruct (ledger_run fuel' ops (construct fuel h now v n o).2 Hops)
    as [_ _ _ _ _ _ _ Ha].
  fold w in Ha. simpl in Ho, Hl. rewrite Ho, Et, Es in Ha.
  destruct (trackHistory o), (strictMode o); lia.
Qed.

Lemma X4_witness :
  let ops := [Write (DVal (VNum 1)); Write (DVal (VNum 2));
              SetProp (ViaValue []) (KName "x") (DVal (VNum 2))] in
  let c := construct 9 [OObject [(KName "x", VNum 1)]] 0 (VRef 0) 1 non_strict in
  let w := (@run reference_builtins 9 ops c.2).2 in
  c.1 = Normal tt /\
  Forall (fun op => quiet op = true) ops /\
  Z.of_nat (length (history (this w))) =
    (if trackHistory non_strict then
       1 + mutationCount (this w) +
       (if strictMode non_strict then 0 else violationCount (this w))
     else 0)%Z.
Proof.
  intros ops c w.
  assert (Hc : c.1 = Normal tt) by reflexivity.
  assert (Hq : Forall (fun op => quiet op = true) ops) by (repeat constructor).
  split; [exact Hc|]. split; [exact Hq|].
  exact (@X4_history_length_follows_the_counters reference_builtins
           9 9 [OObject [(KName "x", VNum 1)]] 0%Z (VRef 0) 1%Z non_strict ops Hc Hq).
Defined.

(** ** When the variable is frozen *)

(** X5.  A variable built with [strictMode: false] is never frozen unless
    the host calls [freeze()]: the constructor turns [autoFreeze] off for
    it, so reaching the limit does not freeze it, whatever the host passed
    for [autoFreeze]. *)
Theorem X5_non_strict_is_never_auto_frozen `{ArrayBuiltins}
    (fuel fuel' : nat) (h : Heap) (now : Z) (v : Val) (n : Z) (o : Options)
    (ops : list HostOp) :
  strictMode o = false ->
  Forall (fun op => is_freeze op = false) ops ->
  frozen (this (run fuel' ops (construct fuel h now v n o).2).2) = false.
Proof.
  intros Hs Hops.
  destruct (construct_facts fuel h now v n o) as (_ & Ho & _ & _ & _ & _ & Hf).
  destruct (couple_callbacks o) as (_ & _ & _ & _ & Ea).
  destruct (freeze_run fuel' ops (construct fuel h now v n o).2 Hops)
    as [_ _ Hu _].
  apply Hu; [simpl in Ho; rewrite Ho; auto | auto].
Qed.

Lemma X5_witness :
  let o := {| trackHistory := true; strictMode := false; allowReset := true;
              autoFreeze := true; trackDeepMutations := true; onMutate := false;
              onViolation := false; onLastMutation := false;
              onLimitExceeded := false; errorMessage := None |} in
  let ops := [Write (DVal (VNum 1)); Write (DVal (VNum 2)); Reset] in
  strictMode o = false /\
  Forall (fun op => is_freeze op = false) ops /\
  frozen (this (@run reference_builtins 9 ops
                  (construct 9 [] 0 (VNum 0) 1 o).2).2) = false.
Proof.
  intros o ops.
  assert (Hs : strictMode o = false) by reflexivity.
  assert (Hq : Forall (fun op => is_freeze op = false) ops) by (repeat constructor).
  split; [exact Hs|]. split; [exact Hq|].
  exact (@X5_non_strict_is_never_auto_frozen reference_builtins
           9 9 [] 0%Z (VNum 0) 1%Z o ops Hs Hq).
Defined.

(** X6.  A variable the host never froze by hand is frozen only when it is
    depleted: the guard raises the flag only in the write that uses up the
    limit, so [isFrozen()] implies [isDepleted()] as long as [freeze()] was
    not called. *)
Theorem X6_frozen_without_freeze_means_depleted `{ArrayBuiltins}
    (fuel fuel' : nat) (h : Heap) (now : Z) (v : Val) (n : Z) (o : Options)
    (ops : list HostOp) :
  Forall (fun op => is_freeze op = false) ops ->
  let w := (run fuel' ops (construct fuel h now v n o).2).2 in
  frozen (this w) = true ->
  (isDepleted w).1 = Normal true.
Proof.
  intros Hops w Hfr.
  destruct (construct_facts fuel h now v n o) as (Hm & _ & _ & _ & _ & Hf & _).
  destruct (freeze_run fuel' ops (construct fuel h now v n o).2 Hops)
    as [_ _ _ Hd].
  fold w in Hd. simpl in Hm, Hf. rewrite Hm in Hd. specialize (Hd Hf Hfr).
  unfold isDepleted, bind, getThis, ret. simpl.
  by rewrite bool_decide_true.
Qed.

Lemma X6_witness :
  let ops := [Write (DVal (VNum 1)); Read] in
  let w := (@run reference_builtins 9 ops
              (construct 9 [] 0 (VNum 0) 1 default_options).2).2 in
  Forall (fun op => is_freeze op = false) ops /\
  frozen (this w) = true /\
  (isDepleted w).1 = Normal true.
Proof.
  intros ops w.
  assert (Hq : Forall (fun op => is_freeze op = false) ops) by (repeat constructor).
  assert (Hf : frozen (this w) = true) by reflexivity.
  split; [exact Hq|]. split; [exact Hf|].
  exact (@X6_frozen_without_freeze_means_depleted reference_builtins
           9 9 [] 0%Z (VNum 0) 1%Z default_options ops Hq Hf).
Defined.

(** ** Invariants, and what a throw tells *)

Section Satisfaction.
Context (I : World -> Prop) (T : JsError -> World -> Prop).

Lemma Sat_ret {A} (a : A) : Sat I T (ret a).
Proof. intros w Hw. split; [exact Hw | intros e He; discriminate He]. Qed.

Lemma Sat_abort {A} : Sat I T (@abort A).
Proof. intros w Hw. split; [exact Hw | intros e He; discriminate He]. Qed.

Lemma Sat_bind {A B} (m : Js A) (f : A -> Js B) :
  Sat I T m -> (forall a, Sat I T (f a)) -> Sat I T (bind m f).
Proof.
  intros Hm Hf w Hw. unfold bind. destruct (Hm w Hw) as [Hi Ht].
  destruct (m w) as [[a|e|] w1]; simpl in *.
  - apply Hf, Hi.
  - split; [exact Hi|]. intros e' He. injection He as <-. by apply Ht.
  - split; [exact Hi | intros e He; discriminate He].
Qed.

Lemma Sat_getThis : Sat I T getThis.
Proof. intros w Hw. split; [exact Hw | intros e He; discriminate He]. Qed.

Lemma Sat_getHeap : Sat I T getHeap.
Proof. intros w Hw. split; [exact Hw | intros e He; discriminate He]. Qed.

Lemma Sat_load l : Sat I T (load l).
Proof.
  intros w Hw. unfold load.
  destruct (heap w !! l); (split; [exact Hw | intros e He; discriminate He]).
Qed.

Lemma Sat_foldM {A S} (f : A -> S -> Js S) l :
  (forall a s, Sat I T (f a s)) -> forall s, Sat I T (foldM f l s).
Proof.
  intros Hf. induction l as [|a l IH]; intros s; simpl.
  - apply Sat_ret.
  - apply Sat_bind; [apply Hf | intros s'; apply IH].
Qed.

Lemma Sat_forM_ {A} (l : list A) (f : A -> Js unit) :
  (forall a, Sat I T (f a)) -> Sat I T (forM_ l f).
Proof. intros Hf. apply Sat_foldM. intros a _. apply Hf. Qed.

Lemma Sat_discard {A} (m : Js A) : Sat I T m -> Sat I T (discard m).
Proof. intros Hm. apply Sat_bind; [exact Hm | intros; apply Sat_ret]. Qed.

Hypothesis I_heap : forall w h, I w -> I (with_heap h w).
Hypothesis I_deepProxies :
  forall w m, I w -> I (with_this (set_deepProxies m (this w)) w).

Lemma Sat_alloc o : Sat I T (alloc o).
Proof. intros w Hw. split; [apply I_heap, Hw | intros e He; discriminate He]. Qed.

Lemma Sat_store l o : Sat I T (store l o).
Proof. intros w Hw. split; [apply I_heap, Hw | intros e He; discriminate He]. Qed.

Lemma Sat_eval_data d : Sat I T (eval_data d).
Proof.
  intros w Hw. unfold eval_data.
  destruct (alloc_data d (heap w)) as [v h]. simpl.
  split; [apply I_heap, Hw | intros e He; discriminate He].
Qed.

Lemma Sat_eval_args ds : Sat I T (eval_args ds).
Proof.
  apply Sat_foldM. intros d acc.
  apply Sat_bind; [apply Sat_eval_data | intros; apply Sat_ret].
Qed.

Hypothesis S_handleDeepMutation :
  forall path nv ov ty, Sat I T (handleDeepMutation path nv ov ty).

Section OpenTraps.
Variable rs : loc -> Key -> Val -> Js unit.
Variable rd : loc -> Key -> Js unit.
Variable cdp : loc -> Path -> Js loc.
Hypothesis H_rs : forall l k v, Sat I T (rs l k v).
Hypothesis H_rd : forall l k, Sat I T (rd l k).
Hypothesis H_cdp : forall l p, Sat I T (cdp l p).

Lemma Sat_wrap_value v p : Sat I T (wrap_value cdp v p).
Proof.
  unfold wrap_value. apply Sat_bind; [apply Sat_getHeap | intros h].
  destruct (isObjectOrArray h v); [|apply Sat_ret].
  destruct v; try apply Sat_ret.
  apply Sat_bind; [apply H_cdp | intros; apply Sat_ret].
Qed.

Lemma Sat_objectProxy_set target path prop v :
  Sat I T (objectProxy_set rs cdp target path prop v).
Proof.
  unfold objectProxy_set.
  apply Sat_bind; [apply Sat_getHeap | intros h].
  apply Sat_bind; [apply S_handleDeepMutation | intros _].
  apply Sat_bind; [apply Sat_wrap_value | intros v'; apply H_rs].
Qed.

Lemma Sat_objectProxy_deleteProperty target path prop :
  Sat I T (objectProxy_deleteProperty rd target path prop).
Proof.
  unfold objectProxy_deleteProperty.
  apply Sat_bind; [apply Sat_getHeap | intros h].
  apply Sat_bind; [apply S_handleDeepMutation | intros _; apply H_rd].
Qed.

Lemma Sat_arrayProxy_set target path prop v :
  Sat I T (arrayProxy_set rs cdp target path prop v).
Proof.
  unfold arrayProxy_set.
  destruct (negb _ && is_index_like prop); [|apply H_rs].
  apply Sat_bind; [apply Sat_getHeap | intros h].
  apply Sat_bind; [apply S_handleDeepMutation | intros _].
  apply Sat_bind; [apply Sat_wrap_value | intros v'; apply H_rs].
Qed.

Lemma Sat_rewrapArrayElements arr path :
  Sat I T (rewrapArrayElements rs cdp arr path).
Proof.
  unfold rewrapArrayElements.
  apply Sat_bind; [apply Sat_getHeap | intros h].
  destruct (js_get h arr (KName "length")); try apply Sat_ret.
  apply Sat_forM_. intros i.
  apply Sat_bind; [apply Sat_getHeap | intros h'].
  apply Sat_bind; [apply Sat_getThis | intros t].
  destruct (js_get h' arr (KIdx i)); try apply Sat_ret.
  destruct (isObjectOrArray _ _ && negb _); [|apply Sat_ret].
  apply Sat_bind; [apply H_cdp | intros p; apply H_rs].
Qed.
End OpenTraps.

Lemma Sat_layer fuel :
  (forall l k v, Sat I T (Reflect_set fuel l k v)) /\
  (forall obj path, Sat I T (createDeepProxy fuel obj path)) /\
  (forall target path ps, Sat I T (createProxy fuel target path ps)).
Proof.
  induction fuel as [|n (IHs & IHd & IHp)].
  - split; [|split]; intros; apply Sat_abort.
  - split; [|split].
    + intros l k v. simpl.
      apply Sat_bind; [apply Sat_load | intros o].
      destruct o as [props|elems|sk|[] target path].
      * destruct (set_own _ k v); [apply Sat_store | apply Sat_abort].
      * destruct (set_own _ k v); [apply Sat_store | apply Sat_abort].
      * destruct (set_own _ k v); [apply Sat_store | apply Sat_abort].
      * apply Sat_objectProxy_set; assumption.
      * apply Sat_arrayProxy_set; assumption.
    + intros obj path. simpl.
      apply Sat_bind; [apply Sat_getThis | intros t].
      destruct (deepProxies t !! obj); [apply Sat_ret|].
      apply Sat_bind; [apply IHp | intros r].
      apply Sat_bind; [|intros; apply Sat_ret].
      intros w Hw. split; [apply I_deepProxies, Hw | intros e He; discriminate He].
    + intros target path ps. simpl.
      destruct (bool_decide (target ∈ ps)); [apply Sat_ret|].
      assert (Hvisit : forall k s, Sat I T
        (h <- getHeap ;; t <- getThis ;;
         match js_get h target k with
         | VRef c =>
             if isObjectOrArray h (VRef c) && negb (has (deepProxies t) c) then
               r <- createProxy n c (path ++ [key_string k]) s ;;
               Reflect_set n target k (VRef r.1) ;; ret r.2
             else ret s
         | _ => ret s
         end)).
      { intros k s.
        apply Sat_bind; [apply Sat_getHeap | intros h].
        apply Sat_bind; [apply Sat_getThis | intros t].
        destruct (js_get h target k); try apply Sat_ret.
        destruct (isObjectOrArray _ _ && negb _); [|apply Sat_ret].
        apply Sat_bind; [apply IHp | intros r].
        apply Sat_bind; [apply IHs | intros; apply Sat_ret]. }
      apply Sat_bind; [apply Sat_getHeap | intros h].
      destruct (Array_isArray h target).
      * destruct (js_get h target (KName "length")); try apply Sat_abort.
        apply Sat_bind; [apply Sat_foldM; exact Hvisit | intros s].
        apply Sat_bind; [apply Sat_alloc | intros; apply Sat_ret].
      * match goal with |- Sat I T (if ?b then _ else _) => destruct b end;
          [|apply Sat_ret].
        apply Sat_bind; [apply Sat_foldM; exact Hvisit | intros s].
        apply Sat_bind; [apply Sat_alloc | intros; apply Sat_ret].
Qed.

Lemma Sat_Reflect_set fuel l k v : Sat I T (Reflect_set fuel l k v).
Proof. apply Sat_layer. Qed.

Lemma Sat_createDeepProxy fuel obj path : Sat I T (createDeepProxy fuel obj path).
Proof. apply Sat_layer. Qed.

Lemma Sat_Reflect_deleteProperty fuel l k : Sat I T (Reflect_deleteProperty fuel l k).
Proof.
  revert l k. induction fuel as [|n IH]; intros l k; simpl; [apply Sat_abort|].
  apply Sat_bind; [apply Sat_load | intros o].
  destruct o as [props|elems|sk|[] target path].
  - destruct (delete_own _ k); [apply Sat_store | apply Sat_abort].
  - destruct (delete_own _ k); [apply Sat_store | apply Sat_abort].
  - destruct (delete_own _ k); [apply Sat_store | apply Sat_abort].
  - apply Sat_objectProxy_deleteProperty. intros; apply IH.
  - apply IH.
Qed.

Lemma Sat_call_method `{ArrayBuiltins} fuel l m args :
  Sat I T (call_method fuel l m args).
Proof.
  revert l. induction fuel as [|n IH]; intros l; simpl; [apply Sat_abort|].
  apply Sat_bind; [apply Sat_load | intros o].
  destruct o as [props|elems|sk|[] target path]; try apply Sat_abort.
  - destruct (Array_prototype m args elems) as [elems' result].
    apply Sat_bind; [apply Sat_store | intros _].
    destruct result; try apply Sat_ret.
    apply Sat_bind; [apply Sat_alloc | intros; apply Sat_ret].
  - apply Sat_bind; [apply Sat_alloc | intros a].
    apply Sat_bind; [apply S_handleDeepMutation | intros _].
    apply Sat_bind; [apply IH | intros result].
    apply Sat_bind; [|intros; apply Sat_ret].
    apply Sat_rewrapArrayElements;
      [apply Sat_Reflect_set | apply Sat_createDeepProxy].
Qed.

(** Every write attempt of the host, given the same for the accessors of
    [value]. *)
Hypothesis S_get_value : Sat I T get_value.
Hypothesis S_set_value : forall fuel v, Sat I T (set_value fuel v).

Lemma Sat_locate tg : Sat I T (locate tg).
Proof.
  destruct tg as [l|nav]; simpl; [apply Sat_ret|].
  apply Sat_bind; [apply S_get_value | intros v].
  apply Sat_bind; [apply Sat_getHeap | intros h].
  destruct (navigate h v nav); first [apply Sat_ret | apply Sat_abort].
Qed.

Lemma Sat_write `{ArrayBuiltins} fuel op :
  is_write op = true -> Sat I T (host_step fuel op).
Proof.
  destruct op; simpl; try discriminate; intros _.
  - apply Sat_bind; [apply Sat_eval_data | intros v; apply S_set_value].
  - apply Sat_bind; [apply Sat_locate | intros l].
    apply Sat_bind; [apply Sat_eval_data | intros v; apply Sat_Reflect_set].
  - apply Sat_bind; [apply Sat_locate | intros l].
    apply Sat_Reflect_deleteProperty.
  - apply Sat_bind; [apply Sat_locate | intros l].
    apply Sat_bind; [apply Sat_eval_args | intros vs].
    apply Sat_discard, Sat_call_method.
Qed.
End Satisfaction.

Ltac sat_world w Hw :=
  intros w Hw;
  destruct w as [[v0 mx mc vc hist o fr vi ovc dp mp] hp cp cs ck];
  destruct o as [th sm ar af td om ov' ol ox em];
  unfold coherent, locked in Hw; simpl in Hw.

Ltac sat_inv :=
  try solve [ reflexivity | assumption | trivial
            | intuition (try discriminate; try lia) ].

Ltac sat_said :=
  try solve [ trivial | eexists; reflexivity
            | repeat split;
              try solve [ reflexivity | assumption | lia
                        | eexists _, _; repeat split ] ].

Ltac sat_thrown :=
  let e := fresh "e" in
  let He := fresh "He" in
  intros e He;
  first [ discriminate He | injection He as <-; sat_said ].

Ltac sat_leaf :=
  unfold coherent, locked, says, reports_counts in *; simpl in *;
  repeat case_bool_decide;
  (split; [sat_inv | sat_thrown]).


(** *** Non-strict mode *)



(** *** Coherence of the flag [violated], and what a thrown error says *)



(** *** The lock of strict mode *)

Lemma locked_handleDeepMutation path nv ov ty :
  Sat locked (fun _ _ => True) (handleDeepMutation path nv ov ty).
Proof.
  sat_world w Hw. destruct Hw as (-> & -> & Hw).
  run_js. repeat case_step; sat_leaf.
Qed.

Lemma locked_set_value fuel v : Sat locked (fun _ _ => True) (set_value fuel v).
Proof.
  sat_world w Hw. destruct Hw as (-> & -> & Hw).
  run_js. destruct fr; simpl; [repeat case_step; sat_leaf|].
  case_bool_decide; simpl; [repeat case_step; sat_leaf|].
  exfalso. destruct Hw as [Hw|Hw]; [discriminate Hw | lia].
Qed.

Lemma locked_host_step `{ArrayBuiltins} fuel op w :
  is_reset op = false -> locked w -> locked (host_step fuel op w).2.
Proof.
  intros Hr Hw. destruct (is_write op) eqn:Ew.
  - apply (Sat_write locked (fun _ _ => True) (fun w h Hw => Hw) (fun w m Hw => Hw)
             locked_handleDeepMutation); auto using locked_set_value.
    intros w' Hw'. unfold get_value, bind, getThis. simpl.
    destruct (strictMode _ && violated _); simpl; auto.
  - destruct op; try discriminate; simpl.
    + unfold discard, get_value, bind, getThis. simpl.
      destruct (strictMode _ && violated _); simpl; exact Hw.
    + destruct Hw as (Hs & Hv & Hd). repeat split; simpl; auto.
    + unfold discard, get_history, bind, getThis. simpl.
      destruct (negb _); simpl; exact Hw.
    + unfold host_edit_array. destruct r; simpl; [exact Hw|].
      destruct (copies w !! n); simpl; exact Hw.
Qed.

Lemma locked_run `{ArrayBuiltins} fuel ops w :
  Forall (fun op => is_reset op = false) ops ->
  locked w -> locked (run fuel ops w).2.
Proof.
  intros Hops. revert w. induction Hops as [|op ops Hop _ IH]; intros w Hw.
  - exact Hw.
  - rewrite run_cons. simpl. apply IH, locked_host_step; assumption.
Qed.




Lemma locked_set_value_throws fuel v w :
  locked w -> is_Throw (set_value fuel v w).1 = true.
Proof.
  revert w. sat_world w Hw. destruct Hw as (-> & -> & Hw).
  run_js. destruct fr; simpl; [repeat case_step; reflexivity|].
  case_bool_decide; simpl; [repeat case_step; reflexivity|].
  exfalso. destruct Hw as [Hw|Hw]; [discriminate Hw | lia].
Qed.

Lemma locked_get_value_throws w : locked w -> is_Throw (get_value w).1 = true.
Proof.
  intros (Hs & Hv & _). unfold get_value, bind, getThis. simpl.
  by rewrite Hs, Hv.
Qed.

Lemma bind_throws {A B} (m : Js A) (f : A -> Js B) w :
  is_Throw (m w).1 = true -> is_Throw (bind m f w).1 = true.
Proof. unfold bind. destruct (m w) as [[a|e|] w1]; done. Qed.

Lemma locked_locate_throws nav w :
  locked w -> is_Throw (locate (ViaValue nav) w).1 = true.
Proof. intros Hw. apply bind_throws, locked_get_value_throws, Hw. Qed.

(** *** Custom error messages *)

Lemma custom_handleDeepMutation msg path nv ov ty :
  msg <> "" ->
  Sat (fun w => errorMessage (options (this w)) = Some msg)
      (fun e _ => exists ctx, e = MutationLimitExceeded msg ctx)
      (handleDeepMutation path nv ov ty).
Proof.
  intros Hmsg. sat_world w Hw. subst em. run_js. unfold message_or. simpl.
  destruct (decide (msg = "")) as [E|_]; [contradiction|].
  repeat case_step; sat_leaf.
Qed.

Lemma custom_set_value msg fuel v :
  msg <> "" ->
  Sat (fun w => errorMessage (options (this w)) = Some msg)
      (fun e _ => exists ctx, e = MutationLimitExceeded msg ctx)
      (set_value fuel v).
Proof.
  intros Hmsg.
  pose proof (Sat_createDeepProxy
    (fun w => errorMessage (options (this w)) = Some msg)
    (fun e _ => exists ctx, e = MutationLimitExceeded msg ctx)
    (fun w h Hw => Hw) (fun w m Hw => Hw)
    (fun path nv ov ty => custom_handleDeepMutation msg path nv ov ty Hmsg) fuel) as Hc.
  sat_world w Hw. subst em. run_js. unfold message_or. simpl.
  destruct (decide (msg = "")) as [E|_]; [contradiction|].
  destruct fr; simpl; [repeat case_step; sat_leaf|].
  case_bool_decide; simpl; [repeat case_step; sat_leaf|].
  match goal with |- context [td && isObjectOrArray ?h v] =>
    destruct (td && isObjectOrArray h v) eqn:Hb end; simpl;
    [|solve [repeat case_step; sat_leaf]].
  destruct v; try (rewrite andb_false_r in Hb; discriminate Hb). simpl.
  match goal with |- context [createDeepProxy fuel ?l [] ?w0] =>
    destruct (Hc l [] w0 eq_refl) as [Hi Ht];
    destruct (createDeepProxy fuel l [] w0) as [[p|e|] w1] end; simpl in *.
  - destruct w1 as [[v1 mx1 mc1 vc1 hist1 o1 fr1 vi1 ovc1 dp1 mp1] hp1 cp1 cs1 ck1].
    simpl in *. repeat case_step; sat_leaf.
  - split; [exact Hi|]. intros e' He. injection He as <-. by apply Ht.
  - split; [exact Hi | intros e He; discriminate He].
Qed.

(** ** Modes *)





(** X9.  The lock holds until [reset()]: on a strict variable with
    [violated] set and no write allowance left, after any operations other
    than [reset], reading [value], assigning to [value] and every edit of
    what [value] returns throw. *)
Theorem X9_locked_until_reset `{ArrayBuiltins}
    (fuel : nat) (ops : list HostOp) (op : HostOp) (w : World) :
  locked w ->
  Forall (fun op => is_reset op = false) ops ->
  through_guard op = true ->
  is_Throw (host_step fuel op (run fuel ops w).2).1 = true.
Proof.
  intros Hw Hops Hop.
  pose proof (locked_run fuel ops w Hops Hw) as Hl.
  set (w1 := (run fuel ops w).2) in *. clearbody w1.
  destruct op as [|d|[l|nav] k d|[l|nav] k|[l|nav] m args| | | |];
    try discriminate Hop; unfold host_step, discard.
  - apply bind_throws, locked_get_value_throws, Hl.
  - unfold bind at 1, eval_data.
    destruct (alloc_data d (heap w1)) as [v h]. simpl.
    apply locked_set_value_throws. exact Hl.
  - apply bind_throws, locked_locate_throws, Hl.
  - apply bind_throws, locked_locate_throws, Hl.
  - apply bind_throws, locked_locate_throws, Hl.
Qed.

Lemma X9_witness :
  let w := (@run reference_builtins 9
              [Write (DVal (VNum 1)); Write (DVal (VNum 2))]
              (fresh 9 (DObject [(KName "x", DVal (VNum 1))]) 1 default_options)).2 in
  let ops := [Read; Freeze; GetHistory] in
  let op := SetProp (ViaValue []) (KName "x") (DVal (VNum 2)) in
  locked w /\
  Forall (fun op => is_reset op = false) ops /\
  through_guard op = true /\
  is_Throw (@host_step reference_builtins 9 op
              (@run reference_builtins 9 ops w).2).1 = true.
Proof.
  intros w ops op.
  assert (Hl : locked w).
  { split; [reflexivity|]. split; [reflexivity|]. left. reflexivity. }
  assert (Hq : Forall (fun op => is_reset op = false) ops) by (repeat constructor).
  assert (Hop : through_guard op = true) by reflexivity.
  split; [exact Hl|]. split; [exact Hq|]. split; [exact Hop|].
  exact (@X9_locked_until_reset reference_builtins 9 ops op w Hl Hq Hop).
Defined.

(** X10.  A non-empty [errorMessage] option replaces the message of every
    [MutationLimitExceeded] a write can throw: from the setter of [value],
    from a property assignment, a [delete] and a mutating array method on
    tracked objects, for the frozen and for the limit-exceeded rejection
    alike. *)
Theorem X10_errorMessage_overrides_every_write_rejection `{ArrayBuiltins}
    (msg : string) (w : World) (fuel : nat) (v : Val) (l : loc) (k : Key)
    (m : ArrayMethod) (args : list Val) (e : JsError) :
  errorMessage (options (this w)) = Some msg ->
  msg <> "" ->
  (set_value fuel v w).1 = Throw e \/
  (Reflect_set fuel l k v w).1 = Throw e \/
  (Reflect_deleteProperty fuel l k w).1 = Throw e \/
  (call_method fuel l m args w).1 = Throw e ->
  exists ctx, e = MutationLimitExceeded msg ctx.
Proof.
  intros Hw Hmsg He.
  pose (I := fun w => errorMessage (options (this w)) = Some msg).
  pose (T := fun (e : JsError) (_ : World) => exists ctx, e = MutationLimitExceeded msg ctx).
  assert (Hh : forall path nv ov ty, Sat I T (handleDeepMutation path nv ov ty))
    by (intros; by apply custom_handleDeepMutation).
  destruct He as [He|[He|[He|He]]].
  - by apply (custom_set_value msg fuel v Hmsg w Hw).
  - by apply (Sat_Reflect_set I T (fun w h Hw => Hw) (fun w m Hw => Hw) Hh
                fuel l k v w Hw).
  - by apply (Sat_Reflect_deleteProperty I T (fun w h Hw => Hw) Hh fuel l k w Hw).
  - by apply (Sat_call_method I T (fun w h Hw => Hw) (fun w m Hw => Hw) Hh
                fuel l m args w Hw).
Qed.

Lemma X10_witness :
  let o := {| trackHistory := true; strictMode := true; allowReset := false;
              autoFreeze := true; trackDeepMutations := true; onMutate := false;
              onViolation := false; onLastMutation := false;
              onLimitExceeded := false; errorMessage := Some "Config is locked" |} in
  let w := (construct 9 [] 0 (VNum 0) 0 o).2 in
  errorMessage (options (this w)) = Some "Config is locked" /\
  "Config is locked" <> "" /\
  exists e, (set_value 9 (VNum 1) w).1 = Throw e /\
            exists ctx, e = MutationLimitExceeded "Config is locked" ctx.
Proof.
  intros o w.
  assert (Ho : errorMessage (options (this w)) = Some "Config is locked")
    by reflexivity.
  assert (Hm : "Config is locked" <> "") by discriminate.
  eassert (He : (set_value 9 (VNum 1) w).1 = Throw _) by reflexivity.
  split; [exact Ho|]. split; [exact Hm|]. eexists. split; [exact He|].
  exact (@X10_errorMessage_overrides_every_write_rejection reference_builtins
           "Config is locked" w 9 (VNum 1) 0 (KName "x") Push [] _ Ho Hm
           (or_introl He)).
Defined.

(** ** The class without deep tracking *)

Lemma set_value_shallow fuel v w :
  trackDeepMutations (options (this w)) && isObjectOrArray (heap w) v = false ->
  set_value fuel v w = Shallow.set_value v w.
Proof.
  destruct w as [[v0 mx mc vc hist o fr vi ovc dp mp] hp cp cs ck].
  destruct o as [th sm ar af td om ov' ol ox em].
  simpl. intros Hb. unfold Shallow.set_value. run_js.
  destruct fr; simpl; [reflexivity|].
  case_bool_decide; simpl; [reflexivity|].
  rewrite Hb. reflexivity.
Qed.

Lemma constructor_body_shallow fuel v w :
  trackDeepMutations (options (this w)) && isObjectOrArray (heap w) v = false ->
  constructor_body fuel v w = Shallow.constructor_body v w.
Proof.
  destruct w as [[v0 mx mc vc hist o fr vi ovc dp mp] hp cp cs ck].
  destruct o as [th sm ar af td om ov' ol ox em].
  simpl. intros Hb. unfold constructor_body, Shallow.constructor_body. run_js.
  rewrite Hb. reflexivity.
Qed.

Lemma reset_shallow w :
  deepProxies (this w) = ∅ -> mutationPath (this w) = [] ->
  reset w = Shallow.reset w.
Proof.
  destruct w as [[v0 mx mc vc hist o fr vi ovc dp mp] hp cp cs ck].
  destruct o as [th sm ar af td om ov' ol ox em].
  simpl. intros -> ->. unfold Shallow.reset. run_js.
  destruct ar, th; reflexivity.
Qed.

(** The shallow class never touches the two fields it does not have, nor
    the options. *)
Lemma shallow_set_value_frame v w :
  options (this (Shallow.set_value v w).2) = options (this w) /\
  deepProxies (this (Shallow.set_value v w).2) = deepProxies (this w) /\
  mutationPath (this (Shallow.set_value v w).2) = mutationPath (this w).
Proof.
  destruct w as [[v0 mx mc vc hist o fr vi ovc dp mp] hp cp cs ck].
  destruct o as [th sm ar af td om ov' ol ox em].
  unfold Shallow.set_value. run_js. repeat case_step; repeat split; reflexivity.
Qed.

Lemma shallow_host_step_frame op w :
  options (this (Shallow.host_step op w).2) = options (this w) /\
  deepProxies (this (Shallow.host_step op w).2) = deepProxies (this w) /\
  mutationPath (this (Shallow.host_step op w).2) = mutationPath (this w).
Proof.
  destruct op; simpl; auto.
  - destruct w as [[v0 mx mc vc hist o fr vi ovc dp mp] hp cp cs ck].
    destruct o as [th sm ar af td om ov' ol ox em].
    run_js. repeat case_step; repeat split; reflexivity.
  - unfold bind, eval_data.
    destruct (alloc_data d (heap w)) as [v h].
    apply (shallow_set_value_frame v (with_heap h w)).
  - destruct w as [[v0 mx mc vc hist o fr vi ovc dp mp] hp cp cs ck].
    destruct o as [th sm ar af td om ov' ol ox em].
    unfold Shallow.reset. run_js. repeat case_step; repeat split; reflexivity.
  - destruct w as [[v0 mx mc vc hist o fr vi ovc dp mp] hp cp cs ck].
    destruct o as [th sm ar af td om ov' ol ox em].
    run_js. repeat case_step; repeat split; reflexivity.
  - destruct w as [[v0 mx mc vc hist o fr vi ovc dp mp] hp cp cs ck].
    run_js. destruct r; simpl; auto. destruct (cp !! n); simpl; auto.
Qed.

Lemma host_step_shallow `{ArrayBuiltins} fuel op w :
  top_level op = true ->
  trackDeepMutations (options (this w)) = false ->
  deepProxies (this w) = ∅ -> mutationPath (this w) = [] ->
  host_step fuel op w = Shallow.host_step op w.
Proof.
  intros Hop Htd Hdp Hmp. destruct op; try discriminate Hop; simpl; try reflexivity.
  - unfold bind, eval_data.
    destruct (alloc_data d (heap w)) as [v h].
    apply (set_value_shallow fuel v (with_heap h w)). simpl. by rewrite Htd.
  - by apply reset_shallow.
Qed.

(** X11.  With [trackDeepMutations: false] the class is the earlier,
    shallow-only [LimitedVariable]: construction and every sequence of
    top-level operations (reading and assigning [value], [freeze],
    [reset], reading the history) complete the same way and leave the same
    state, callbacks and log. *)
Theorem X11_without_deep_tracking_it_is_the_shallow_class `{ArrayBuiltins}
    (fuel : nat) (h : Heap) (now : Z) (v : Val) (n : Z) (o : Options)
    (ops : list HostOp) :
  trackDeepMutations o = false ->
  Forall (fun op => top_level op = true) ops ->
  construct fuel h now v n o = Shallow.construct h now v n o /\
  run fuel ops (construct fuel h now v n o).2 =
  Shallow.run ops (Shallow.construct h now v n o).2.
Proof.
  intros Htd Hops.
  assert (Hc : construct fuel h now v n o = Shallow.construct h now v n o).
  { apply constructor_body_shallow. simpl.
    destruct o as [th [] ar af td om ov' ol ox em]; simpl in *; by rewrite Htd. }
  split; [exact Hc|]. rewrite Hc.
  assert (Hinv : trackDeepMutations (options (this (Shallow.construct h now v n o).2))
                 = false /\
                 deepProxies (this (Shallow.construct h now v n o).2) = ∅ /\
                 mutationPath (this (Shallow.construct h now v n o).2) = []).
  { unfold Shallow.construct, Shallow.constructor_body, blank.
    destruct o as [th [] ar af td om ov' ol ox em]; simpl in *;
      run_js; repeat case_step; auto. }
  revert Hinv. generalize (Shallow.construct h now v n o).2.
  induction Hops as [|op ops Hop _ IH]; intros w (Itd & Idp & Imp); [reflexivity|].
  rewrite run_cons. simpl.
  rewrite (host_step_shallow fuel op w Hop Itd Idp Imp).
  destruct (shallow_host_step_frame op w) as (Fo & Fd & Fm).
  destruct (Shallow.host_step op w) as [c w1]. simpl in *.
  rewrite IH by (rewrite Fo, Fd, Fm; auto).
  destruct (Shallow.run ops w1) as [cs w2]. reflexivity.
Qed.

Lemma X11_witness :
  let o := {| trackHistory := true; strictMode := true; allowReset := true;
              autoFreeze := true; trackDeepMutations := false; onMutate := true;
              onViolation := true; onLastMutation := true;
              onLimitExceeded := true; errorMessage := None |} in
  let ops := [Write (DObject [(KName "x", DVal (VNum 1))]); Read; Reset; GetHistory;
              Write (DVal (VNum 2)); Write (DVal (VNum 3)); Freeze] in
  let h := [OObject [(KName "y", VNum 0)]] in
  trackDeepMutations o = false /\
  Forall (fun op => top_level op = true) ops /\
  @run reference_builtins 9 ops (construct 9 h 0 (VRef 0) 1 o).2 =
  Shallow.run ops (Shallow.construct h 0 (VRef 0) 1 o).2.
Proof.
  intros o ops h.
  assert (Ho : trackDeepMutations o = false) by reflexivity.
  assert (Hq : Forall (fun op => top_level op = true) ops) by (repeat constructor).
  split; [exact Ho|]. split; [exact Hq|].
  exact (proj2 (@X11_without_deep_tracking_it_is_the_shallow_class reference_builtins
                  9 h 0%Z (VRef 0) 1%Z o ops Ho Hq)).
Defined.

Lemma shallow_set_value_effect v w : check_effect w (Shallow.set_value v w).
Proof.
  destruct w as [[v0 mx mc vc hist o fr vi ovc dp mp] hp cp cs ck].
  destruct o as [th sm ar af td om ov' ol ox em].
  unfold check_effect, rejects, Shallow.set_value. run_js.
  destruct fr; simpl; [destruct vi; repeat case_step; repeat split; leaf|].
  case_bool_decide; simpl; destruct vi; repeat case_step; repeat split; leaf.
Qed.

Lemma effect_depletes k w r :
  check_effect w r ->
  depleted_to k w ->
  depleted_to (k + 1) r.2 /\
  maxMutations (this r.2) = maxMutations (this w) /\
  options (this r.2) = options (this w) /\
  is_Normal r.1 =
    bool_decide (k < maxMutations (this w))%Z || negb (strictMode (options (this w))).
Proof.
  intros (Ec & Ev & Ef & Em & Eo & En) (Hc & Hv & Hf).
  unfold depleted_to, rejects in *.
  rewrite Ec, Ev, Ef, Em, Eo, En, Hc, Hv. clear Ec Ev Ef Em Eo En.
  destruct (frozen (this w)).
  - specialize (Hf eq_refl). simpl.
    repeat case_bool_decide; repeat split; simpl; try done; lia.
  - clear Hf. simpl.
    destruct (autoFreeze (options (this w))); simpl;
      repeat case_bool_decide; repeat split; simpl; try done; lia.
Qed.

Lemma shallow_run_cons op ops w :
  Shallow.run (op :: ops) w =
  ((Shallow.host_step op w).1 :: (Shallow.run ops (Shallow.host_step op w).2).1,
   (Shallow.run ops (Shallow.host_step op w).2).2).
Proof.
  simpl. destruct (Shallow.host_step op w) as [c w1]. simpl.
  destruct (Shallow.run ops w1) as [cs w2]. reflexivity.
Qed.

Lemma shallow_write_step d w :
  exists v h, Shallow.host_step (Write d) w = Shallow.set_value v (with_heap h w).
Proof.
  simpl. unfold bind, eval_data.
  destruct (alloc_data d (heap w)) as [v h]. by exists v, h.
Qed.

Lemma shallow_writes_deplete ds : forall k w,
  depleted_to k w ->
  let r := Shallow.run (map Write ds) w in
  depleted_to (k + Z.of_nat (length ds)) r.2 /\
  maxMutations (this r.2) = maxMutations (this w) /\
  forall i out, r.1 !! i = Some out ->
    is_Normal out =
      bool_decide (k + Z.of_nat i < maxMutations (this w))%Z ||
      negb (strictMode (options (this w))).
Proof.
  induction ds as [|d ds IH]; intros k w Hd.
  - simpl. rewrite Z.add_0_r.
    split; [exact Hd|]. split; [reflexivity | intros i out Hi; discriminate].
  - cbn [map]. cbv zeta. rewrite shallow_run_cons.
    destruct (shallow_write_step d w) as (v & h & ->).
    assert (Hd' : depleted_to k (with_heap h w)) by exact Hd.
    destruct (effect_depletes k _ _ (shallow_set_value_effect v (with_heap h w)) Hd')
      as (Hd1 & Hm & Ho & Hn).
    specialize (IH (k + 1)%Z (Shallow.set_value v (with_heap h w)).2 Hd1).
    cbv zeta in IH. destruct IH as (IHd & IHm & IHo). cbn [fst snd].
    split; [|split].
    + replace (k + Z.of_nat (length (d :: ds)))%Z
        with (k + 1 + Z.of_nat (length ds))%Z by (simpl length; lia). exact IHd.
    + rewrite IHm. exact Hm.
    + intros [|i] out Hi; simpl in Hi.
      * injection Hi as <-. rewrite Z.add_0_r. exact Hn.
      * rewrite (IHo i out Hi), Hm, Ho.
        replace (k + Z.of_nat (S i))%Z with (k + 1 + Z.of_nat i)%Z by lia.
        reflexivity.
Qed.

(** X12.  The shallow-only class depletes exactly: on a new variable with
    limit [n >= 0], whatever values are assigned to [value], the first [n]
    assignments are admitted and counted, and every later one is turned
    down (it throws in strict mode and is recorded in non-strict mode);
    after [k] assignments [mutationCount] is [min k n]. *)
Theorem X12_shallow_class_depletes_exactly
    (h : Heap) (now : Z) (v : Val) (n : Z) (o : Options) (ds : list Data) :
  (0 <= n)%Z ->
  let r := Shallow.run (map Write ds) (Shallow.construct h now v n o).2 in
  mutationCount (this r.2) = Z.min (Z.of_nat (length ds)) n /\
  remaining (this r.2) = Z.max 0 (n - Z.of_nat (length ds)) /\
  forall i out, r.1 !! i = Some out ->
    is_Normal out = bool_decide (Z.of_nat i < n)%Z || negb (strictMode o).
Proof.
  intros Hn. cbv zeta.
  set (w0 := (Shallow.construct h now v n o).2).
  assert (H0 : maxMutations (this w0) = n /\ options (this w0) = couple o /\
               depleted_to 0 w0).
  { unfold w0, Shallow.construct, Shallow.constructor_body, blank, depleted_to.
    run_js. destruct (trackHistory (couple o)); simpl;
      (split; [reflexivity|]; split; [reflexivity|]);
      (split; [lia|]; split; [by rewrite bool_decide_false by lia | discriminate]). }
  destruct H0 as (Hm & Ho & Hd).
  destruct (shallow_writes_deplete ds 0 w0 Hd) as ((Hc & _ & _) & Hmx & Hout).
  rewrite Hmx, Hm in Hc. rewrite Hm, Ho in Hout.
  destruct (couple_callbacks o) as (_ & _ & _ & Es & _). rewrite Es in Hout.
  split; [|split].
  - rewrite Hc. reflexivity.
  - unfold remaining. rewrite Hmx, Hm, Hc. lia.
  - intros i out Hi. rewrite (Hout i out Hi). reflexivity.
Qed.

Lemma X12_witness :
  let ds := [DVal (VNum 1); DObject [(KName "x", DVal (VNum 1))]; DVal (VNum 3)] in
  let r := Shallow.run (map Write ds)
             (Shallow.construct [] 0 (VNum 0) 2 default_options).2 in
  (0 <= 2)%Z /\
  mutationCount (this r.2) = Z.min (Z.of_nat (length ds)) 2 /\
  map is_Normal r.1 = [true; true; false].
Proof.
  intros ds r.
  assert (Hn : (0 <= 2)%Z) by lia.
  split; [exact Hn|].
  split; [|reflexivity].
  exact (proj1 (X12_shallow_class_depletes_exactly [] 0%Z (VNum 0) 2%Z
                  default_options ds Hn)).
Defined.

(** ** The interception layer, write by write *)

(** X13.  Two edits of a tracked array run no admission check at all:
    assigning to [length] (the [set] trap skips it) and [delete] of an
    element (the array proxy has no [deleteProperty] trap).  Both go
    straight to the array, whatever the state of the guard, frozen or
    depleted included; counters, flags, log and callbacks are untouched. *)
Theorem X13_array_length_and_delete_bypass_the_guard
    (n : nat) (w : World) (l target : loc) (path : Path) (elems : list Val) :
  heap w !! l = Some (OProxy ArrayProxy target path) ->
  heap w !! target = Some (OArray elems) ->
  (forall z, (0 <= z)%Z ->
     Reflect_set (S (S n)) l (KName "length") (VNum z) w =
     (Normal tt,
      with_heap (<[target := OArray (resize (Z.to_nat z) VUndefined elems)]> (heap w)) w))
  /\
  (forall i,
     Reflect_deleteProperty (S (S n)) l (KIdx i) w =
     (Normal tt,
      with_heap (<[target := OArray (<[i := VUndefined]> elems)]> (heap w)) w)).
Proof.
  intros Hl Ht. split.
  - intros z Hz. cbn [Reflect_set]. unfold bind at 1, load. rewrite Hl.
    unfold arrayProxy_set. rewrite bool_decide_true by reflexivity. cbn [negb andb].
    unfold bind, load. rewrite Ht. cbn [set_own].
    destruct (decide ("length" = "length")) as [_|Hne]; [|done].
    destruct (decide (0 <= z)%Z) as [_|Hne]; [|done].
    reflexivity.
  - intros i. cbn [Reflect_deleteProperty]. unfold bind at 1, load. rewrite Hl.
    unfold bind, load. rewrite Ht. reflexivity.
Qed.

Lemma X13_witness :
  let w := (freeze (fresh 9 (DArray [DVal (VNum 1); DVal (VNum 2)]) 1
                      default_options)).2 in
  heap w !! 1 = Some (OProxy ArrayProxy 0 []) /\
  heap w !! 0 = Some (OArray [VNum 1; VNum 2]) /\
  frozen (this w) = true /\
  Reflect_set 2 1 (KName "length") (VNum 0) w =
    (Normal tt,
     with_heap (<[0 := OArray (resize (Z.to_nat 0) VUndefined [VNum 1; VNum 2])]>
                  (heap w)) w).
Proof.
  intros w.
  assert (Hl : heap w !! 1 = Some (OProxy ArrayProxy 0 [])) by reflexivity.
  assert (Ht : heap w !! 0 = Some (OArray [VNum 1; VNum 2])) by reflexivity.
  split; [exact Hl|]. split; [exact Ht|]. split; [reflexivity|].
  exact (proj1 (X13_array_length_and_delete_bypass_the_guard 0 w 1 0 []
                  [VNum 1; VNum 2] Hl Ht) 0%Z ltac:(lia)).
Defined.

(** X14.  Wrapping is idempotent at the root: once [#createDeepProxy] has
    returned a proxy for an object, asking again for the same object, along
    any path, returns that same proxy and changes nothing. *)
Theorem X14_createDeepProxy_returns_the_registered_proxy
    (fuel fuel' : nat) (obj : loc) (path path' : Path) (w w1 : World) (p : loc) :
  createDeepProxy fuel obj path w = (Normal p, w1) ->
  createDeepProxy (S fuel') obj path' w1 = (Normal p, w1).
Proof.
  destruct fuel as [|n]; [discriminate|].
  cbn [createDeepProxy]. unfold bind at 1, getThis. cbn [fst snd].
  destruct (deepProxies (this w) !! obj) as [q|] eqn:E.
  - intros [= <- <-]. unfold bind, getThis. cbn [fst snd]. by rewrite E.
  - unfold bind at 1.
    destruct (createProxy n obj path ∅ w) as [[r|e|] w2]; try discriminate.
    unfold bind, update, ret. cbn [fst snd]. intros [= <- <-].
    unfold getThis. cbn. by rewrite lookup_insert_eq.
Qed.

Lemma X14_witness :
  let w := blank 1 default_options [OObject [(KName "x", VNum 1)]] 0 in
  exists p w1,
    createDeepProxy 5 0 [] w = (Normal p, w1) /\
    createDeepProxy 1 0 ["elsewhere"] w1 = (Normal p, w1).
Proof.
  intros w.
  eassert (H : createDeepProxy 5 0 [] w = (Normal _, _)) by (vm_compute; reflexivity).
  eexists _, _. split; [exact H|].
  exact (X14_createDeepProxy_returns_the_registered_proxy 5 0 0 [] ["elsewhere"]
           w _ _ H).
Defined.

(** The three outcomes of [#handleDeepMutation]. *)
Lemma handleDeepMutation_admits path nv ov ty w :
  frozen (this w) = false ->
  (mutationCount (this w) < maxMutations (this w))%Z ->
  let r := handleDeepMutation path nv ov ty w in
  r.1 = Normal tt /\
  heap r.2 = heap w /\
  mutationCount (this r.2) = (mutationCount (this w) + 1)%Z /\
  violationCount (this r.2) = violationCount (this w) /\
  violated (this r.2) = violated (this w) /\
  history (this r.2) =
    history (this w) ++
    (if trackHistory (options (this w)) then
       [{| h_value := nv; h_previousValue := Some ov; h_timestamp := clock w;
           h_mutation := mutationCount (this w) + 1;
           h_mutationPath := Some (join path); h_mutationType := Some ty;
           h_type := TDeepMutation |}]
     else []).
Proof.
  destruct w as [[v0 mx mc vc hist o fr vi ovc dp mp] hp cp cs ck].
  destruct o as [th sm ar af td om ov' ol ox em].
  simpl. intros -> Hlt. run_js. rewrite bool_decide_false by lia. simpl.
  repeat case_step; repeat split; rewrite ?app_nil_r; reflexivity.
Qed.


Lemma handleDeepMutation_refuses path nv ov ty w :
  strictMode (options (this w)) = true ->
  rejects (this w) = true ->
  let r := handleDeepMutation path nv ov ty w in
  is_Throw r.1 = true /\
  heap r.2 = heap w /\
  value (this r.2) = value (this w) /\
  mutationCount (this r.2) = mutationCount (this w) /\
  history (this r.2) = history (this w).
Proof.
  destruct w as [[v0 mx mc vc hist o fr vi ovc dp mp] hp cp cs ck].
  destruct o as [th sm ar af td om ov' ol ox em].
  unfold rejects. simpl. intros -> Hr. run_js.
  destruct fr; simpl in *; [repeat case_step; repeat split; reflexivity|].
  rewrite Hr. simpl. repeat case_step; repeat split; reflexivity.
Qed.

Lemma assoc_get_set k v props : assoc_get k (assoc_set k v props) = Some v.
Proof.
  induction props as [|[k' v'] props IH]; simpl.
  - by rewrite decide_True.
  - destruct (decide (k = k')) as [->|Hne]; simpl.
    + by rewrite decide_True.
    + by rewrite decide_False.
Qed.

Lemma js_get_through_proxy h l kind target path props k :
  h !! l = Some (OProxy kind target path) ->
  h !! target = Some (OObject props) ->
  js_get h l k = default VUndefined (assoc_get k props).
Proof.
  intros Hl Ht. unfold js_get, raw_of.
  assert (Hlen : target < length h) by (apply lookup_lt_is_Some; eauto).
  destruct (length h) as [|m] eqn:E; [lia|].
  cbn [resolve]. rewrite Hl. cbn [resolve]. rewrite Ht. reflexivity.
Qed.

(** What the [set] trap of an object proxy does with a value that is not a
    container, once the admission check has returned. *)
Lemma objectProxy_write_applies n w w1 l target path props k v :
  heap w !! l = Some (OProxy ObjectProxy target path) ->
  heap w !! target = Some (OObject props) ->
  is_primitive v = true ->
  handleDeepMutation (path ++ [key_string k]) v (js_get (heap w) target k) MProperty w
    = (Normal tt, w1) ->
  heap w1 = heap w ->
  Reflect_set (S (S n)) l k v w =
  (Normal tt, with_heap (<[target := OObject (assoc_set k v props)]> (heap w)) w1).
Proof.
  intros Hl Ht Hv Hh Hheap.
  cbn [Reflect_set]. unfold bind at 1, load. rewrite Hl.
  unfold objectProxy_set. unfold bind at 1, getHeap. cbn [fst snd].
  unfold bind at 1. rewrite Hh.
  unfold wrap_value. unfold bind at 1. unfold bind at 1. unfold getHeap.
  rewrite (isObjectOrArray_primitive _ v Hv). unfold ret.
  unfold bind, load. rewrite Hheap, Ht. cbn [set_own]. unfold store.
  by rewrite Hheap.
Qed.

Lemma objectProxy_delete_applies n w w1 l target path props k :
  heap w !! l = Some (OProxy ObjectProxy target path) ->
  heap w !! target = Some (OObject props) ->
  handleDeepMutation (path ++ [key_string k]) VUndefined (js_get (heap w) target k)
    MDelete w = (Normal tt, w1) ->
  heap w1 = heap w ->
  Reflect_deleteProperty (S (S n)) l k w =
  (Normal tt, with_heap (<[target := OObject (assoc_del k props)]> (heap w)) w1).
Proof.
  intros Hl Ht Hh Hheap.
  cbn [Reflect_deleteProperty]. unfold bind at 1, load. rewrite Hl.
  unfold objectProxy_deleteProperty. unfold bind at 1, getHeap. cbn [fst snd].
  unfold bind at 1. rewrite Hh.
  unfold bind, load. rewrite Hheap, Ht. cbn [delete_own]. unfold store.
  by rewrite Hheap.
Qed.

Lemma js_get_after_write h l target path props k v :
  h !! l = Some (OProxy ObjectProxy target path) ->
  h !! target = Some (OObject props) ->
  js_get (<[target := OObject (assoc_set k v props)]> h) l k = v.
Proof.
  intros Hl Ht.
  assert (Hne : target <> l) by (intros ->; congruence).
  assert (Hlen : target < length h) by (apply lookup_lt_is_Some; eauto).
  rewrite (js_get_through_proxy _ l ObjectProxy target path (assoc_set k v props)).
  - by rewrite assoc_get_set.
  - transitivity (h !! l); [exact (list_lookup_insert_ne h target l _ Hne) | exact Hl].
  - exact (list_lookup_insert_eq h target _ Hlen).
Qed.

Lemma admitted_deep_assignment
    (n : nat) (w : World) (l target : loc) (path : Path)
    (props : list (Key * Val)) (k : Key) (v : Val) :
  heap w !! l = Some (OProxy ObjectProxy target path) ->
  heap w !! target = Some (OObject props) ->
  is_primitive v = true ->
  frozen (this w) = false ->
  (mutationCount (this w) < maxMutations (this w))%Z ->
  let r := Reflect_set (S (S n)) l k v w in
  r.1 = Normal tt /\
  js_get (heap r.2) l k = v /\
  mutationCount (this r.2) = (mutationCount (this w) + 1)%Z /\
  violationCount (this r.2) = violationCount (this w) /\
  history (this r.2) =
    history (this w) ++
    (if trackHistory (options (this w)) then
       [{| h_value := v; h_previousValue := Some (js_get (heap w) l k);
           h_timestamp := clock w;
           h_mutation := mutationCount (this w) + 1;
           h_mutationPath := Some (join (path ++ [key_string k]));
           h_mutationType := Some MProperty;
           h_type := TDeepMutation |}]
     else []).
Proof.
  intros Hl Ht Hv Hf Hlt.
  destruct (handleDeepMutation_admits (path ++ [key_string k]) v
              (js_get (heap w) target k) MProperty w Hf Hlt)
    as (H1 & H2 & H3 & H4 & _ & H6).
  destruct (handleDeepMutation (path ++ [key_string k]) v
              (js_get (heap w) target k) MProperty w) as [c w1] eqn:E.
  simpl in H1, H2, H3, H4, H6. subst c.
  cbv zeta. rewrite (objectProxy_write_applies n w w1 l target path props k v
                       Hl Ht Hv E H2).
  cbn [fst snd]. split; [reflexivity|]. split; [|split; [|split]].
  - cbn [heap with_heap]. by apply (js_get_after_write _ l target path props).
  - exact H3.
  - exact H4.
  - cbn [this with_heap]. rewrite H6.
    rewrite (js_get_through_proxy (heap w) l ObjectProxy target path props k Hl Ht).
    unfold js_get, raw_of.
    assert (Hlen : target < length (heap w)) by (apply lookup_lt_is_Some; eauto).
    destruct (length (heap w)) as [|m] eqn:El; [lia|].
    cbn [resolve]. rewrite Ht. reflexivity.
Qed.

(** X15.  Through a proxy that wraps a plain object directly (its target
    is the object itself, not another proxy), an admitted deep assignment
    counts exactly once.  On a variable that is not frozen and has
    allowance left, assigning a value that is not a container to a
    property through such a proxy returns normally, the property then
    reads back as that value, [mutationCount] goes up by one,
    [violationCount] is unchanged, and with [trackHistory] the log gains
    one [deep-mutation] entry carrying the dotted path, the new and the
    previous value and the new count.  Proxies whose target is again a
    proxy are not covered. *)
Theorem X15_admitted_deep_assignment_counts_once
    (n : nat) (w : World) (l target : loc) (path : Path)
    (props : list (Key * Val)) (k : Key) (v : Val) :
  heap w !! l = Some (OProxy ObjectProxy target path) ->
  heap w !! target = Some (OObject props) ->
  is_primitive v = true ->
  frozen (this w) = false ->
  (mutationCount (this w) < maxMutations (this w))%Z ->
  let r := Reflect_set (S (S n)) l k v w in
  r.1 = Normal tt /\
  js_get (heap r.2) l k = v /\
  mutationCount (this r.2) = (mutationCount (this w) + 1)%Z /\
  violationCount (this r.2) = violationCount (this w) /\
  history (this r.2) =
    history (this w) ++
    (if trackHistory (options (this w)) then
       [{| h_value := v; h_previousValue := Some (js_get (heap w) l k);
           h_timestamp := clock w;
           h_mutation := mutationCount (this w) + 1;
           h_mutationPath := Some (join (path ++ [key_string k]));
           h_mutationType := Some MProperty;
           h_type := TDeepMutation |}]
     else []).
Proof. apply admitted_deep_assignment. Qed.

Lemma X15_witness :
  let w := fresh 9 (DObject [(KName "x", DVal (VNum 1))]) 2 default_options in
  let r := Reflect_set 2 1 (KName "x") (VNum 5) w in
  heap w !! 1 = Some (OProxy ObjectProxy 0 []) /\
  heap w !! 0 = Some (OObject [(KName "x", VNum 1)]) /\
  is_primitive (VNum 5) = true /\
  frozen (this w) = false /\
  (mutationCount (this w) < maxMutations (this w))%Z /\
  r.1 = Normal tt /\
  js_get (heap r.2) 1 (KName "x") = VNum 5 /\
  mutationCount (this r.2) = (mutationCount (this w) + 1)%Z.
Proof.
  intros w r.
  assert (Hl : heap w !! 1 = Some (OProxy ObjectProxy 0 [])) by reflexivity.
  assert (Ht : heap w !! 0 = Some (OObject [(KName "x", VNum 1)])) by reflexivity.
  assert (Hv : is_primitive (VNum 5) = true) by reflexivity.
  assert (Hf : frozen (this w) = false) by reflexivity.
  assert (Hlt : (mutationCount (this w) < maxMutations (this w))%Z) by reflexivity.
  destruct (X15_admitted_deep_assignment_counts_once 0 w 1 0 []
              [(KName "x", VNum 1)] (KName "x") (VNum 5) Hl Ht Hv Hf Hlt)
    as (R1 & R2 & R3 & _).
  repeat split; assumption.
Defined.



(** X17.  In strict mode a deep write that is turned down (the variable is
    frozen or has no allowance left) throws before it touches anything: a
    property assignment or [delete] on a tracked object and an index
    assignment on a tracked array leave every object as it was, and a
    mutating array method leaves the array as it was (the only new object
    is the argument list of the call).  The stored value, [mutationCount]
    and the log are unchanged. *)
Theorem X17_strict_rejection_leaves_the_objects_untouched `{ArrayBuiltins}
    (n : nat) (w : World) (l target : loc) (kind : ProxyKind) (path : Path)
    (k : Key) (v : Val) (m : ArrayMethod) (args : list Val) :
  strictMode (options (this w)) = true ->
  rejects (this w) = true ->
  heap w !! l = Some (OProxy kind target path) ->
  (kind = ArrayProxy -> exists i, k = KIdx i) ->
  let same (r : World) :=
    value (this r) = value (this w) /\
    mutationCount (this r) = mutationCount (this w) /\
    history (this r) = history (this w) in
  (is_Throw (Reflect_set (S n) l k v w).1 = true /\
   heap (Reflect_set (S n) l k v w).2 = heap w /\
   same (Reflect_set (S n) l k v w).2) /\
  (kind = ObjectProxy ->
   is_Throw (Reflect_deleteProperty (S n) l k w).1 = true /\
   heap (Reflect_deleteProperty (S n) l k w).2 = heap w /\
   same (Reflect_deleteProperty (S n) l k w).2) /\
  (kind = ArrayProxy ->
   is_Throw (call_method (S n) l m args w).1 = true /\
   heap (call_method (S n) l m args w).2 = heap w ++ [OArray args] /\
   same (call_method (S n) l m args w).2).
Proof.
  intros Hs Hr Hl Hk. cbv zeta.
  assert (Href : forall path nv ov ty w0,
    this w0 = this w ->
    exists e w1, handleDeepMutation path nv ov ty w0 = (Throw e, w1) /\
      heap w1 = heap w0 /\ value (this w1) = value (this w) /\
      mutationCount (this w1) = mutationCount (this w) /\
      history (this w1) = history (this w)).
  { intros path0 nv ov ty w0 E0.
    destruct (handleDeepMutation_refuses path0 nv ov ty w0) as (T1 & T2 & T3 & T4 & T5);
      try (rewrite E0; assumption).
    destruct (handleDeepMutation path0 nv ov ty w0) as [[a|e|] w1];
      try discriminate T1. simpl in *. rewrite E0 in *. by exists e, w1. }
  split; [|split].
  - destruct (Href (path ++ [key_string k]) v (js_get (heap w) target k) MProperty w
                eq_refl) as (e & w1 & E & T2 & T3).
    assert (Es : Reflect_set (S n) l k v w = (Throw e, w1)).
    { cbn [Reflect_set]. unfold bind at 1, load. rewrite Hl.
      destruct kind.
      - unfold objectProxy_set. unfold bind at 1, getHeap. cbn [fst snd].
        unfold bind at 1. by rewrite E.
      - destruct (Hk eq_refl) as [i ->].
        unfold arrayProxy_set. rewrite bool_decide_false by discriminate.
        cbn [negb andb is_index_like].
        unfold bind at 1, getHeap. cbn [fst snd].
        unfold bind at 1. by rewrite E. }
    rewrite Es. cbn [fst snd]. split; [reflexivity|]. split; [exact T2 | exact T3].
  - intros ->.
    destruct (Href (path ++ [key_string k]) VUndefined (js_get (heap w) target k)
                MDelete w eq_refl) as (e & w1 & E & T2 & T3).
    assert (Es : Reflect_deleteProperty (S n) l k w = (Throw e, w1)).
    { cbn [Reflect_deleteProperty]. unfold bind at 1, load. rewrite Hl.
      unfold objectProxy_deleteProperty. unfold bind at 1, getHeap. cbn [fst snd].
      unfold bind at 1. by rewrite E. }
    rewrite Es. cbn [fst snd]. split; [reflexivity|]. split; [exact T2 | exact T3].
  - intros ->.
    destruct (Href (path ++ [method_name m +:+ "()"]) (VRef (length (heap w)))
                VUndefined MArrayMethod (with_heap (heap w ++ [OArray args]) w)
                eq_refl) as (e & w1 & E & T2 & T3).
    assert (Es : call_method (S n) l m args w = (Throw e, w1)).
    { cbn [call_method]. unfold bind at 1, load. rewrite Hl.
      unfold bind at 1, alloc. cbn [fst snd]. unfold bind at 1. by rewrite E. }
    rewrite Es. cbn [fst snd]. split; [reflexivity|]. split; [exact T2 | exact T3].
Qed.

Lemma X17_witness :
  let w' := (construct 9 [OArray [VNum 1]] 0 (VRef 0) 0 default_options).2 in
  strictMode (options (this w')) = true /\
  rejects (this w') = true /\
  heap w' !! 1 = Some (OProxy ArrayProxy 0 []) /\
  (ArrayProxy = ArrayProxy -> exists i, KIdx 0 = KIdx i) /\
  is_Throw (@call_method reference_builtins 1 1 Push [VNum 2] w').1 = true /\
  heap (@call_method reference_builtins 1 1 Push [VNum 2] w').2 =
    heap w' ++ [OArray [VNum 2]].
Proof.
  intros w'.
  assert (Hs : strictMode (options (this w')) = true) by reflexivity.
  assert (Hr : rejects (this w') = true) by reflexivity.
  assert (Hl : heap w' !! 1 = Some (OProxy ArrayProxy 0 [])) by reflexivity.
  assert (Hk : ArrayProxy = ArrayProxy -> exists i, KIdx 0 = KIdx i)
    by (intros _; exists 0; reflexivity).
  destruct (@X17_strict_rejection_leaves_the_objects_untouched reference_builtins
              0 w' 1 0 ArrayProxy [] (KIdx 0) (VNum 9) Push [VNum 2] Hs Hr Hl Hk)
    as (_ & _ & R).
  destruct (R eq_refl) as (R1 & R2 & _).
  repeat split; assumption.
Defined.

(** X18.  Through a proxy that wraps a plain object directly (its target
    is the object itself, not another proxy), an admitted [delete] counts
    exactly once: it returns normally, the property is removed from the
    object, [mutationCount] goes up by one, and with [trackHistory] the log
    gains one [deep-mutation] entry of mutation type [delete] whose new
    value is [undefined] and whose previous value is the deleted one.
    Proxies whose target is again a proxy are not covered. *)
Theorem X18_admitted_delete_counts_once
    (n : nat) (w : World) (l target : loc) (path : Path)
    (props : list (Key * Val)) (k : Key) :
  heap w !! l = Some (OProxy ObjectProxy target path) ->
  heap w !! target = Some (OObject props) ->
  frozen (this w) = false ->
  (mutationCount (this w) < maxMutations (this w))%Z ->
  let r := Reflect_deleteProperty (S (S n)) l k w in
  r.1 = Normal tt /\
  heap r.2 = <[target := OObject (assoc_del k props)]> (heap w) /\
  mutationCount (this r.2) = (mutationCount (this w) + 1)%Z /\
  violationCount (this r.2) = violationCount (this w) /\
  history (this r.2) =
    history (this w) ++
    (if trackHistory (options (this w)) then
       [{| h_value := VUndefined;
           h_previousValue := Some (default VUndefined (assoc_get k props));
           h_timestamp := clock w;
           h_mutation := mutationCount (this w) + 1;
           h_mutationPath := Some (join (path ++ [key_string k]));
           h_mutationType := Some MDelete;
           h_type := TDeepMutation |}]
     else []).
Proof.
  intros Hl Ht Hf Hlt.
  destruct (handleDeepMutation_admits (path ++ [key_string k]) VUndefined
              (js_get (heap w) target k) MDelete w Hf Hlt)
    as (H1 & H2 & H3 & H4 & _ & H6).
  destruct (handleDeepMutation (path ++ [key_string k]) VUndefined
              (js_get (heap w) target k) MDelete w) as [c w1] eqn:E.
  simpl in H1, H2, H3, H4, H6. subst c.
  cbv zeta. rewrite (objectProxy_delete_applies n w w1 l target path props k
                       Hl Ht E H2).
  cbn [fst snd]. split; [reflexivity|]. split; [reflexivity|].
  split; [exact H3|]. split; [exact H4|].
  cbn [this with_heap]. rewrite H6.
  unfold js_get, raw_of.
  assert (Hlen : target < length (heap w)) by (apply lookup_lt_is_Some; eauto).
  destruct (length (heap w)) as [|m] eqn:El; [lia|].
  cbn [resolve]. rewrite Ht. reflexivity.
Qed.

Lemma X18_witness :
  let w := fresh 9 (DObject [(KName "x", DVal (VNum 1)); (KName "y", DVal (VNum 2))])
             2 default_options in
  let r := Reflect_deleteProperty 2 1 (KName "x") w in
  heap w !! 1 = Some (OProxy ObjectProxy 0 []) /\
  heap w !! 0 = Some (OObject [(KName "x", VNum 1); (KName "y", VNum 2)]) /\
  frozen (this w) = false /\
  (mutationCount (this w) < maxMutations (this w))%Z /\
  r.1 = Normal tt /\
  heap r.2 =
    <[0 := OObject (assoc_del (KName "x") [(KName "x", VNum 1); (KName "y", VNum 2)])]>
      (heap w) /\
  mutationCount (this r.2) = (mutationCount (this w) + 1)%Z.
Proof.
  intros w r.
  assert (Hl : heap w !! 1 = Some (OProxy ObjectProxy 0 [])) by reflexivity.
  assert (Ht : heap w !! 0 =
               Some (OObject [(KName "x", VNum 1); (KName "y", VNum 2)]))
    by reflexivity.
  assert (Hf : frozen (this w) = false) by reflexivity.
  assert (Hlt : (mutationCount (this w) < maxMutations (this w))%Z) by reflexivity.
  destruct (X18_admitted_delete_counts_once 0 w 1 0 []
              [(KName "x", VNum 1); (KName "y", VNum 2)] (KName "x") Hl Ht Hf Hlt)
    as (R1 & R2 & R3 & _).
  repeat split; assumption.
Defined.

Lemma forM_noop {A} (l : list A) (f : A -> Js unit) w :
  (forall a, f a w = (Normal tt, w)) -> forM_ l f w = (Normal tt, w).
Proof.
  intros Hf. unfold forM_. induction l as [|a l IH]; simpl; [reflexivity|].
  unfold bind. rewrite Hf. exact IH.
Qed.

Lemma js_get_raw_array h arr elems k :
  h !! arr = Some (OArray elems) -> js_get h arr k = get_own (OArray elems) k.
Proof.
  intros Ha. unfold js_get, raw_of. cbn [resolve]. by rewrite Ha.
Qed.

(** Nothing to re-wrap in an array that holds no containers. *)
Lemma rewrapArrayElements_noop rs cdp arr path w elems :
  heap w !! arr = Some (OArray elems) ->
  Forall (fun v => is_primitive v = true) elems ->
  rewrapArrayElements rs cdp arr path w = (Normal tt, w).
Proof.
  intros Ha Hp. unfold rewrapArrayElements. unfold bind at 1, getHeap. cbn [fst snd].
  rewrite (js_get_raw_array _ _ elems _ Ha). cbn [get_own].
  rewrite decide_True by reflexivity.
  apply forM_noop. intros i. unfold bind, getHeap, getThis. cbn [fst snd].
  rewrite (js_get_raw_array _ _ elems _ Ha). cbn [get_own].
  destruct (elems !! i) as [v|] eqn:Ei; [|reflexivity].
  rewrite Forall_lookup in Hp. specialize (Hp i v Ei).
  destruct v; try discriminate Hp; reflexivity.
Qed.

Lemma call_method_raw `{ArrayBuiltins} n w target elems m args :
  heap w !! target = Some (OArray elems) ->
  exists res h',
    call_method (S n) target m args w = (Normal res, with_heap h' w) /\
    h' !! target = Some (OArray (Array_prototype m args elems).1).
Proof.
  intros Ht.
  assert (Hlen : target < length (heap w)) by (apply lookup_lt_is_Some; eauto).
  cbn [call_method]. unfold bind at 1, load. rewrite Ht.
  destruct (Array_prototype m args elems) as [elems' result]. cbn [fst].
  unfold bind at 1, store. cbn [fst snd].
  destruct result as [v|xs|].
  - eexists _, _. split; [reflexivity|].
    exact (list_lookup_insert_eq (heap w) target _ Hlen).
  - unfold bind, alloc, ret. cbn [fst snd heap with_heap].
    eexists _, _. split; [reflexivity|].
    pose proof (length_insert (heap w) target (OArray elems')) as Hli.
    etransitivity;
      [ apply lookup_app_l; unfold Heap, loc in *; lia
      | exact (list_lookup_insert_eq (heap w) target _ Hlen) ].
  - eexists _, _. split; [reflexivity|].
    exact (list_lookup_insert_eq (heap w) target _ Hlen).
Qed.

Lemma call_method_on_proxy `{ArrayBuiltins} k w l target path m args :
  heap w !! l = Some (OProxy ArrayProxy target path) ->
  call_method (S k) l m args w =
  (a <- alloc (OArray args) ;;
   handleDeepMutation (path ++ [method_name m +:+ "()"]) (VRef a) VUndefined
     MArrayMethod ;;
   result <- call_method k target m args ;;
   rewrapArrayElements (Reflect_set k) (createDeepProxy k) target path ;;
   ret result) w.
Proof. intros Hl. cbn [call_method]. unfold bind at 1, load. by rewrite Hl. Qed.

(** X19.  Through a proxy that wraps an array directly (its target is the
    array itself, not another proxy), an admitted call of a mutating array
    method counts exactly once when the array holds no containers
    afterwards: for each of the eight intercepted methods, on a variable
    that is not frozen and has allowance left, the call returns normally,
    the array holds what the built-in produced, [mutationCount] goes up by
    one, and with [trackHistory] the log gains one [deep-mutation] entry of
    mutation type [array-method] whose path ends in the method name
    followed by [()] and whose new value is the argument list.  Proxies
    whose target is again a proxy are not covered. *)
Theorem X19_admitted_array_method_counts_once `{ArrayBuiltins}
    (n : nat) (w : World) (l target : loc) (path : Path) (elems : list Val)
    (m : ArrayMethod) (args : list Val) :
  heap w !! l = Some (OProxy ArrayProxy target path) ->
  heap w !! target = Some (OArray elems) ->
  Forall (fun v => is_primitive v = true) (Array_prototype m args elems).1 ->
  frozen (this w) = false ->
  (mutationCount (this w) < maxMutations (this w))%Z ->
  let r := call_method (S (S n)) l m args w in
  is_Normal r.1 = true /\
  heap r.2 !! target = Some (OArray (Array_prototype m args elems).1) /\
  mutationCount (this r.2) = (mutationCount (this w) + 1)%Z /\
  violationCount (this r.2) = violationCount (this w) /\
  history (this r.2) =
    history (this w) ++
    (if trackHistory (options (this w)) then
       [{| h_value := VRef (length (heap w)); h_previousValue := Some VUndefined;
           h_timestamp := clock w;
           h_mutation := mutationCount (this w) + 1;
           h_mutationPath := Some (join (path ++ [method_name m +:+ "()"]));
           h_mutationType := Some MArrayMethod;
           h_type := TDeepMutation |}]
     else []).
Proof.
  intros Hl Ht Hp Hf Hlt.
  set (w0 := with_heap (heap w ++ [OArray args]) w).
  destruct (handleDeepMutation_admits (path ++ [method_name m +:+ "()"])
              (VRef (length (heap w))) VUndefined MArrayMethod w0 Hf Hlt)
    as (H1 & H2 & H3 & H4 & _ & H6).
  destruct (handleDeepMutation (path ++ [method_name m +:+ "()"])
              (VRef (length (heap w))) VUndefined MArrayMethod w0) as [c w1] eqn:E.
  simpl in H1, H2, H3, H4, H6. subst c.
  assert (Ht1 : heap w1 !! target = Some (OArray elems)).
  { rewrite H2. apply lookup_app_l_Some, Ht. }
  destruct (call_method_raw n w1 target elems m args Ht1) as (res & h' & Ec & Hh').
  assert (Es : call_method (S (S n)) l m args w = (Normal res, with_heap h' w1)).
  { rewrite (call_method_on_proxy (S n) w l target path m args Hl).
    unfold bind at 1, alloc. cbn [fst snd]. unfold bind at 1. fold w0. rewrite E.
    unfold bind at 1. rewrite Ec.
    unfold bind.
    rewrite (rewrapArrayElements_noop _ _ target path (with_heap h' w1)
               (Array_prototype m args elems).1 Hh' Hp).
    reflexivity. }
  cbv zeta. rewrite Es. cbn [fst snd this heap with_heap].
  split; [reflexivity|]. split; [exact Hh'|]. split; [exact H3|].
  split; [exact H4 | exact H6].
Qed.

Lemma X19_witness :
  let w := fresh 9 (DArray [DVal (VStr "sword")]) 1 default_options in
  let r := @call_method reference_builtins 2 1 Push [VStr "shield"] w in
  heap w !! 1 = Some (OProxy ArrayProxy 0 []) /\
  heap w !! 0 = Some (OArray [VStr "sword"]) /\
  Forall (fun v => is_primitive v = true)
    (@Array_prototype reference_builtins Push [VStr "shield"] [VStr "sword"]).1 /\
  frozen (this w) = false /\
  (mutationCount (this w) < maxMutations (this w))%Z /\
  is_Normal r.1 = true /\
  heap r.2 !! 0 =
    Some (OArray (@Array_prototype reference_builtins Push [VStr "shield"]
                    [VStr "sword"]).1) /\
  mutationCount (this r.2) = (mutationCount (this w) + 1)%Z.
Proof.
  intros w r.
  assert (Hl : heap w !! 1 = Some (OProxy ArrayProxy 0 [])) by reflexivity.
  assert (Ht : heap w !! 0 = Some (OArray [VStr "sword"])) by reflexivity.
  assert (Hp : Forall (fun v => is_primitive v = true)
                 (@Array_prototype reference_builtins Push [VStr "shield"]
                    [VStr "sword"]).1) by (repeat constructor).
  assert (Hf : frozen (this w) = false) by reflexivity.
  assert (Hlt : (mutationCount (this w) < maxMutations (this w))%Z) by reflexivity.
  destruct (@X19_admitted_array_method_counts_once reference_builtins 0 w 1 0 []
              [VStr "sword"] Push [VStr "shield"] Hl Ht Hp Hf Hlt)
    as (R1 & R2 & R3 & _).
  repeat split; assumption.
Defined.




Lemma reset_does (w : World) :
  allowReset (options (this w)) = true ->
  exists w',
    reset w = (Normal tt, w') /\
    heap w' = heap w /\ value (this w') = value (this w) /\
    maxMutations (this w') = maxMutations (this w) /\
    mutationCount (this w') = 0%Z /\ violationCount (this w') = 0%Z /\
    frozen (this w') = false /\ violated (this w') = false.
Proof.
  destruct w as [[v0 mx mc vc hist o fr vi ovc dp mp] hp cp cs ck].
  destruct o as [th sm ar af td om ov' ol ox em].
  simpl. intros ->. run_js. repeat case_step; eexists; repeat split.
Qed.

(** X21.  Tracking survives [reset()]: [reset] forgets the proxy
    registrations but leaves the stored value and every existing proxy in
    place, so on a variable with a limit of at least one the next deep
    assignment of a value that is not a container, made through an
    existing proxy that wraps a plain object directly (its target is the
    object itself, not another proxy), is admitted and counted as mutation
    number one, also when the variable was frozen or depleted before the
    reset.  Proxies whose target is again a proxy are not covered. *)
Theorem X21_existing_proxies_keep_tracking_after_reset
    (n : nat) (w : World) (l target : loc) (path : Path)
    (props : list (Key * Val)) (k : Key) (v : Val) :
  allowReset (options (this w)) = true ->
  (1 <= maxMutations (this w))%Z ->
  heap w !! l = Some (OProxy ObjectProxy target path) ->
  heap w !! target = Some (OObject props) ->
  is_primitive v = true ->
  let w' := (reset w).2 in
  let r := Reflect_set (S (S n)) l k v w' in
  (reset w).1 = Normal tt /\
  value (this w') = value (this w) /\
  r.1 = Normal tt /\
  js_get (heap r.2) l k = v /\
  mutationCount (this r.2) = 1%Z /\
  violationCount (this r.2) = 0%Z.
Proof.
  intros Ha Hm Hl Ht Hv.
  destruct (reset_does w Ha) as (w' & E & Hh & Hval & Hmx & Hmc & Hvc & Hf & _).
  cbv zeta. rewrite E. cbn [fst snd].
  rewrite <- Hh in Hl, Ht.
  destruct (admitted_deep_assignment n w' l target path props k v Hl Ht Hv Hf
              ltac:(lia)) as (R1 & R2 & R3 & R4 & _).
  rewrite Hmc in R3. rewrite Hvc in R4. by repeat split.
Qed.

Lemma X21_witness :
  let w := (@run reference_builtins 9
              [SetProp (ViaValue []) (KName "x") (DVal (VNum 2))]
              (fresh 9 (DObject [(KName "x", DVal (VNum 1))]) 1 resettable)).2 in
  let w' := (reset w).2 in
  let r := Reflect_set 2 1 (KName "x") (VNum 5) w' in
  allowReset (options (this w)) = true /\
  (1 <= maxMutations (this w))%Z /\
  heap w !! 1 = Some (OProxy ObjectProxy 0 []) /\
  heap w !! 0 = Some (OObject [(KName "x", VNum 2)]) /\
  is_primitive (VNum 5) = true /\
  frozen (this w) = true /\
  r.1 = Normal tt /\
  mutationCount (this r.2) = 1%Z.
Proof.
  intros w w' r.
  assert (Ha : allowReset (options (this w)) = true) by reflexivity.
  assert (Hm : (1 <= maxMutations (this w))%Z) by (vm_compute; discriminate).
  assert (Hl : heap w !! 1 = Some (OProxy ObjectProxy 0 [])) by reflexivity.
  assert (Ht : heap w !! 0 = Some (OObject [(KName "x", VNum 2)])) by reflexivity.
  assert (Hv : is_primitive (VNum 5) = true) by reflexivity.
  destruct (X21_existing_proxies_keep_tracking_after_reset 0 w 1 0 []
              [(KName "x", VNum 2)] (KName "x") (VNum 5) Ha Hm Hl Ht Hv)
    as (_ & _ & R3 & _ & R5 & _).
  repeat split; try assumption.
Defined.

Lemma shallow_set_value_heap v w : heap (Shallow.set_value v w).2 = heap w.
Proof.
  destruct w as [[v0 mx mc vc hist o fr vi ovc dp mp] hp cp cs ck].
  destruct o as [th sm ar af td om ov' ol ox em].
  unfold Shallow.set_value. run_js. repeat case_step; reflexivity.
Qed.

Lemma shallow_plain_heap op w :
  plain op = true -> heap (Shallow.host_step op w).2 = heap w.
Proof.
  intros Hop. destruct op; try discriminate Hop; simpl.
  - unfold discard, get_value, bind, getThis. simpl.
    by destruct (strictMode _ && violated _).
  - destruct d as [v| | |]; try discriminate Hop.
    unfold bind, eval_data. cbn [alloc_data].
    apply (shallow_set_value_heap v (with_heap (heap w) w)).
  - reflexivity.
  - destruct w as [[v0 mx mc vc hist o fr vi ovc dp mp] hp cp cs ck].
    destruct o as [th sm ar af td om ov' ol ox em].
    unfold Shallow.reset. run_js. repeat case_step; reflexivity.
  - unfold discard, get_history, bind, getThis. simpl. by destruct (negb _).
  - unfold host_edit_array. destruct r; simpl; [reflexivity|].
    by destruct (copies w !! n).
Qed.

Lemma host_step_plain `{ArrayBuiltins} fuel op w :
  plain op = true ->
  deepProxies (this w) = ∅ -> mutationPath (this w) = [] ->
  host_step fuel op w = Shallow.host_step op w.
Proof.
  intros Hop Hdp Hmp. destruct op; try discriminate Hop; simpl; try reflexivity.
  - destruct d as [v| | |]; try discriminate Hop. simpl in Hop.
    unfold bind, eval_data. cbn [alloc_data].
    apply (set_value_shallow fuel v (with_heap (heap w) w)). simpl.
    by rewrite (isObjectOrArray_primitive _ v Hop), andb_false_r.
  - by apply reset_shallow.
Qed.

(** X22.  On values that are not containers the deep-tracking class is the
    shallow-only class, whatever [trackDeepMutations] says: when the
    initial value and every assigned value are primitives, construction
    and every sequence of top-level operations complete the same way and
    leave the same state, callbacks and log; no proxy is ever created. *)
Theorem X22_on_primitive_values_it_is_the_shallow_class `{ArrayBuiltins}
    (fuel : nat) (h : Heap) (now : Z) (v : Val) (n : Z) (o : Options)
    (ops : list HostOp) :
  is_primitive v = true ->
  Forall (fun op => plain op = true) ops ->
  construct fuel h now v n o = Shallow.construct h now v n o /\
  run fuel ops (construct fuel h now v n o).2 =
  Shallow.run ops (Shallow.construct h now v n o).2 /\
  heap (run fuel ops (construct fuel h now v n o).2).2 = h.
Proof.
  intros Hv Hops.
  assert (Hc : construct fuel h now v n o = Shallow.construct h now v n o).
  { apply constructor_body_shallow. simpl.
    by rewrite (isObjectOrArray_primitive _ v Hv), andb_false_r. }
  split; [exact Hc|]. rewrite Hc.
  assert (Hinv : deepProxies (this (Shallow.construct h now v n o).2) = ∅ /\
                 mutationPath (this (Shallow.construct h now v n o).2) = [] /\
                 heap (Shallow.construct h now v n o).2 = h).
  { unfold Shallow.construct, Shallow.constructor_body, blank.
    run_js. destruct (trackHistory (couple o)); auto. }
  revert Hinv. generalize (Shallow.construct h now v n o).2.
  induction Hops as [|op ops Hop _ IH]; intros w (Idp & Imp & Ih);
    [split; [reflexivity | exact Ih]|].
  rewrite run_cons, shallow_run_cons. cbn [fst snd].
  rewrite (host_step_plain fuel op w Hop Idp Imp).
  destruct (shallow_host_step_frame op w) as (_ & Fd & Fm).
  assert (Fh : heap (Shallow.host_step op w).2 = h)
    by (rewrite (shallow_plain_heap op w Hop); exact Ih).
  destruct (IH (Shallow.host_step op w).2) as (IH1 & IH2);
    [rewrite Fd, Fm; auto|].
  split; [by rewrite IH1 | exact IH2].
Qed.

Lemma X22_witness :
  let ops := [Write (DVal (VNum 1)); Read; Reset; Write (DVal (VStr "two"));
              Write (DVal VNull); GetHistory; Freeze] in
  is_primitive (VNum 0) = true /\
  Forall (fun op => plain op = true) ops /\
  @run reference_builtins 9 ops (construct 9 [] 0 (VNum 0) 1 resettable).2 =
  Shallow.run ops (Shallow.construct [] 0 (VNum 0) 1 resettable).2.
Proof.
  intros ops.
  assert (Hv : is_primitive (VNum 0) = true) by reflexivity.
  assert (Hq : Forall (fun op => plain op = true) ops) by (repeat constructor).
  split; [exact Hv|]. split; [exact Hq|].
  exact (proj1 (proj2 (@X22_on_primitive_values_it_is_the_shallow_class
                         reference_builtins 9 [] 0%Z (VNum 0) 1%Z resettable ops
                         Hv Hq))).
Defined.

(** ** The numbering of the log *)

Lemma admitted_numbers_snoc l e :
  admitted_numbers (l ++ [e]) =
  admitted_numbers l ++ (if is_admitted e then [h_mutation e] else []).
Proof.
  unfold admitted_numbers. rewrite filter_app, fmap_app. f_equal.
  destruct (is_admitted e) eqn:E.
  - by rewrite filter_cons_True.
  - rewrite filter_cons_False; [done|]. by rewrite E.
Qed.

Lemma numbers_same (a : list Z) (c : Z) : a = a ++ seqZ (c + 1) (c - c).
Proof. by rewrite seqZ_nil, app_nil_r by lia. Qed.

Lemma numbers_extend (a : list Z) (c c1 : Z) :
  (c <= c1)%Z ->
  (a ++ seqZ (c + 1) (c1 - c)) ++ [(c1 + 1)%Z] = a ++ seqZ (c + 1) (c1 + 1 - c).
Proof.
  intros Hle. rewrite <- app_assoc. f_equal.
  replace (c1 + 1 - c)%Z with ((c1 - c) + 1)%Z by lia.
  rewrite seqZ_app by lia. f_equal.
  replace (c + 1 + (c1 - c))%Z with (c1 + 1)%Z by lia. reflexivity.
Qed.

Lemma numbers_one (a : list Z) (c : Z) :
  a ++ [(c + 1)%Z] = a ++ seqZ (c + 1) (c + 1 - c).
Proof.
  pose proof (numbers_extend a c c ltac:(lia)) as E.
  rewrite Z.sub_diag in E. rewrite seqZ_nil, app_nil_r in E by lia. exact E.
Qed.

#[global] Instance numbered_step_preorder : PreOrder numbered_step.
Proof.
  split.
  - intros w. split; [reflexivity | lia | intros _; apply numbers_same].
  - intros w1 w2 w3 [o1 c1 n1] [o2 c2 n2]. split; [congruence | lia |].
    intros Ht. rewrite n2 by (rewrite o1; exact Ht). rewrite n1 by exact Ht.
    rewrite <- app_assoc. f_equal.
    replace (mutationCount (this w3) - mutationCount (this w1))%Z
      with ((mutationCount (this w2) - mutationCount (this w1)) +
            (mutationCount (this w3) - mutationCount (this w2)))%Z by lia.
    rewrite seqZ_app by lia. do 2 f_equal. lia.
Qed.

Ltac num_leaf :=
  simpl;
  first
    [ reflexivity
    | lia
    | let Ht := fresh "Ht" in
      intros Ht; try discriminate Ht;
      rewrite ?admitted_numbers_snoc; simpl; rewrite ?app_nil_r;
      first [ apply numbers_same | apply numbers_one ] ].

Lemma numbered_heap w h : numbered_step w (with_heap h w).
Proof. split; simpl; [reflexivity | lia | intros _; apply numbers_same]. Qed.

Lemma numbered_deepProxies w m :
  numbered_step w (with_this (set_deepProxies m (this w)) w).
Proof. split; simpl; [reflexivity | lia | intros _; apply numbers_same]. Qed.

Lemma numbered_handleDeepMutation path nv ov ty :
  Pres numbered_step (handleDeepMutation path nv ov ty).
Proof.
  intros [[v mx mc vc hist o fr vi ovc dp mp] hp cp cs ck].
  destruct o as [th sm ar af td om ov' ol ox em].
  run_js. repeat case_step; split; num_leaf.
Qed.

Lemma numbered_set_value fuel v : Pres numbered_step (set_value fuel v).
Proof.
  intros w.
  pose proof (Pres_createDeepProxy numbered_step numbered_heap numbered_deepProxies
                numbered_handleDeepMutation fuel) as Hc.
  destruct w as [[v0 mx mc vc hist o fr vi ovc dp mp] hp cp cs ck].
  destruct o as [th sm ar af td om ov' ol ox em].
  run_js.
  destruct fr; simpl; [repeat case_step; split; num_leaf|].
  case_bool_decide; simpl; [repeat case_step; split; num_leaf|].
  match goal with |- context [td && isObjectOrArray ?h v] =>
    destruct (td && isObjectOrArray h v) eqn:Hb end; simpl;
    [|solve [repeat case_step; split; num_leaf]].
  destruct v; try (rewrite andb_false_r in Hb; discriminate Hb). simpl.
  match goal with |- context [createDeepProxy fuel l [] ?w0] =>
    specialize (Hc l [] w0); destruct (createDeepProxy fuel l [] w0) as [[p|e|] w1] end;
    simpl in *; try exact Hc.
  destruct w1 as [[v1 mx1 mc1 vc1 hist1 o1 fr1 vi1 ovc1 dp1 mp1] hp1 cp1 cs1 ck1].
  destruct Hc as [Ho Hcnt Hn]; simpl in *. subst o1.
  repeat case_step; split; simpl; try reflexivity; try lia;
    intros Ht; try discriminate Ht;
    rewrite ?admitted_numbers_snoc; simpl; rewrite ?app_nil_r;
    rewrite (Hn eq_refl); apply numbers_extend; exact Hcnt.
Qed.

Lemma numbered_host_step `{ArrayBuiltins} fuel op :
  quiet op = true -> Pres numbered_step (host_step fuel op).
Proof.
  intros Hq. destruct (is_write op) eqn:Hw.
  - apply Pres_write; auto using numbered_heap, numbered_deepProxies,
      numbered_handleDeepMutation, numbered_set_value. apply _.
  - destruct op; try discriminate; simpl.
    + apply Pres_discard; [apply _ | apply Pres_get_value; apply _].
    + intros w. split; simpl; [reflexivity | lia | intros _; apply numbers_same].
    + intros w. unfold discard, get_history, bind, getThis. simpl.
      destruct (negb _); simpl;
        (split; simpl; [reflexivity | lia | intros _; apply numbers_same]).
    + intros w. destruct r; [discriminate Hq|].
      unfold host_edit_array. destruct (copies w !! n); simpl;
        (split; simpl; [reflexivity | lia | intros _; apply numbers_same]).
Qed.

Lemma numbered_run `{ArrayBuiltins} fuel ops w :
  Forall (fun op => quiet op = true) ops ->
  numbered_step w (run fuel ops w).2.
Proof.
  intros Hops. revert w. induction Hops as [|op ops Hop _ IH]; intros w.
  - reflexivity.
  - rewrite run_cons. simpl. etransitivity; [|apply IH].
    apply numbered_host_step, Hop.
Qed.

Lemma numbered_construct fuel h now v n o :
  let w := (construct fuel h now v n o).2 in
  options (this w) = couple o /\
  (0 <= mutationCount (this w))%Z /\
  (trackHistory o = true ->
   admitted_numbers (history (this w)) = seqZ 1 (mutationCount (this w))).
Proof.
  pose proof (Pres_createDeepProxy numbered_step numbered_heap numbered_deepProxies
                numbered_handleDeepMutation fuel) as Hc.
  destruct o as [th sm ar af td om ov' ol ox em].
  unfold construct, constructor_body, blank, couple.
  destruct sm; run_js;
  (match goal with |- context [td && isObjectOrArray ?h v] =>
     destruct (td && isObjectOrArray h v) eqn:Hb end; simpl;
     [|solve [repeat case_step; repeat split; try lia; try reflexivity;
              intros Ht; discriminate Ht]]);
  (destruct v; try (rewrite andb_false_r in Hb; discriminate Hb); simpl);
  (match goal with |- context [createDeepProxy fuel ?l [] ?w0] =>
     specialize (Hc l [] w0);
     destruct (createDeepProxy fuel l [] w0) as [[p|e|] w1] end; simpl in *);
  destruct w1 as [[v1 mx1 mc1 vc1 hist1 o1 fr1 vi1 ovc1 dp1 mp1] hp1 cp1 cs1 ck1];
  destruct Hc as [Ho Hcnt Hn]; simpl in *; subst o1; simpl in *;
  repeat case_step; repeat split; try lia; try reflexivity;
  intros Ht; try discriminate Ht;
  rewrite ?admitted_numbers_snoc; simpl; rewrite ?app_nil_r;
  rewrite (Hn Ht); simpl; f_equal; lia.
Qed.

(** X23.  The admitted entries of the log are numbered consecutively: on a
    variable built by the constructor with [trackHistory], after any
    operations without [reset] (and without the host editing the log
    array), the [mutation] fields of the [mutation] and [deep-mutation]
    entries are, in log order, 1, 2, ..., [mutationCount]. *)
Theorem X23_admitted_entries_are_numbered_consecutively `{ArrayBuiltins}
    (fuel fuel' : nat) (h : Heap) (now : Z) (v : Val) (n : Z) (o : Options)
    (ops : list HostOp) :
  trackHistory o = true ->
  Forall (fun op => quiet op = true) ops ->
  let w := (run fuel' ops (construct fuel h now v n o).2).2 in
  admitted_numbers (history (this w)) = seqZ 1 (mutationCount (this w)).
Proof.
  intros Ht Hops w.
  destruct (numbered_construct fuel h now v n o) as (Ho & H0 & Hn).
  destruct (couple_callbacks o) as (_ & _ & Et & _).
  destruct (numbered_run fuel' ops (construct fuel h now v n o).2 Hops)
    as [_ Hc Hr].
  fold w in Hc, Hr. cbv zeta in Ho, H0, Hn.
  rewrite Hr by (rewrite Ho, Et; exact Ht). rewrite (Hn Ht).
  set (c0 := mutationCount (this (construct fuel h now v n o).2)) in *.
  replace (mutationCount (this w)) with (c0 + (mutationCount (this w) - c0))%Z
    at 2 by lia.
  rewrite seqZ_app by lia. do 2 f_equal. lia.
Qed.

Lemma X23_witness :
  let ops := [SetProp (ViaValue []) (KName "x") (DVal (VNum 2));
              Write (DVal (VNum 3)); Write (DVal (VNum 4))] in
  let w := (@run reference_builtins 9 ops
              (construct 9 [OObject [(KName "x", VNum 1)]] 0 (VRef 0) 2
                 default_options).2).2 in
  trackHistory default_options = true /\
  Forall (fun op => quiet op = true) ops /\
  admitted_numbers (history (this w)) = seqZ 1 (mutationCount (this w)).
Proof.
  intros ops w.
  assert (Ht : trackHistory default_options = true) by reflexivity.
  assert (Hq : Forall (fun op => quiet op = true) ops) by (repeat constructor).
  split; [exact Ht|]. split; [exact Hq|].
  exact (@X23_admitted_entries_are_numbered_consecutively reference_builtins
           9 9 [OObject [(KName "x", VNum 1)]] 0%Z (VRef 0) 2%Z default_options ops
           Ht Hq).
Defined.
